(** * Kernel entry and system-call dispatch (src/api/syscall.c)

    A shallow embedding of the trap-entry handlers of the kernel:
    [handleInterruptEntry], [handleUnknownSyscall], [handleUserLevelFault],
    [handleVMFaultEvent], [handleInvocation], [handleReply], [handleRecv],
    [handleYield] and [handleSyscall].

    The handlers are written in a state monad over the kernel's globals and
    object heaps.  Functions that syscall.c calls but does not define are
    fields of a record of collaborators: arbitrary functions on the kernel
    state.  Every call to one of them is appended, with its arguments, to a
    call log that the collaborators themselves cannot touch, so that "calls",
    "never calls" and "calls before" are statements about that log.  [fail],
    [halt] and a violated [assert] stop the kernel and are a distinguished
    outcome.

    The preprocessor conditions of syscall.c (DEBUG, DANGEROUS_CODE_INJECTION,
    CONFIG_MAX_NUM_TRACE_POINTS) are fields of a build configuration;
    constants, generated accessors and address computations that come from
    headers are fields of a record of constants. *)

From Stdlib Require Import ZArith List String Bool Lia.
Import ListNotations.
Local Open Scope string_scope.
Local Open Scope list_scope.
Local Open Scope Z_scope.

(** ** Machine words and pointers *)

(** The architecture headers of the tree are those of 64-bit ARM. *)
Definition wordBits : Z := 64.
Definition sizeof_word_t : Z := 8.

Definition word_t := Z.
Definition wrap (z : Z) : word_t := z mod 2 ^ wordBits.

Definition cptr_t := word_t.
Definition irq_t := word_t.
Definition tcb_ptr := word_t.          (* tcb_t * *)
Definition cte_ptr := word_t.          (* cte_t * *)
Definition ntfn_ptr := word_t.         (* notification_t * *)
Definition sched_context_ptr := word_t.
Definition buffer_ptr := word_t.       (* word_t *, NULL is 0 *)
Definition message_info_t := word_t.
Definition vm_fault_type_t := word_t.

(** ** Enumerations *)

(** [exception_t]: the enumerators that syscall.c names, and any other value
    of the enumeration. *)
Inductive exception_t :=
| EXCEPTION_NONE
| EXCEPTION_SYSCALL_ERROR
| EXCEPTION_PREEMPTED
| EXCEPTION_other (n : Z).

Definition exception_eqb (a b : exception_t) : bool :=
  match a, b with
  | EXCEPTION_NONE, EXCEPTION_NONE => true
  | EXCEPTION_SYSCALL_ERROR, EXCEPTION_SYSCALL_ERROR => true
  | EXCEPTION_PREEMPTED, EXCEPTION_PREEMPTED => true
  | EXCEPTION_other n, EXCEPTION_other m => Z.eqb n m
  | _, _ => false
  end.

(** [syscall_t]: the eight enumerators of the switch in [handleSyscall]; any
    other value the trap vector passes is [SysOther]. *)
Inductive syscall_t :=
| SysSend | SysNBSend | SysCall | SysRecv
| SysReply | SysReplyRecv | SysNBRecv | SysYield
| SysOther (n : Z).

(** The type tag of a thread state. *)
Inductive _thread_state_t :=
| ThreadState_Inactive
| ThreadState_Running
| ThreadState_Restart
| ThreadState_BlockedOnReceive
| ThreadState_BlockedOnSend
| ThreadState_BlockedOnReply
| ThreadState_BlockedOnNotification
| ThreadState_other (n : Z).

Definition is_ThreadState_Restart (ts : _thread_state_t) : bool :=
  match ts with ThreadState_Restart => true | _ => false end.

Inductive register_t :=
| capRegister
| msgInfoRegister
| otherRegister (n : Z).

Definition register_eqb (a b : register_t) : bool :=
  match a, b with
  | capRegister, capRegister => true
  | msgInfoRegister, msgInfoRegister => true
  | otherRegister n, otherRegister m => Z.eqb n m
  | _, _ => false
  end.

(** ** Capabilities, faults and kernel objects *)

(** [cap_t] is a tagged union; the variants carry the fields that the
    handlers read through the generated accessors. *)
Inductive cap_t :=
| cap_null_cap
| cap_endpoint_cap (capEPPtr : word_t) (capCanSend capCanReceive : bool)
                   (capEPBadge : word_t)
| cap_notification_cap (capNtfnPtr : ntfn_ptr)
                       (capNtfnCanSend capNtfnCanReceive : bool)
                       (capNtfnBadge : word_t)
| cap_reply_cap (capReplyMaster : bool) (capTCBPtr : tcb_ptr)
| cap_thread_cap (capTCBPtr : tcb_ptr)
| cap_other_cap (capType : Z) (payload : word_t).

Inductive cap_tag_t :=
| tag_null_cap | tag_endpoint_cap | tag_notification_cap
| tag_reply_cap | tag_thread_cap | tag_other_cap (capType : Z).

Definition cap_get_capType (c : cap_t) : cap_tag_t :=
  match c with
  | cap_null_cap => tag_null_cap
  | cap_endpoint_cap _ _ _ _ => tag_endpoint_cap
  | cap_notification_cap _ _ _ _ => tag_notification_cap
  | cap_reply_cap _ _ => tag_reply_cap
  | cap_thread_cap _ => tag_thread_cap
  | cap_other_cap n _ => tag_other_cap n
  end.

Inductive lookup_fault_t :=
| lookup_fault_null
| lookup_fault_missing_capability (bitsLeft : word_t)
| lookup_fault_other (w : word_t).

Definition lookup_fault_missing_capability_new (bitsLeft : word_t) : lookup_fault_t :=
  lookup_fault_missing_capability bitsLeft.

Inductive fault_t :=
| fault_null_fault
| fault_cap_fault (address : word_t) (inReceivePhase : bool)
| fault_unknown_syscall (syscallNumber : word_t)
| fault_user_exception (number code : word_t)
| fault_other (w0 w1 : word_t).

Definition fault_cap_fault_new (address : word_t) (inReceivePhase : bool) : fault_t :=
  fault_cap_fault address inReceivePhase.
Definition fault_unknown_syscall_new (w : word_t) : fault_t := fault_unknown_syscall w.
Definition fault_user_exception_new (w_a w_b : word_t) : fault_t :=
  fault_user_exception w_a w_b.

Record thread_state_t := {
  tsType : _thread_state_t;
  tcbQueued : bool
}.

Definition thread_state_get_tsType (ts : thread_state_t) := tsType ts.
Definition thread_state_get_tcbQueued (ts : thread_state_t) := tcbQueued ts.

Record cte_t := { cap : cap_t; cteMDBNode : word_t }.

Record tcb_t := {
  tcbRegisters : register_t -> word_t;
  tcbState : thread_state_t;
  tcbSchedContext : sched_context_ptr
}.

Record notification_t := { ntfnBoundTCB : word_t }.

Definition notification_ptr_get_ntfnBoundTCB (n : notification_t) : word_t :=
  ntfnBoundTCB n.

Record lookupCapAndSlot_ret_t := {
  lcs_status : exception_t;
  lcs_cap : cap_t;
  lcs_slot : cte_ptr
}.

Record lookupCap_ret_t := { lc_status : exception_t; lc_cap : cap_t }.

Definition extra_caps_t := list cte_ptr.

Inductive syscall_error_type_t :=
| seL4_NoError | seL4_InvalidArgument | seL4_IllegalOperation
| seL4_OtherError (n : Z).

Record ks_log_entry_t := { key : word_t; data : word_t }.

(** ** Build configuration and constants of headers outside syscall.c *)

Record build_config := {
  DEBUG : bool;
  DANGEROUS_CODE_INJECTION : bool;
  CONFIG_MAX_NUM_TRACE_POINTS : Z
}.

(** Values and pure helpers that syscall.c takes from headers: numbers of
    the diagnostic system calls, limits, generated bit-field accessors and
    the address computation of a slot inside a TCB. *)
Record kernel_constants := {
  irqInvalid : irq_t;
  SysDebugPutChar : word_t;
  SysDebugHalt : word_t;
  SysDebugSnapshot : word_t;
  SysDebugCapIdentify : word_t;
  SysDebugNameThread : word_t;
  SysDebugRun : word_t;
  SysBenchmarkResetLog : word_t;
  SysBenchmarkDumpLog : word_t;
  SysBenchmarkLogSize : word_t;
  SysBenchmarkFinalizeLog : word_t;
  MAX_LOG_SIZE : word_t;
  MAX_IPC_BUFFER_STORAGE : word_t;
  seL4_MsgMaxLength : word_t;
  n_msgRegisters : word_t;
  tcbCaller : Z;
  TCB_PTR_CTE_PTR : tcb_ptr -> Z -> cte_ptr;
  cap_tag_word : cap_tag_t -> word_t;
  messageInfoFromWord : word_t -> message_info_t;
  message_info_get_msgLength : message_info_t -> word_t;
  message_info_get_msgLabel : message_info_t -> word_t
}.

(** ** Kernel state *)

Inductive debug_path_t :=
| Debug_None | Debug_Interrupt | Debug_UnknownSyscall
| Debug_UserLevelFault | Debug_VMFault | Debug_Syscall.

(** The debug-only record of the current kernel entry. *)
Record kernel_entry_t := {
  ke_path : debug_path_t;
  ke_irq : irq_t;
  ke_word : word_t;
  ke_number : word_t;
  ke_code : word_t;
  ke_fault_type : vm_fault_type_t;
  ke_cap_type : cap_tag_t;
  ke_invocation_tag : word_t;
  ke_syscall_no : syscall_t
}.

Section Model.

(** State owned by the collaborators (scheduler queues, endpoint queues,
    the capability derivation tree, devices, ...). *)
Context {E : Type}.

Record kernel_state := {
  ksCurThread : tcb_ptr;
  ksConsumed : Z;
  current_fault : fault_t;
  current_lookup_fault : lookup_fault_t;
  current_syscall_error_type : syscall_error_type_t;
  current_extra_caps : extra_caps_t;
  ksKernelEntry : kernel_entry_t;
  ksLogIndex : word_t;
  ksLogIndexFinalized : word_t;
  ksLog : Z -> ks_log_entry_t;
  tcb_heap : tcb_ptr -> tcb_t;
  cte_heap : cte_ptr -> cte_t;
  ntfn_heap : ntfn_ptr -> notification_t;
  user_mem : Z -> Z;                  (* byte-addressed memory *)
  ksExternal : E
}.

Definition set_ksConsumed (v : Z) (s : kernel_state) : kernel_state :=
  {| ksCurThread := ksCurThread s; ksConsumed := v;
     current_fault := current_fault s;
     current_lookup_fault := current_lookup_fault s;
     current_syscall_error_type := current_syscall_error_type s;
     current_extra_caps := current_extra_caps s;
     ksKernelEntry := ksKernelEntry s; ksLogIndex := ksLogIndex s;
     ksLogIndexFinalized := ksLogIndexFinalized s; ksLog := ksLog s;
     tcb_heap := tcb_heap s; cte_heap := cte_heap s; ntfn_heap := ntfn_heap s;
     user_mem := user_mem s; ksExternal := ksExternal s |}.

Definition set_current_fault (v : fault_t) (s : kernel_state) : kernel_state :=
  {| ksCurThread := ksCurThread s; ksConsumed := ksConsumed s;
     current_fault := v;
     current_lookup_fault := current_lookup_fault s;
     current_syscall_error_type := current_syscall_error_type s;
     current_extra_caps := current_extra_caps s;
     ksKernelEntry := ksKernelEntry s; ksLogIndex := ksLogIndex s;
     ksLogIndexFinalized := ksLogIndexFinalized s; ksLog := ksLog s;
     tcb_heap := tcb_heap s; cte_heap := cte_heap s; ntfn_heap := ntfn_heap s;
     user_mem := user_mem s; ksExternal := ksExternal s |}.

Definition set_current_lookup_fault (v : lookup_fault_t) (s : kernel_state)
  : kernel_state :=
  {| ksCurThread := ksCurThread s; ksConsumed := ksConsumed s;
     current_fault := current_fault s;
     current_lookup_fault := v;
     current_syscall_error_type := current_syscall_error_type s;
     current_extra_caps := current_extra_caps s;
     ksKernelEntry := ksKernelEntry s; ksLogIndex := ksLogIndex s;
     ksLogIndexFinalized := ksLogIndexFinalized s; ksLog := ksLog s;
     tcb_heap := tcb_heap s; cte_heap := cte_heap s; ntfn_heap := ntfn_heap s;
     user_mem := user_mem s; ksExternal := ksExternal s |}.

Definition set_current_syscall_error_type (v : syscall_error_type_t)
  (s : kernel_state) : kernel_state :=
  {| ksCurThread := ksCurThread s; ksConsumed := ksConsumed s;
     current_fault := current_fault s;
     current_lookup_fault := current_lookup_fault s;
     current_syscall_error_type := v;
     current_extra_caps := current_extra_caps s;
     ksKernelEntry := ksKernelEntry s; ksLogIndex := ksLogIndex s;
     ksLogIndexFinalized := ksLogIndexFinalized s; ksLog := ksLog s;
     tcb_heap := tcb_heap s; cte_heap := cte_heap s; ntfn_heap := ntfn_heap s;
     user_mem := user_mem s; ksExternal := ksExternal s |}.

Definition set_ksKernelEntry (v : kernel_entry_t) (s : kernel_state)
  : kernel_state :=
  {| ksCurThread := ksCurThread s; ksConsumed := ksConsumed s;
     current_fault := current_fault s;
     current_lookup_fault := current_lookup_fault s;
     current_syscall_error_type := current_syscall_error_type s;
     current_extra_caps := current_extra_caps s;
     ksKernelEntry := v; ksLogIndex := ksLogIndex s;
     ksLogIndexFinalized := ksLogIndexFinalized s; ksLog := ksLog s;
     tcb_heap := tcb_heap s; cte_heap := cte_heap s; ntfn_heap := ntfn_heap s;
     user_mem := user_mem s; ksExternal := ksExternal s |}.

Definition set_ksLogIndex (v : word_t) (s : kernel_state) : kernel_state :=
  {| ksCurThread := ksCurThread s; ksConsumed := ksConsumed s;
     current_fault := current_fault s;
     current_lookup_fault := current_lookup_fault s;
     current_syscall_error_type := current_syscall_error_type s;
     current_extra_caps := current_extra_caps s;
     ksKernelEntry := ksKernelEntry s; ksLogIndex := v;
     ksLogIndexFinalized := ksLogIndexFinalized s; ksLog := ksLog s;
     tcb_heap := tcb_heap s; cte_heap := cte_heap s; ntfn_heap := ntfn_heap s;
     user_mem := user_mem s; ksExternal := ksExternal s |}.

Definition set_ksLogIndexFinalized (v : word_t) (s : kernel_state)
  : kernel_state :=
  {| ksCurThread := ksCurThread s; ksConsumed := ksConsumed s;
     current_fault := current_fault s;
     current_lookup_fault := current_lookup_fault s;
     current_syscall_error_type := current_syscall_error_type s;
     current_extra_caps := current_extra_caps s;
     ksKernelEntry := ksKernelEntry s; ksLogIndex := ksLogIndex s;
     ksLogIndexFinalized := v; ksLog := ksLog s;
     tcb_heap := tcb_heap s; cte_heap := cte_heap s; ntfn_heap := ntfn_heap s;
     user_mem := user_mem s; ksExternal := ksExternal s |}.

Definition set_tcb_heap (v : tcb_ptr -> tcb_t) (s : kernel_state)
  : kernel_state :=
  {| ksCurThread := ksCurThread s; ksConsumed := ksConsumed s;
     current_fault := current_fault s;
     current_lookup_fault := current_lookup_fault s;
     current_syscall_error_type := current_syscall_error_type s;
     current_extra_caps := current_extra_caps s;
     ksKernelEntry := ksKernelEntry s; ksLogIndex := ksLogIndex s;
     ksLogIndexFinalized := ksLogIndexFinalized s; ksLog := ksLog s;
     tcb_heap := v; cte_heap := cte_heap s; ntfn_heap := ntfn_heap s;
     user_mem := user_mem s; ksExternal := ksExternal s |}.

Definition set_user_mem (v : Z -> Z) (s : kernel_state) : kernel_state :=
  {| ksCurThread := ksCurThread s; ksConsumed := ksConsumed s;
     current_fault := current_fault s;
     current_lookup_fault := current_lookup_fault s;
     current_syscall_error_type := current_syscall_error_type s;
     current_extra_caps := current_extra_caps s;
     ksKernelEntry := ksKernelEntry s; ksLogIndex := ksLogIndex s;
     ksLogIndexFinalized := ksLogIndexFinalized s; ksLog := ksLog s;
     tcb_heap := tcb_heap s; cte_heap := cte_heap s; ntfn_heap := ntfn_heap s;
     user_mem := v; ksExternal := ksExternal s |}.

(** ** Calls to functions defined outside syscall.c *)

(** One constructor per function that the handlers call and syscall.c does
    not define, with the arguments of the call. *)
Inductive call_t :=
| Call_getActiveIRQ
| Call_handleInterrupt (irq : irq_t)
| Call_handleSpuriousIRQ
| Call_printf (fmt : string) (args : list word_t)
| Call_userError (fmt : string) (args : list word_t)
| Call_updateTimestamp
| Call_checkBudget
| Call_handleFault (thread : tcb_ptr)
| Call_setThreadState (thread : tcb_ptr) (ts : _thread_state_t)
| Call_schedule
| Call_activateThread
| Call_handleVMFault (thread : tcb_ptr) (vm_faultType : vm_fault_type_t)
| Call_lookupCapAndSlot (thread : tcb_ptr) (cptr : cptr_t)
| Call_lookupCap (thread : tcb_ptr) (cptr : cptr_t)
| Call_lookupIPCBuffer (isReceiver : bool) (thread : tcb_ptr)
| Call_lookupExtraCaps (thread : tcb_ptr) (buffer : buffer_ptr)
                       (info : message_info_t)
| Call_decodeInvocation (label length : word_t) (cptr : cptr_t)
                        (slot : cte_ptr) (c : cap_t) (extraCaps : extra_caps_t)
                        (isBlocking isCall : bool) (buffer : buffer_ptr)
| Call_replyFromKernel_error (thread : tcb_ptr)
| Call_replyFromKernel_success_empty (thread : tcb_ptr)
| Call_doReplyTransfer (sender receiver : tcb_ptr) (slot : cte_ptr)
| Call_deleteCallerCap (thread : tcb_ptr)
| Call_receiveIPC (thread : tcb_ptr) (c : cap_t) (isBlocking : bool)
| Call_receiveSignal (thread : tcb_ptr) (c : cap_t) (isBlocking : bool)
| Call_ready (thread : tcb_ptr)
| Call_recharge (sc : sched_context_ptr)
| Call_tcbSchedAppend (thread : tcb_ptr)
| Call_postpone (sc : sched_context_ptr)
| Call_rescheduleRequired
| Call_kernel_putchar (c : word_t)
| Call_capDL
| Call_setThreadName (thread : tcb_ptr) (name : word_t)
| Call_injected_code (f arg : word_t).

(** What each of those functions does to the kernel state and what it
    returns.  They may change any global, heap or collaborator-owned state;
    the handlers assume nothing about them. *)
Record collaborators := {
  ext_getActiveIRQ : kernel_state -> irq_t * kernel_state;
  ext_handleInterrupt : irq_t -> kernel_state -> kernel_state;
  ext_handleSpuriousIRQ : kernel_state -> kernel_state;
  ext_updateTimestamp : kernel_state -> kernel_state;
  ext_checkBudget : kernel_state -> bool * kernel_state;
  ext_handleFault : tcb_ptr -> kernel_state -> kernel_state;
  ext_setThreadState : tcb_ptr -> _thread_state_t -> kernel_state -> kernel_state;
  ext_schedule : kernel_state -> kernel_state;
  ext_activateThread : kernel_state -> kernel_state;
  ext_handleVMFault :
    tcb_ptr -> vm_fault_type_t -> kernel_state -> exception_t * kernel_state;
  ext_lookupCapAndSlot :
    tcb_ptr -> cptr_t -> kernel_state -> lookupCapAndSlot_ret_t * kernel_state;
  ext_lookupCap : tcb_ptr -> cptr_t -> kernel_state -> lookupCap_ret_t * kernel_state;
  ext_lookupIPCBuffer : bool -> tcb_ptr -> kernel_state -> buffer_ptr * kernel_state;
  ext_lookupExtraCaps :
    tcb_ptr -> buffer_ptr -> message_info_t -> kernel_state ->
    exception_t * kernel_state;
  ext_decodeInvocation :
    word_t -> word_t -> cptr_t -> cte_ptr -> cap_t -> extra_caps_t ->
    bool -> bool -> buffer_ptr -> kernel_state -> exception_t * kernel_state;
  ext_replyFromKernel_error : tcb_ptr -> kernel_state -> kernel_state;
  ext_replyFromKernel_success_empty : tcb_ptr -> kernel_state -> kernel_state;
  ext_doReplyTransfer : tcb_ptr -> tcb_ptr -> cte_ptr -> kernel_state -> kernel_state;
  ext_deleteCallerCap : tcb_ptr -> kernel_state -> kernel_state;
  ext_receiveIPC : tcb_ptr -> cap_t -> bool -> kernel_state -> kernel_state;
  ext_receiveSignal : tcb_ptr -> cap_t -> bool -> kernel_state -> kernel_state;
  ext_ready : tcb_ptr -> kernel_state -> bool * kernel_state;
  ext_recharge : sched_context_ptr -> kernel_state -> kernel_state;
  ext_tcbSchedAppend : tcb_ptr -> kernel_state -> kernel_state;
  ext_postpone : sched_context_ptr -> kernel_state -> kernel_state;
  ext_rescheduleRequired : kernel_state -> kernel_state;
  ext_kernel_putchar : word_t -> kernel_state -> kernel_state;
  ext_capDL : kernel_state -> kernel_state;
  ext_setThreadName : tcb_ptr -> word_t -> kernel_state -> kernel_state;
  ext_injected_code : word_t -> word_t -> kernel_state -> kernel_state
}.

(** ** The kernel monad: state, call log, and fatal stop *)

Definition machine : Type := kernel_state * list call_t.

Inductive outcome (A : Type) :=
| Done (a : A) (m : machine)
| Halted (why : string) (m : machine).
Arguments Done {A} a m.
Arguments Halted {A} why m.

Definition kernel (A : Type) : Type := machine -> outcome A.

Definition ret {A} (a : A) : kernel A := fun m => Done a m.

Definition bind {A B} (c : kernel A) (k : A -> kernel B) : kernel B :=
  fun m => match c m with
           | Done a m' => k a m'
           | Halted why m' => Halted why m'
           end.

Definition gets {A} (f : kernel_state -> A) : kernel A :=
  fun m => Done (f (fst m)) m.

Definition modify (f : kernel_state -> kernel_state) : kernel unit :=
  fun m => Done tt (f (fst m), snd m).

(** A call that returns a value. *)
Definition call {A} (c : call_t) (f : kernel_state -> A * kernel_state)
  : kernel A :=
  fun m => let (a, s') := f (fst m) in Done a (s', snd m ++ [c]).

(** A call to a [void] function. *)
Definition call_ (c : call_t) (f : kernel_state -> kernel_state) : kernel unit :=
  fun m => Done tt (f (fst m), snd m ++ [c]).

(** Modelled from the spec: the macro [fail] is declared outside syscall.c;
    the kinds of capability and the opcodes that reach it are "a fatal
    invariant violation (kernel halts/aborts)".  It does not return. *)
Definition fail {A} (why : string) : kernel A := fun m => Halted why m.

(** Modelled from the spec: [halt] is declared outside syscall.c; the
    handlers call it where nothing may follow ("halt/abort rather than
    attempting recovery").  It does not return. *)
Definition halt {A} : kernel A := fun m => Halted "halt" m.

(** Modelled from the spec: the macro [assert] is declared outside
    syscall.c; a violated assertion is "a fatal invariant break, not a
    recoverable error".  A property that passes an assertion takes the
    asserted condition as a hypothesis, so it also holds for a build in
    which assertions are compiled out. *)
Definition assert (b : bool) (expr : string) : kernel unit :=
  fun m => if b then Done tt m else Halted ("assertion failed: " ++ expr)%string m.

(** Console output: logged as a call, no effect on the kernel state. *)
Definition printf (fmt : string) (args : list word_t) : kernel unit :=
  call_ (Call_printf fmt args) (fun s => s).

Definition userError (fmt : string) (args : list word_t) : kernel unit :=
  call_ (Call_userError fmt args) (fun s => s).

Local Notation "x <- c ;; k" := (bind c (fun x => k))
  (at level 61, c at next level, right associativity).
Local Notation "c ;; k" := (bind c (fun _ => k))
  (at level 61, right associativity).

Definition when (b : bool) (c : kernel unit) : kernel unit :=
  if b then c else ret tt.

(** ** Accessors that the handlers use on capabilities and TCBs *)

Definition cap_reply_cap_get_capReplyMaster (c : cap_t) : bool :=
  match c with cap_reply_cap m _ => m | _ => false end.

Definition cap_reply_cap_get_capTCBPtr (c : cap_t) : tcb_ptr :=
  match c with cap_reply_cap _ t => t | _ => 0 end.

Definition cap_thread_cap_get_capTCBPtr (c : cap_t) : tcb_ptr :=
  match c with cap_thread_cap t => t | _ => 0 end.

Definition cap_endpoint_cap_get_capCanReceive (c : cap_t) : bool :=
  match c with cap_endpoint_cap _ _ r _ => r | _ => false end.

Definition cap_notification_cap_get_capNtfnCanReceive (c : cap_t) : bool :=
  match c with cap_notification_cap _ _ r _ => r | _ => false end.

Definition cap_notification_cap_get_capNtfnPtr (c : cap_t) : ntfn_ptr :=
  match c with cap_notification_cap p _ _ _ => p | _ => 0 end.

Definition getRegister (thread : tcb_ptr) (reg : register_t) : kernel word_t :=
  gets (fun s => tcbRegisters (tcb_heap s thread) reg).

Definition setRegister (thread : tcb_ptr) (reg : register_t) (w : word_t)
  : kernel unit :=
  modify (fun s =>
    set_tcb_heap
      (fun p =>
         if Z.eqb p thread then
           {| tcbRegisters := fun r => if register_eqb r reg then w
                                       else tcbRegisters (tcb_heap s p) r;
              tcbState := tcbState (tcb_heap s p);
              tcbSchedContext := tcbSchedContext (tcb_heap s p) |}
         else tcb_heap s p)
      s).

Section Handlers.

Context (cfg : build_config) (K : kernel_constants) (X : collaborators).

(** The collaborators as monadic calls, under their C names. *)
Definition getActiveIRQ : kernel irq_t :=
  call Call_getActiveIRQ (ext_getActiveIRQ X).
Definition handleInterrupt (irq : irq_t) : kernel unit :=
  call_ (Call_handleInterrupt irq) (ext_handleInterrupt X irq).
Definition handleSpuriousIRQ : kernel unit :=
  call_ Call_handleSpuriousIRQ (ext_handleSpuriousIRQ X).
Definition updateTimestamp : kernel unit :=
  call_ Call_updateTimestamp (ext_updateTimestamp X).
Definition checkBudget : kernel bool :=
  call Call_checkBudget (ext_checkBudget X).
Definition handleFault (thread : tcb_ptr) : kernel unit :=
  call_ (Call_handleFault thread) (ext_handleFault X thread).
Definition setThreadState (thread : tcb_ptr) (ts : _thread_state_t) : kernel unit :=
  call_ (Call_setThreadState thread ts) (ext_setThreadState X thread ts).
Definition schedule : kernel unit :=
  call_ Call_schedule (ext_schedule X).
Definition activateThread : kernel unit :=
  call_ Call_activateThread (ext_activateThread X).
Definition handleVMFault (thread : tcb_ptr) (ty : vm_fault_type_t)
  : kernel exception_t :=
  call (Call_handleVMFault thread ty) (ext_handleVMFault X thread ty).
Definition lookupCapAndSlot (thread : tcb_ptr) (cptr : cptr_t)
  : kernel lookupCapAndSlot_ret_t :=
  call (Call_lookupCapAndSlot thread cptr) (ext_lookupCapAndSlot X thread cptr).
Definition lookupCap (thread : tcb_ptr) (cptr : cptr_t) : kernel lookupCap_ret_t :=
  call (Call_lookupCap thread cptr) (ext_lookupCap X thread cptr).
Definition lookupIPCBuffer (isReceiver : bool) (thread : tcb_ptr)
  : kernel buffer_ptr :=
  call (Call_lookupIPCBuffer isReceiver thread)
       (ext_lookupIPCBuffer X isReceiver thread).
Definition lookupExtraCaps (thread : tcb_ptr) (buffer : buffer_ptr)
  (info : message_info_t) : kernel exception_t :=
  call (Call_lookupExtraCaps thread buffer info)
       (ext_lookupExtraCaps X thread buffer info).
Definition decodeInvocation (label length : word_t) (cptr : cptr_t)
  (slot : cte_ptr) (c : cap_t) (extraCaps : extra_caps_t)
  (isBlocking isCall : bool) (buffer : buffer_ptr) : kernel exception_t :=
  call (Call_decodeInvocation label length cptr slot c extraCaps
                              isBlocking isCall buffer)
       (ext_decodeInvocation X label length cptr slot c extraCaps
                             isBlocking isCall buffer).
Definition replyFromKernel_error (thread : tcb_ptr) : kernel unit :=
  call_ (Call_replyFromKernel_error thread) (ext_replyFromKernel_error X thread).
Definition replyFromKernel_success_empty (thread : tcb_ptr) : kernel unit :=
  call_ (Call_replyFromKernel_success_empty thread)
        (ext_replyFromKernel_success_empty X thread).
Definition doReplyTransfer (sender receiver : tcb_ptr) (slot : cte_ptr)
  : kernel unit :=
  call_ (Call_doReplyTransfer sender receiver slot)
        (ext_doReplyTransfer X sender receiver slot).
Definition deleteCallerCap (thread : tcb_ptr) : kernel unit :=
  call_ (Call_deleteCallerCap thread) (ext_deleteCallerCap X thread).
Definition receiveIPC (thread : tcb_ptr) (c : cap_t) (isBlocking : bool)
  : kernel unit :=
  call_ (Call_receiveIPC thread c isBlocking) (ext_receiveIPC X thread c isBlocking).
Definition receiveSignal (thread : tcb_ptr) (c : cap_t) (isBlocking : bool)
  : kernel unit :=
  call_ (Call_receiveSignal thread c isBlocking)
        (ext_receiveSignal X thread c isBlocking).
Definition ready (thread : tcb_ptr) : kernel bool :=
  call (Call_ready thread) (ext_ready X thread).
Definition recharge (sc : sched_context_ptr) : kernel unit :=
  call_ (Call_recharge sc) (ext_recharge X sc).
Definition tcbSchedAppend (thread : tcb_ptr) : kernel unit :=
  call_ (Call_tcbSchedAppend thread) (ext_tcbSchedAppend X thread).
Definition postpone (sc : sched_context_ptr) : kernel unit :=
  call_ (Call_postpone sc) (ext_postpone X sc).
Definition rescheduleRequired : kernel unit :=
  call_ Call_rescheduleRequired (ext_rescheduleRequired X).
Definition kernel_putchar (c : word_t) : kernel unit :=
  call_ (Call_kernel_putchar c) (ext_kernel_putchar X c).
Definition capDL : kernel unit :=
  call_ Call_capDL (ext_capDL X).
Definition setThreadName (thread : tcb_ptr) (name : word_t) : kernel unit :=
  call_ (Call_setThreadName thread name) (ext_setThreadName X thread name).
Definition injected_code (f arg : word_t) : kernel unit :=
  call_ (Call_injected_code f arg) (ext_injected_code X f arg).

(** Writes to [ksKernelEntry] exist only when [DEBUG] is defined. *)
Definition debug_entry (f : kernel_entry_t -> kernel_entry_t) : kernel unit :=
  when (DEBUG cfg) (modify (fun s => set_ksKernelEntry (f (ksKernelEntry s)) s)).

Definition with_path (p : debug_path_t) (e : kernel_entry_t) : kernel_entry_t :=
  {| ke_path := p; ke_irq := ke_irq e; ke_word := ke_word e;
     ke_number := ke_number e; ke_code := ke_code e;
     ke_fault_type := ke_fault_type e; ke_cap_type := ke_cap_type e;
     ke_invocation_tag := ke_invocation_tag e;
     ke_syscall_no := ke_syscall_no e |}.
Definition with_irq (v : irq_t) (e : kernel_entry_t) : kernel_entry_t :=
  {| ke_path := ke_path e; ke_irq := v; ke_word := ke_word e;
     ke_number := ke_number e; ke_code := ke_code e;
     ke_fault_type := ke_fault_type e; ke_cap_type := ke_cap_type e;
     ke_invocation_tag := ke_invocation_tag e;
     ke_syscall_no := ke_syscall_no e |}.
Definition with_word (v : word_t) (e : kernel_entry_t) : kernel_entry_t :=
  {| ke_path := ke_path e; ke_irq := ke_irq e; ke_word := v;
     ke_number := ke_number e; ke_code := ke_code e;
     ke_fault_type := ke_fault_type e; ke_cap_type := ke_cap_type e;
     ke_invocation_tag := ke_invocation_tag e;
     ke_syscall_no := ke_syscall_no e |}.
Definition with_number_code (a b : word_t) (e : kernel_entry_t) : kernel_entry_t :=
  {| ke_path := ke_path e; ke_irq := ke_irq e; ke_word := ke_word e;
     ke_number := a; ke_code := b;
     ke_fault_type := ke_fault_type e; ke_cap_type := ke_cap_type e;
     ke_invocation_tag := ke_invocation_tag e;
     ke_syscall_no := ke_syscall_no e |}.
Definition with_fault_type (v : vm_fault_type_t) (e : kernel_entry_t)
  : kernel_entry_t :=
  {| ke_path := ke_path e; ke_irq := ke_irq e; ke_word := ke_word e;
     ke_number := ke_number e; ke_code := ke_code e;
     ke_fault_type := v; ke_cap_type := ke_cap_type e;
     ke_invocation_tag := ke_invocation_tag e;
     ke_syscall_no := ke_syscall_no e |}.
Definition with_cap_type_tag (t : cap_tag_t) (l : word_t) (e : kernel_entry_t)
  : kernel_entry_t :=
  {| ke_path := ke_path e; ke_irq := ke_irq e; ke_word := ke_word e;
     ke_number := ke_number e; ke_code := ke_code e;
     ke_fault_type := ke_fault_type e; ke_cap_type := t;
     ke_invocation_tag := l;
     ke_syscall_no := ke_syscall_no e |}.
Definition with_syscall_no (v : syscall_t) (e : kernel_entry_t) : kernel_entry_t :=
  {| ke_path := ke_path e; ke_irq := ke_irq e; ke_word := ke_word e;
     ke_number := ke_number e; ke_code := ke_code e;
     ke_fault_type := ke_fault_type e; ke_cap_type := ke_cap_type e;
     ke_invocation_tag := ke_invocation_tag e;
     ke_syscall_no := v |}.

(** ** The handlers *)

(** [handleInterruptEntry] (syscall.c, lines 33-54). *)
Definition handleInterruptEntry : kernel exception_t :=
  irq <- getActiveIRQ ;;
  debug_entry (fun e => with_irq irq (with_path Debug_Interrupt e)) ;;
  (if negb (Z.eqb irq (irqInvalid K)) then
     handleInterrupt irq
   else
     printf "Spurious interrupt\n" [] ;;
     handleSpuriousIRQ) ;;
  schedule ;;
  activateThread ;;
  ret EXCEPTION_NONE.

(** The part that [handleUnknownSyscall], [handleUserLevelFault],
    [handleVMFaultEvent] and [handleSyscall] share textually: the branch
    taken when [checkBudget] fails. *)
Definition try_again_when_budget : kernel unit :=
  cur <- gets ksCurThread ;;
  setThreadState cur ThreadState_Restart.

(** [handleUserLevelFault] (lines 190-212). *)
Definition handleUserLevelFault (w_a w_b : word_t) : kernel exception_t :=
  debug_entry (fun e => with_number_code w_a w_b (with_path Debug_UserLevelFault e)) ;;
  updateTimestamp ;;
  budget <- checkBudget ;;
  (if budget then
     modify (set_current_fault (fault_user_exception_new w_a w_b)) ;;
     cur <- gets ksCurThread ;;
     handleFault cur
   else
     try_again_when_budget) ;;
  schedule ;;
  activateThread ;;
  ret EXCEPTION_NONE.

(** [handleVMFaultEvent] (lines 214-238). *)
Definition handleVMFaultEvent (vm_faultType : vm_fault_type_t) : kernel exception_t :=
  debug_entry (fun e => with_fault_type vm_faultType (with_path Debug_VMFault e)) ;;
  updateTimestamp ;;
  budget <- checkBudget ;;
  (if budget then
     cur <- gets ksCurThread ;;
     status <- handleVMFault cur vm_faultType ;;
     when (negb (exception_eqb status EXCEPTION_NONE))
          (cur' <- gets ksCurThread ;; handleFault cur')
   else
     try_again_when_budget) ;;
  schedule ;;
  activateThread ;;
  ret EXCEPTION_NONE.

(** [handleInvocation] (lines 241-318). *)
Definition handleInvocation (isCall isBlocking : bool) : kernel exception_t :=
  thread <- gets ksCurThread ;;
  w <- getRegister thread msgInfoRegister ;;
  let info := messageInfoFromWord K w in
  cptr <- getRegister thread capRegister ;;
  (* faulting section *)
  lu_ret <- lookupCapAndSlot thread cptr ;;
  debug_entry (with_cap_type_tag (cap_get_capType (lcs_cap lu_ret))
                                 (message_info_get_msgLabel K info)) ;;
  if negb (exception_eqb (lcs_status lu_ret) EXCEPTION_NONE) then
    userError "Invocation of invalid cap #%lu." [cptr] ;;
    modify (set_current_fault (fault_cap_fault_new cptr false)) ;;
    when isBlocking (handleFault thread) ;;
    ret EXCEPTION_NONE
  else
    buffer <- lookupIPCBuffer false thread ;;
    status <- lookupExtraCaps thread buffer info ;;
    if negb (exception_eqb status EXCEPTION_NONE) then
      userError "Lookup of extra caps failed." [] ;;
      when isBlocking (handleFault thread) ;;
      ret EXCEPTION_NONE
    else
      (* Syscall error/Preemptible section *)
      let length := message_info_get_msgLength K info in
      let length := if (n_msgRegisters K <? length) && (buffer =? 0)
                    then n_msgRegisters K else length in
      extraCaps <- gets current_extra_caps ;;
      status <- decodeInvocation (message_info_get_msgLabel K info) length
                                 cptr (lcs_slot lu_ret) (lcs_cap lu_ret)
                                 extraCaps isBlocking isCall buffer ;;
      if exception_eqb status EXCEPTION_PREEMPTED then
        ret status
      else if exception_eqb status EXCEPTION_SYSCALL_ERROR then
        when isCall (replyFromKernel_error thread) ;;
        ret EXCEPTION_NONE
      else
        ts <- gets (fun s => thread_state_get_tsType (tcbState (tcb_heap s thread))) ;;
        when (is_ThreadState_Restart ts)
             (when isCall (replyFromKernel_success_empty thread) ;;
              setThreadState thread ThreadState_Running) ;;
        ret EXCEPTION_NONE.

(** [handleReply] (lines 320-352).  The switch either returns from the
    function ([true]) or breaks out ([false]); the statement after the switch
    is [fail]. *)
Definition handleReply : kernel unit :=
  cur <- gets ksCurThread ;;
  let callerSlot := TCB_PTR_CTE_PTR K cur (tcbCaller K) in
  callerCap <- gets (fun s => cap (cte_heap s callerSlot)) ;;
  returned <-
    match cap_get_capType callerCap with
    | tag_reply_cap =>
        if cap_reply_cap_get_capReplyMaster callerCap then
          ret false                                           (* break *)
        else
          let caller := cap_reply_cap_get_capTCBPtr callerCap in
          (* Haskell error:
             "handleReply: caller must not be the current thread" *)
          cur' <- gets ksCurThread ;;
          assert (negb (caller =? cur')) "caller != ksCurThread" ;;
          cur'' <- gets ksCurThread ;;
          doReplyTransfer cur'' caller callerSlot ;;
          ret true                                            (* return *)
    | tag_null_cap =>
        userError "Attempted reply operation when no reply cap present." [] ;;
        ret true                                              (* return *)
    | _ =>
        ret false                                             (* break *)
    end ;;
  if returned then ret tt
  else fail "handleReply: invalid caller cap".

(** [handleRecv] (lines 354-405). *)
Definition handleRecv (isBlocking : bool) : kernel unit :=
  cur <- gets ksCurThread ;;
  epCPtr <- getRegister cur capRegister ;;
  cur <- gets ksCurThread ;;
  lu_ret <- lookupCap cur epCPtr ;;
  if negb (exception_eqb (lc_status lu_ret) EXCEPTION_NONE) then
    (* current_lookup_fault has been set by lookupCap *)
    modify (set_current_fault (fault_cap_fault_new epCPtr true)) ;;
    cur <- gets ksCurThread ;;
    handleFault cur
  else
    match cap_get_capType (lc_cap lu_ret) with
    | tag_endpoint_cap =>
        if negb (cap_endpoint_cap_get_capCanReceive (lc_cap lu_ret)) then
          modify (set_current_lookup_fault (lookup_fault_missing_capability_new 0)) ;;
          modify (set_current_fault (fault_cap_fault_new epCPtr true)) ;;
          cur <- gets ksCurThread ;;
          handleFault cur
        else
          cur <- gets ksCurThread ;;
          deleteCallerCap cur ;;
          cur <- gets ksCurThread ;;
          receiveIPC cur (lc_cap lu_ret) isBlocking
    | tag_notification_cap =>
        let ntfnPtr := cap_notification_cap_get_capNtfnPtr (lc_cap lu_ret) in
        boundTCB <- gets (fun s =>
                      notification_ptr_get_ntfnBoundTCB (ntfn_heap s ntfnPtr)) ;;
        cur <- gets ksCurThread ;;
        if negb (cap_notification_cap_get_capNtfnCanReceive (lc_cap lu_ret))
           || (negb (boundTCB =? 0) && negb (boundTCB =? cur)) then
          modify (set_current_lookup_fault (lookup_fault_missing_capability_new 0)) ;;
          modify (set_current_fault (fault_cap_fault_new epCPtr true)) ;;
          cur <- gets ksCurThread ;;
          handleFault cur
        else
          cur <- gets ksCurThread ;;
          receiveSignal cur (lc_cap lu_ret) isBlocking
    | _ =>
        modify (set_current_lookup_fault (lookup_fault_missing_capability_new 0)) ;;
        modify (set_current_fault (fault_cap_fault_new epCPtr true)) ;;
        cur <- gets ksCurThread ;;
        handleFault cur
    end.

(** [handleYield] (lines 407-426). *)
Definition handleYield : kernel unit :=
  (* ksCurThread should never be in the scheduler queue *)
  queued <- gets (fun s =>
              thread_state_get_tcbQueued (tcbState (tcb_heap s (ksCurThread s)))) ;;
  assert (negb queued) "!thread_state_get_tcbQueued(ksCurThread->tcbState)" ;;
  (* thread has abandoned the rest of its current budget, either: *)
  cur <- gets ksCurThread ;;
  r <- ready cur ;;
  (if r then
     (* recharge and apply round robin *)
     sc <- gets (fun s => tcbSchedContext (tcb_heap s (ksCurThread s))) ;;
     recharge sc ;;
     cur <- gets ksCurThread ;;
     tcbSchedAppend cur
   else
     (* or postpone until budget is due to be recharged again *)
     sc <- gets (fun s => tcbSchedContext (tcb_heap s (ksCurThread s))) ;;
     postpone sc) ;;
  modify (set_ksConsumed 0) ;;
  rescheduleRequired.

(** The switch of [handleSyscall] (lines 442-478); its value is [ret]. *)
Definition handleSyscall_switch (syscall : syscall_t) : kernel exception_t :=
  match syscall with
  | SysSend => handleInvocation false true
  | SysNBSend => handleInvocation false false
  | SysCall => handleInvocation true true
  | SysRecv => handleRecv true ;; ret EXCEPTION_NONE
  | SysReply => handleReply ;; ret EXCEPTION_NONE
  | SysReplyRecv => handleReply ;; handleRecv true ;; ret EXCEPTION_NONE
  | SysNBRecv => handleRecv false ;; ret EXCEPTION_NONE
  | SysYield => handleYield ;; ret EXCEPTION_NONE
  | SysOther _ => fail "Invalid syscall"
  end.

(** [handleSyscall] (lines 428-496). *)
Definition handleSyscall (syscall : syscall_t) : kernel exception_t :=
  debug_entry (fun e => with_syscall_no syscall (with_path Debug_Syscall e)) ;;
  updateTimestamp ;;
  budget <- checkBudget ;;
  (if budget then
     ret_ <- handleSyscall_switch syscall ;;
     (* this will occur if any preemption points where triggered *)
     when (exception_eqb ret_ EXCEPTION_PREEMPTED)
          (irq <- getActiveIRQ ;;
           when (negb (Z.eqb irq (irqInvalid K))) (handleInterrupt irq))
   else
     try_again_when_budget) ;;
  schedule ;;
  activateThread ;;
  ret EXCEPTION_NONE.

(** *** Diagnostic system calls of [handleUnknownSyscall] *)

(** [strnlen] over the byte-addressed memory. *)
Fixpoint strnlen_from (mem : Z -> Z) (p : Z) (fuel : nat) : Z :=
  match fuel with
  | O => 0
  | S fuel' => if mem p =? 0 then 0 else 1 + strnlen_from mem (p + 1) fuel'
  end.

Definition strnlen (mem : Z -> Z) (p : Z) (maxlen : Z) : Z :=
  strnlen_from mem p (Z.to_nat maxlen).

(** Store of one word, little-endian, at a byte address. *)
Definition store_word (mem : Z -> Z) (addr : Z) (v : word_t) : Z -> Z :=
  fun a =>
    if (addr <=? a) && (a <? addr + sizeof_word_t)
    then Z.land (Z.shiftr v (8 * (a - addr))) 255
    else mem a.

(** [buffer[index] = v] for a [word_t *buffer]. *)
Definition store_buffer (buffer : buffer_ptr) (index : Z) (v : word_t)
  (s : kernel_state) : kernel_state :=
  set_user_mem (store_word (user_mem s) (wrap (buffer + sizeof_word_t * index)) v) s.

(** The loop of SysBenchmarkDumpLog: iterations [i], [i+1], ..., [i+n-1]. *)
Fixpoint dump_log (buffer : buffer_ptr) (start : word_t) (i : Z) (n : nat)
  (s : kernel_state) : kernel_state :=
  match n with
  | O => s
  | S n' =>
      let base_index := i * 2 + 1 in
      let log := ksLog s (wrap (i + start)) in
      let s := store_buffer buffer base_index (key log) s in
      let s := store_buffer buffer (base_index + 1) (data log) s in
      dump_log buffer start (i + 1) n' s
  end.

(** A diagnostic block either returns from [handleUnknownSyscall] with a
    status ([Some]) or falls through to the rest of the function ([None]). *)
Definition debug_syscalls (w : word_t) : kernel (option exception_t) :=
  if w =? SysDebugPutChar K then
    cur <- gets ksCurThread ;;
    c <- getRegister cur capRegister ;;
    kernel_putchar c ;;
    ret (Some EXCEPTION_NONE)
  else if w =? SysDebugHalt K then
    cur <- gets ksCurThread ;;
    printf "Debug halt syscall from user thread %p\n" [cur] ;;
    halt
  else if w =? SysDebugSnapshot K then
    cur <- gets ksCurThread ;;
    printf "Debug snapshot syscall from user thread %p\n" [cur] ;;
    capDL ;;
    ret (Some EXCEPTION_NONE)
  else if w =? SysDebugCapIdentify K then
    cur <- gets ksCurThread ;;
    cptr <- getRegister cur capRegister ;;
    cur <- gets ksCurThread ;;
    lu_ret <- lookupCapAndSlot cur cptr ;;
    let cap_type := cap_tag_word K (cap_get_capType (lcs_cap lu_ret)) in
    cur <- gets ksCurThread ;;
    setRegister cur capRegister cap_type ;;
    ret (Some EXCEPTION_NONE)
  else if w =? SysDebugNameThread K then
    (* This is a syscall meant to aid debugging, so if anything goes wrong
       then assume the system is completely misconfigured and halt *)
    cur <- gets ksCurThread ;;
    cptr <- getRegister cur capRegister ;;
    cur <- gets ksCurThread ;;
    lu_ret <- lookupCapAndSlot cur cptr ;;
    (* ensure we got a TCB cap *)
    match cap_get_capType (lcs_cap lu_ret) with
    | tag_thread_cap =>
        (* Add 1 to the IPC buffer to skip the message info word *)
        cur <- gets ksCurThread ;;
        buffer <- lookupIPCBuffer true cur ;;
        let name := wrap (buffer + sizeof_word_t) in
        if name =? 0 then
          userError "SysDebugNameThread: Failed to lookup IPC buffer, halting" [] ;;
          halt
        else
          mem <- gets user_mem ;;
          (* ensure the name isn't too long *)
          let len := strnlen mem name (wrap (seL4_MsgMaxLength K * sizeof_word_t)) in
          if negb (mem (name + len) =? 0) then
            userError "SysDebugNameThread: Name too long, halting" [] ;;
            halt
          else
            setThreadName (cap_thread_cap_get_capTCBPtr (lcs_cap lu_ret)) name ;;
            ret (Some EXCEPTION_NONE)
    | _ =>
        userError "SysDebugNameThread: cap is not a TCB, halting" [] ;;
        halt
    end
  else ret None.

Definition dangerous_syscalls (w : word_t) : kernel (option exception_t) :=
  if w =? SysDebugRun K then
    cur <- gets ksCurThread ;;
    f <- getRegister cur capRegister ;;
    arg <- getRegister cur msgInfoRegister ;;
    injected_code f arg ;;
    ret (Some EXCEPTION_NONE)
  else ret None.

Definition benchmark_syscalls (w : word_t) : kernel (option exception_t) :=
  if w =? SysBenchmarkResetLog K then
    modify (set_ksLogIndex 0) ;;
    ret (Some EXCEPTION_NONE)
  else if w =? SysBenchmarkDumpLog K then
    cur <- gets ksCurThread ;;
    buffer <- lookupIPCBuffer true cur ;;
    cur <- gets ksCurThread ;;
    start <- getRegister cur capRegister ;;
    size <- getRegister cur msgInfoRegister ;;
    finalized <- gets ksLogIndexFinalized ;;
    let logSize := if MAX_LOG_SIZE K <? finalized then MAX_LOG_SIZE K
                   else finalized in
    if buffer =? 0 then
      userError "Cannot dump benchmarking log to a thread without an ipc buffer\n" [] ;;
      modify (set_current_syscall_error_type seL4_IllegalOperation) ;;
      ret (Some EXCEPTION_SYSCALL_ERROR)
    else if logSize <? start then
      userError "Start > logsize\n" [] ;;
      modify (set_current_syscall_error_type seL4_InvalidArgument) ;;
      ret (Some EXCEPTION_SYSCALL_ERROR)
    else
      (* Assume we have access to an ipc buffer 1024 words big.
         Do no write to the first 4 bytes as these are overwritten *)
      let size := if MAX_IPC_BUFFER_STORAGE K <? size
                  then MAX_IPC_BUFFER_STORAGE K else size in
      (* trim to size *)
      let size := if logSize <? wrap (start + size)
                  then wrap (logSize - start) else size in
      (* write to ipc buffer *)
      modify (dump_log buffer start 0 (Z.to_nat size)) ;;
      (* Return the amount written *)
      cur <- gets ksCurThread ;;
      setRegister cur capRegister size ;;
      ret (Some EXCEPTION_NONE)
  else if w =? SysBenchmarkLogSize K then
    (* Return the amount of log items we tried to log (may exceed max size) *)
    cur <- gets ksCurThread ;;
    finalized <- gets ksLogIndexFinalized ;;
    setRegister cur capRegister finalized ;;
    ret (Some EXCEPTION_NONE)
  else if w =? SysBenchmarkFinalizeLog K then
    idx <- gets ksLogIndex ;;
    modify (set_ksLogIndexFinalized idx) ;;
    ret (Some EXCEPTION_NONE)
  else ret None.

(** A block that the preprocessor keeps only under a condition. *)
Definition ifdef (b : bool) (c : kernel (option exception_t))
  : kernel (option exception_t) :=
  if b then c else ret None.

(** Run a block; continue with [k] only if the block fell through. *)
Definition or_else (c : kernel (option exception_t)) (k : kernel exception_t)
  : kernel exception_t :=
  r <- c ;;
  match r with
  | Some status => ret status
  | None => k
  end.

(** [handleUnknownSyscall] (lines 56-188). *)
Definition handleUnknownSyscall (w : word_t) : kernel exception_t :=
  or_else (ifdef (DEBUG cfg)
             (debug_entry (fun e => with_word w (with_path Debug_UnknownSyscall e)) ;;
              debug_syscalls w)) (
  or_else (ifdef (DANGEROUS_CODE_INJECTION cfg) (dangerous_syscalls w)) (
  or_else (ifdef (0 <? CONFIG_MAX_NUM_TRACE_POINTS cfg) (benchmark_syscalls w)) (
    (* we don't account for unknown syscalls that are for debugging or
       benchmarking, so don't record the kernel entry time until now *)
    updateTimestamp ;;
    budget <- checkBudget ;;
    (if budget then
       modify (set_current_fault (fault_unknown_syscall_new w)) ;;
       cur <- gets ksCurThread ;;
       handleFault cur
     else
       try_again_when_budget) ;;
    schedule ;;
    activateThread ;;
    ret EXCEPTION_NONE))).

End Handlers.
End Model.

Arguments Done {E A} a m.
Arguments Halted {E A} why m.

(** ** Vocabulary of the properties *)

(** The capability in the caller slot of the current thread, as
    [handleReply] reads it. *)
Definition caller_cap {E} (K : kernel_constants) (s : @kernel_state E) : cap_t :=
  cap (cte_heap s (TCB_PTR_CTE_PTR K (ksCurThread s) (tcbCaller K))).

(** The state after the [#ifdef DEBUG] assignments at the top of a handler. *)
Definition debug_entry_state {E} (cfg : build_config)
  (f : kernel_entry_t -> kernel_entry_t) (s : @kernel_state E) : kernel_state :=
  if DEBUG cfg then set_ksKernelEntry (f (ksKernelEntry s)) s else s.

(** [w] is served by one of the diagnostic blocks that the build keeps in
    [handleUnknownSyscall]; such a call returns before the budget gate. *)
Definition is_diagnostic_syscall (cfg : build_config) (K : kernel_constants)
  (w : word_t) : bool :=
  (DEBUG cfg &&
     ((w =? SysDebugPutChar K) || (w =? SysDebugHalt K) ||
      (w =? SysDebugSnapshot K) || (w =? SysDebugCapIdentify K) ||
      (w =? SysDebugNameThread K)))
  || (DANGEROUS_CODE_INJECTION cfg && (w =? SysDebugRun K))
  || ((0 <? CONFIG_MAX_NUM_TRACE_POINTS cfg) &&
     ((w =? SysBenchmarkResetLog K) || (w =? SysBenchmarkDumpLog K) ||
      (w =? SysBenchmarkLogSize K) || (w =? SysBenchmarkFinalizeLog K))).

(** Classes of calls. *)
Definition is_reply_call (c : call_t) : bool :=
  match c with
  | Call_replyFromKernel_error _
  | Call_replyFromKernel_success_empty _
  | Call_doReplyTransfer _ _ _ => true
  | _ => false
  end.

Definition is_decode_call (c : call_t) : bool :=
  match c with
  | Call_decodeInvocation _ _ _ _ _ _ _ _ _ => true
  | _ => false
  end.

Definition is_fault_delivery (c : call_t) : bool :=
  match c with Call_handleFault _ => true | _ => false end.

Definition is_receive_call (c : call_t) : bool :=
  match c with
  | Call_receiveIPC _ _ _ | Call_receiveSignal _ _ _ => true
  | _ => false
  end.

Definition is_schedule_or_activate (c : call_t) : bool :=
  match c with Call_schedule | Call_activateThread => true | _ => false end.

(** Calls that mark work behind the budget gate: an invocation, a receive, a
    reply, a yield, the handling and delivery of a fault, and the draining
    of an interrupt after a preempted invocation. *)
Definition is_privileged_work (c : call_t) : bool :=
  match c with
  | Call_lookupCapAndSlot _ _ | Call_lookupCap _ _
  | Call_lookupIPCBuffer _ _ | Call_lookupExtraCaps _ _ _
  | Call_decodeInvocation _ _ _ _ _ _ _ _ _
  | Call_replyFromKernel_error _ | Call_replyFromKernel_success_empty _
  | Call_doReplyTransfer _ _ _ | Call_deleteCallerCap _
  | Call_receiveIPC _ _ _ | Call_receiveSignal _ _ _
  | Call_ready _ | Call_recharge _ | Call_tcbSchedAppend _ | Call_postpone _
  | Call_rescheduleRequired
  | Call_handleFault _ | Call_handleVMFault _ _
  | Call_getActiveIRQ | Call_handleInterrupt _ => true
  | _ => false
  end.

(** The machine that a budget-gated handler leaves when [checkBudget] fails
    and returns state [s2]: the thread is marked Restart, then the scheduler
    runs and the chosen thread is activated. *)
Definition deferred {E} (X : @collaborators E) (s2 : kernel_state)
  (t : list call_t) : machine :=
  (ext_activateThread X
     (ext_schedule X
        (ext_setThreadState X (ksCurThread s2) ThreadState_Restart s2)),
   t ++ [Call_updateTimestamp; Call_checkBudget;
         Call_setThreadState (ksCurThread s2) ThreadState_Restart;
         Call_schedule; Call_activateThread]).

(** The machine in which a run ends, stopped or not. *)
Definition final_machine {E A} (o : @outcome E A) : machine :=
  match o with Done _ m => m | Halted _ m => m end.

Definition is_done {E A} (o : @outcome E A) : bool :=
  match o with Done _ _ => true | Halted _ _ => false end.

(** [c], started with log [t], adds only calls that satisfy [P]. *)
Definition only_calls {E A} (P : call_t -> bool) (c : @kernel E A) : Prop :=
  forall m, exists new,
    snd (final_machine (c m)) = snd m ++ new /\ forallb P new = true.

(** The three handling paths, by the calls that belong to each.  None of
    them contains schedule or activateThread. *)
Definition is_interrupt_path (c : call_t) : bool :=
  match c with
  | Call_getActiveIRQ | Call_handleInterrupt _
  | Call_printf _ _ | Call_handleSpuriousIRQ => true
  | _ => false
  end.

Definition is_fault_path (c : call_t) : bool :=
  match c with
  | Call_updateTimestamp | Call_checkBudget
  | Call_handleVMFault _ _ | Call_handleFault _
  | Call_setThreadState _ ThreadState_Restart => true
  | _ => false
  end.

Definition is_syscall_path (c : call_t) : bool :=
  match c with
  | Call_schedule | Call_activateThread
  | Call_handleSpuriousIRQ | Call_printf _ _ | Call_handleVMFault _ _
  | Call_kernel_putchar _ | Call_capDL | Call_setThreadName _ _
  | Call_injected_code _ _ => false
  | _ => true
  end.

(** A non-stopped run returns EXCEPTION_NONE and its last two calls are
    schedule() and activateThread(); all calls before them belong to the
    path [P]; a stopped run has made only calls of [P]. *)
Definition ends_with_schedule_activate {E} (P : call_t -> bool)
  (t : list call_t) (o : @outcome E exception_t) : Prop :=
  match o with
  | Done status (_, t') =>
      status = EXCEPTION_NONE /\
      exists path, t' = t ++ path ++ [Call_schedule; Call_activateThread] /\
                   forallb P path = true
  | Halted _ (_, t') =>
      exists path, t' = t ++ path /\ forallb P path = true
  end.

Arguments ends_with_schedule_activate : simpl never.

(** The run of [handleInvocation] from state [s] reaches the decoder: both
    lookups succeed, and [decodeInvocation], called with the label, the
    clamped length, the resolved capability and slot, the extra capabilities
    and the buffer, returns [status] and leaves state [s4].  [log] is the
    list of the four calls made up to that point. *)
Definition decoder_returns {E} (cfg : build_config) (K : kernel_constants)
  (X : @collaborators E) (isCall isBlocking : bool) (s : kernel_state)
  (status : exception_t) (s4 : kernel_state) (log : list call_t) : Prop :=
  let thread := ksCurThread s in
  let info := messageInfoFromWord K (tcbRegisters (tcb_heap s thread) msgInfoRegister) in
  let cptr := tcbRegisters (tcb_heap s thread) capRegister in
  let label := message_info_get_msgLabel K info in
  exists lu_ret s1 buffer s2 s3,
    ext_lookupCapAndSlot X thread cptr s = (lu_ret, s1) /\
    lcs_status lu_ret = EXCEPTION_NONE /\
    ext_lookupIPCBuffer X false thread
      (debug_entry_state cfg
         (with_cap_type_tag (cap_get_capType (lcs_cap lu_ret)) label) s1)
    = (buffer, s2) /\
    ext_lookupExtraCaps X thread buffer info s2 = (EXCEPTION_NONE, s3) /\
    let length :=
      if (n_msgRegisters K <? message_info_get_msgLength K info) && (buffer =? 0)
      then n_msgRegisters K else message_info_get_msgLength K info in
    ext_decodeInvocation X label length cptr (lcs_slot lu_ret) (lcs_cap lu_ret)
      (current_extra_caps s3) isBlocking isCall buffer s3 = (status, s4) /\
    log = [Call_lookupCapAndSlot thread cptr;
           Call_lookupIPCBuffer false thread;
           Call_lookupExtraCaps thread buffer info;
           Call_decodeInvocation label length cptr (lcs_slot lu_ret)
             (lcs_cap lu_ret) (current_extra_caps s3) isBlocking isCall buffer].

(** ** A concrete kernel, for running the handlers *)

Module Concrete.

Definition cfg : build_config :=
  {| DEBUG := false; DANGEROUS_CODE_INJECTION := false;
     CONFIG_MAX_NUM_TRACE_POINTS := 0 |}.

Definition debug_cfg : build_config :=
  {| DEBUG := true; DANGEROUS_CODE_INJECTION := false;
     CONFIG_MAX_NUM_TRACE_POINTS := 0 |}.

Definition K : kernel_constants :=
  {| irqInvalid := 255;
     SysDebugPutChar := wrap (-9);
     SysDebugHalt := wrap (-10);
     SysDebugSnapshot := wrap (-11);
     SysDebugCapIdentify := wrap (-12);
     SysDebugNameThread := wrap (-13);
     SysDebugRun := wrap (-14);
     SysBenchmarkResetLog := wrap (-15);
     SysBenchmarkDumpLog := wrap (-16);
     SysBenchmarkLogSize := wrap (-17);
     SysBenchmarkFinalizeLog := wrap (-18);
     MAX_LOG_SIZE := 4096;
     MAX_IPC_BUFFER_STORAGE := 1024;
     seL4_MsgMaxLength := 120;
     n_msgRegisters := 4;
     tcbCaller := 3;
     TCB_PTR_CTE_PTR := fun p i => Z.land p (Z.lnot 1023) + 32 * i;
     cap_tag_word := fun t =>
       match t with
       | tag_null_cap => 0 | tag_endpoint_cap => 4 | tag_notification_cap => 6
       | tag_reply_cap => 8 | tag_thread_cap => 12 | tag_other_cap n => n
       end;
     messageInfoFromWord := fun w => w;
     message_info_get_msgLength := fun w => Z.land w 127;
     message_info_get_msgLabel := fun w => Z.shiftr w 12 |}.

(** What the collaborators answer in a run. *)
Record answers := {
  budget : bool;
  active_irq : irq_t;
  cap_and_slot : lookupCapAndSlot_ret_t;
  looked_up : lookupCap_ret_t;
  ipc_buffer : buffer_ptr;
  extra_caps_status : exception_t;
  decode_status : exception_t;
  vm_fault_status : exception_t;
  is_ready : bool
}.

Definition state := @kernel_state unit.

(** [setThreadState] writes the type tag of the thread's state; the other
    collaborators leave the state alone and return the scripted answer. *)
Definition write_tsType (thread : tcb_ptr) (ts : _thread_state_t) (s : state)
  : state :=
  set_tcb_heap
    (fun p =>
       if p =? thread then
         {| tcbRegisters := tcbRegisters (tcb_heap s p);
            tcbState := {| tsType := ts;
                           tcbQueued := tcbQueued (tcbState (tcb_heap s p)) |};
            tcbSchedContext := tcbSchedContext (tcb_heap s p) |}
       else tcb_heap s p)
    s.

Definition X (a : answers) : @collaborators unit :=
  {| ext_getActiveIRQ := fun s => (active_irq a, s);
     ext_handleInterrupt := fun _ s => s;
     ext_handleSpuriousIRQ := fun s => s;
     ext_updateTimestamp := fun s => s;
     ext_checkBudget := fun s => (budget a, s);
     ext_handleFault := fun _ s => s;
     ext_setThreadState := write_tsType;
     ext_schedule := fun s => s;
     ext_activateThread := fun s => s;
     ext_handleVMFault := fun _ _ s => (vm_fault_status a, s);
     ext_lookupCapAndSlot := fun _ _ s => (cap_and_slot a, s);
     ext_lookupCap := fun _ _ s => (looked_up a, s);
     ext_lookupIPCBuffer := fun _ _ s => (ipc_buffer a, s);
     ext_lookupExtraCaps := fun _ _ _ s => (extra_caps_status a, s);
     ext_decodeInvocation := fun _ _ _ _ _ _ _ _ _ s => (decode_status a, s);
     ext_replyFromKernel_error := fun _ s => s;
     ext_replyFromKernel_success_empty := fun _ s => s;
     ext_doReplyTransfer := fun _ _ _ s => s;
     ext_deleteCallerCap := fun _ s => s;
     ext_receiveIPC := fun _ _ _ s => s;
     ext_receiveSignal := fun _ _ _ s => s;
     ext_ready := fun _ s => (is_ready a, s);
     ext_recharge := fun _ s => s;
     ext_tcbSchedAppend := fun _ s => s;
     ext_postpone := fun _ s => s;
     ext_rescheduleRequired := fun s => s;
     ext_kernel_putchar := fun _ s => s;
     ext_capDL := fun s => s;
     ext_setThreadName := fun _ _ s => s;
     ext_injected_code := fun _ _ s => s |}.

(** Thread 4096 is current; its capability register holds 17 and its
    message-info register 2; its caller slot holds [callerCap]; every
    notification is bound to [bound]. *)
Definition st (callerCap : cap_t) (ts : _thread_state_t) (queued : bool)
  (bound : word_t) : state :=
  {| ksCurThread := 4096;
     ksConsumed := 500;
     current_fault := fault_null_fault;
     current_lookup_fault := lookup_fault_null;
     current_syscall_error_type := seL4_NoError;
     current_extra_caps := [];
     ksKernelEntry :=
       {| ke_path := Debug_None; ke_irq := 0; ke_word := 0; ke_number := 0;
          ke_code := 0; ke_fault_type := 0; ke_cap_type := tag_null_cap;
          ke_invocation_tag := 0; ke_syscall_no := SysOther 0 |};
     ksLogIndex := 0;
     ksLogIndexFinalized := 0;
     ksLog := fun _ => {| key := 0; data := 0 |};
     tcb_heap := fun _ =>
       {| tcbRegisters := fun r =>
            match r with
            | capRegister => 17 | msgInfoRegister => 2 | otherRegister _ => 0
            end;
          tcbState := {| tsType := ts; tcbQueued := queued |};
          tcbSchedContext := 8192 |};
     cte_heap := fun p =>
       {| cap := if p =? 4096 + 32 * 3 then callerCap else cap_null_cap;
          cteMDBNode := 0 |};
     ntfn_heap := fun _ => {| ntfnBoundTCB := bound |};
     user_mem := fun _ => 0;
     ksExternal := tt |}.

Definition endpoint_ok : cap_t := cap_endpoint_cap 12288 true true 0.
Definition endpoint_send_only : cap_t := cap_endpoint_cap 12288 true false 0.
Definition notification_ok : cap_t := cap_notification_cap 16384 true true 0.
Definition notification_no_recv : cap_t := cap_notification_cap 16384 true false 0.

Definition default_answers : answers :=
  {| budget := true;
     active_irq := 255;
     cap_and_slot := {| lcs_status := EXCEPTION_NONE; lcs_cap := endpoint_ok;
                        lcs_slot := 20480 |};
     looked_up := {| lc_status := EXCEPTION_NONE; lc_cap := endpoint_ok |};
     ipc_buffer := 24576;
     extra_caps_status := EXCEPTION_NONE;
     decode_status := EXCEPTION_NONE;
     vm_fault_status := EXCEPTION_NONE;
     is_ready := true |}.

Definition with_budget (b : bool) (a : answers) : answers :=
  {| budget := b; active_irq := active_irq a; cap_and_slot := cap_and_slot a;
     looked_up := looked_up a; ipc_buffer := ipc_buffer a;
     extra_caps_status := extra_caps_status a;
     decode_status := decode_status a; vm_fault_status := vm_fault_status a;
     is_ready := is_ready a |}.

Definition with_active_irq (i : irq_t) (a : answers) : answers :=
  {| budget := budget a; active_irq := i; cap_and_slot := cap_and_slot a;
     looked_up := looked_up a; ipc_buffer := ipc_buffer a;
     extra_caps_status := extra_caps_status a;
     decode_status := decode_status a; vm_fault_status := vm_fault_status a;
     is_ready := is_ready a |}.

Definition with_cap_and_slot (r : lookupCapAndSlot_ret_t) (a : answers) : answers :=
  {| budget := budget a; active_irq := active_irq a; cap_and_slot := r;
     looked_up := looked_up a; ipc_buffer := ipc_buffer a;
     extra_caps_status := extra_caps_status a;
     decode_status := decode_status a; vm_fault_status := vm_fault_status a;
     is_ready := is_ready a |}.

Definition with_looked_up (r : lookupCap_ret_t) (a : answers) : answers :=
  {| budget := budget a; active_irq := active_irq a;
     cap_and_slot := cap_and_slot a;
     looked_up := r; ipc_buffer := ipc_buffer a;
     extra_caps_status := extra_caps_status a;
     decode_status := decode_status a; vm_fault_status := vm_fault_status a;
     is_ready := is_ready a |}.

Definition with_decode_status (e : exception_t) (a : answers) : answers :=
  {| budget := budget a; active_irq := active_irq a;
     cap_and_slot := cap_and_slot a;
     looked_up := looked_up a; ipc_buffer := ipc_buffer a;
     extra_caps_status := extra_caps_status a;
     decode_status := e; vm_fault_status := vm_fault_status a;
     is_ready := is_ready a |}.

Definition with_is_ready (b : bool) (a : answers) : answers :=
  {| budget := budget a; active_irq := active_irq a;
     cap_and_slot := cap_and_slot a;
     looked_up := looked_up a; ipc_buffer := ipc_buffer a;
     extra_caps_status := extra_caps_status a;
     decode_status := decode_status a; vm_fault_status := vm_fault_status a;
     is_ready := b |}.

(** A running, unqueued thread with an empty caller slot. *)
Definition idle_state : state := st cap_null_cap ThreadState_Running false 0.

End Concrete.

(** ** Vocabulary of the further properties *)

(** The caller slot lets [handleReply] return: it is empty, or it holds an
    ordinary (non-master) reply capability of a thread other than the
    current one. *)
Definition reply_permitted {E} (K : kernel_constants) (s : @kernel_state E)
  : bool :=
  match caller_cap K s with
  | cap_null_cap => true
  | cap_reply_cap false caller => negb (caller =? ksCurThread s)
  | _ => false
  end.

(** The three ways in which [handleRecv] ends: a fault is delivered, or a
    receive on an endpoint or on a notification begins. *)
Definition is_recv_outcome (c : call_t) : bool :=
  match c with
  | Call_handleFault _ | Call_receiveIPC _ _ _ | Call_receiveSignal _ _ _ => true
  | _ => false
  end.

Definition is_deleteCallerCap (c : call_t) : bool :=
  match c with Call_deleteCallerCap _ => true | _ => false end.

Definition is_receiveIPC (c : call_t) : bool :=
  match c with Call_receiveIPC _ _ _ => true | _ => false end.

Definition is_receiveSignal (c : call_t) : bool :=
  match c with Call_receiveSignal _ _ _ => true | _ => false end.

Definition is_interrupt_drain (c : call_t) : bool :=
  match c with Call_getActiveIRQ | Call_handleInterrupt _ => true | _ => false end.

Definition is_budget_gate (c : call_t) : bool :=
  match c with Call_updateTimestamp | Call_checkBudget => true | _ => false end.

Definition is_setThreadState (c : call_t) : bool :=
  match c with Call_setThreadState _ _ => true | _ => false end.

(** Number of calls of a class in a log. *)
Definition count_calls (P : call_t -> bool) (l : list call_t) : nat :=
  List.length (filter P l).

(** The calls that a run started in [m] has added. *)
Definition new_calls {E A} (m : @machine E) (o : @outcome E A) : list call_t :=
  skipn (List.length (snd m)) (snd (final_machine o)).

(** The length that a call of the decoder passes is the message length of
    the header, except that without an IPC buffer it is cut down to the
    number of message registers. *)
Definition decoder_length_ok (K : kernel_constants) (msgLength : word_t)
  (c : call_t) : bool :=
  match c with
  | Call_decodeInvocation _ len _ _ _ _ _ _ buffer =>
      (len <=? msgLength)
      && (if buffer =? 0 then len <=? n_msgRegisters K else len =? msgLength)
  | _ => true
  end.

(** A call of setThreadState(thread, ThreadState_Running). *)
Definition sets_running (thread : tcb_ptr) (c : call_t) : bool :=
  match c with
  | Call_setThreadState th ThreadState_Running => th =? thread
  | Call_setThreadState _ _ => false
  | _ => true
  end.

(** The calls that the switch of [handleSyscall] can make, through
    [handleInvocation], [handleReply], [handleRecv] and [handleYield]. *)
Definition is_switch_call (c : call_t) : bool :=
  match c with
  | Call_lookupCapAndSlot _ _ | Call_lookupCap _ _
  | Call_lookupIPCBuffer _ _ | Call_lookupExtraCaps _ _ _
  | Call_userError _ _ | Call_handleFault _
  | Call_decodeInvocation _ _ _ _ _ _ _ _ _
  | Call_replyFromKernel_error _ | Call_replyFromKernel_success_empty _
  | Call_setThreadState _ ThreadState_Running
  | Call_doReplyTransfer _ _ _ | Call_deleteCallerCap _
  | Call_receiveIPC _ _ _ | Call_receiveSignal _ _ _
  | Call_ready _ | Call_recharge _ | Call_tcbSchedAppend _ | Call_postpone _
  | Call_rescheduleRequired => true
  | _ => false
  end.


Definition is_invocation_syscall (syscall : syscall_t) : bool :=
  match syscall with SysSend | SysNBSend | SysCall => true | _ => false end.

Definition is_getActiveIRQ (c : call_t) : bool :=
  match c with Call_getActiveIRQ => true | _ => false end.

(** The calls of the diagnostic blocks of [handleUnknownSyscall]. *)
Definition is_diagnostic_call (c : call_t) : bool :=
  match c with
  | Call_kernel_putchar _ | Call_printf _ _ | Call_capDL
  | Call_lookupCapAndSlot _ _ | Call_lookupIPCBuffer _ _
  | Call_userError _ _ | Call_setThreadName _ _
  | Call_injected_code _ _ => true
  | _ => false
  end.

(** A diagnostic block that always returns or stops: control never falls
    through to what follows it. *)
Definition never_falls_through {E} (c : @kernel E (option exception_t)) : Prop :=
  forall m m', c m <> Done None m'.

(** ** A concrete benchmark build *)

Module Bench.

(** Trace points on, debug and code injection off. *)
Definition cfg : build_config :=
  {| DEBUG := false; DANGEROUS_CODE_INJECTION := false;
     CONFIG_MAX_NUM_TRACE_POINTS := 1 |}.



End Bench.

(** * FPU helpers (include/arch/arm/arch/64/mode/machine/fpu.h)

    The four helpers are inline assembly over the SIMD register file, two
    status registers, one system register and memory.  The model has one
    definition per instruction used, and each helper is the sequence of its
    instructions in the order of the source. *)

Module Fpu.

Record state := {
  q : Z -> Z;            (* q0 .. q31, 128 bits each *)
  fpsr : Z;
  fpcr : Z;
  cpacr_el1 : Z;
  temp : Z;              (* the scratch register %0 *)
  mem : Z -> Z           (* byte-addressed memory *)
}.

(** Little-endian store and load of [n] bytes. *)
Definition store_le (n : Z) (addr v : Z) (m : Z -> Z) : Z -> Z :=
  fun a =>
    if (addr <=? a) && (a <? addr + n)
    then Z.land (Z.shiftr v (8 * (a - addr))) 255
    else m a.

Fixpoint load_le (n : nat) (addr : Z) (m : Z -> Z) : Z :=
  match n with
  | O => 0
  | S n' => m addr + 256 * load_le n' (addr + 1) m
  end.

Definition set_mem (m : Z -> Z) (s : state) : state :=
  {| q := q s; fpsr := fpsr s; fpcr := fpcr s; cpacr_el1 := cpacr_el1 s;
     temp := temp s; mem := m |}.
Definition set_q (i : Z) (v : Z) (s : state) : state :=
  {| q := fun j => if j =? i then v else q s j;
     fpsr := fpsr s; fpcr := fpcr s; cpacr_el1 := cpacr_el1 s;
     temp := temp s; mem := mem s |}.
Definition set_temp (v : Z) (s : state) : state :=
  {| q := q s; fpsr := fpsr s; fpcr := fpcr s; cpacr_el1 := cpacr_el1 s;
     temp := v; mem := mem s |}.
Definition set_fpsr (v : Z) (s : state) : state :=
  {| q := q s; fpsr := v; fpcr := fpcr s; cpacr_el1 := cpacr_el1 s;
     temp := temp s; mem := mem s |}.
Definition set_fpcr (v : Z) (s : state) : state :=
  {| q := q s; fpsr := fpsr s; fpcr := v; cpacr_el1 := cpacr_el1 s;
     temp := temp s; mem := mem s |}.
Definition set_cpacr_el1 (v : Z) (s : state) : state :=
  {| q := q s; fpsr := fpsr s; fpcr := fpcr s; cpacr_el1 := v;
     temp := temp s; mem := mem s |}.

(** [stp qA, qB, [base, #off]]: two 16-byte stores at consecutive addresses. *)
Definition stp (a b : Z) (base off : Z) (s : state) : state :=
  set_mem (store_le 16 (wrap (base + off + 16)) (q s b)
             (store_le 16 (wrap (base + off)) (q s a) (mem s))) s.

(** [ldp qA, qB, [base, #off]]: two 16-byte loads. *)
Definition ldp (a b : Z) (base off : Z) (s : state) : state :=
  set_q b (load_le 16 (wrap (base + off + 16)) (mem s))
    (set_q a (load_le 16 (wrap (base + off)) (mem s)) s).

(** [str %w0, [base, #off]]: store of the low 32 bits of the scratch
    register. *)
Definition str_w (base off : Z) (s : state) : state :=
  set_mem (store_le 4 (wrap (base + off)) (temp s) (mem s)) s.

(** [ldr %w0, [base, #off]]: 32-bit load, zero-extended. *)
Definition ldr_w (base off : Z) (s : state) : state :=
  set_temp (load_le 4 (wrap (base + off)) (mem s)) s.

(** [saveFpuState] (fpu.h, lines 20-52). *)
Definition saveFpuState (dest : Z) (s : state) : state :=
  let s := stp 0 1 dest (16 * 0) s in
  let s := stp 2 3 dest (16 * 2) s in
  let s := stp 4 5 dest (16 * 4) s in
  let s := stp 6 7 dest (16 * 6) s in
  let s := stp 8 9 dest (16 * 8) s in
  let s := stp 10 11 dest (16 * 10) s in
  let s := stp 12 13 dest (16 * 12) s in
  let s := stp 14 15 dest (16 * 14) s in
  let s := stp 16 17 dest (16 * 16) s in
  let s := stp 18 19 dest (16 * 18) s in
  let s := stp 20 21 dest (16 * 20) s in
  let s := stp 22 23 dest (16 * 22) s in
  let s := stp 24 25 dest (16 * 24) s in
  let s := stp 26 27 dest (16 * 26) s in
  let s := stp 28 29 dest (16 * 28) s in
  let s := stp 30 31 dest (16 * 30) s in
  (* FP control and status registers *)
  let s := set_temp (fpsr s) s in                    (* mrs %0, fpsr *)
  let s := str_w dest (16 * 32) s in
  let s := set_temp (fpcr s) s in                    (* mrs %0, fpcr *)
  str_w dest (16 * 32 + 4) s.

(** [loadFpuState] (fpu.h, lines 55-87). *)
Definition loadFpuState (src : Z) (s : state) : state :=
  let s := ldp 0 1 src (16 * 0) s in
  let s := ldp 2 3 src (16 * 2) s in
  let s := ldp 4 5 src (16 * 4) s in
  let s := ldp 6 7 src (16 * 6) s in
  let s := ldp 8 9 src (16 * 8) s in
  let s := ldp 10 11 src (16 * 10) s in
  let s := ldp 12 13 src (16 * 12) s in
  let s := ldp 14 15 src (16 * 14) s in
  let s := ldp 16 17 src (16 * 16) s in
  let s := ldp 18 19 src (16 * 18) s in
  let s := ldp 20 21 src (16 * 20) s in
  let s := ldp 22 23 src (16 * 22) s in
  let s := ldp 24 25 src (16 * 24) s in
  let s := ldp 26 27 src (16 * 26) s in
  let s := ldp 28 29 src (16 * 28) s in
  let s := ldp 30 31 src (16 * 30) s in
  (* FP control and status registers *)
  let s := ldr_w src (16 * 32) s in
  let s := set_fpsr (temp s) s in                    (* msr fpsr, %0 *)
  let s := ldr_w src (16 * 32 + 4) s in
  set_fpcr (temp s) s.                               (* msr fpcr, %0 *)

(** The bit position of the FPEN field comes from a header outside the
    sources. *)
Section Cpacr.

Variable CPACR_EL1_FPEN : Z.

(** [enableFpu] (fpu.h, lines 91-98). *)
Definition enableFpu (s : state) : state :=
  let cpacr := cpacr_el1 s in                                  (* MRS *)
  let cpacr := Z.lor cpacr (Z.shiftl 3 CPACR_EL1_FPEN) in
  set_cpacr_el1 cpacr s.                                       (* MSR *)

(** [disableFpu] (fpu.h, lines 103-111).  The complement is taken on an
    [int] and converted to the 64-bit word: all higher bits are set. *)
Definition disableFpu (s : state) : state :=
  let cpacr := cpacr_el1 s in                                  (* MRS *)
  let cpacr := Z.land cpacr (wrap (Z.lnot (Z.shiftl 3 CPACR_EL1_FPEN))) in
  let cpacr := Z.lor cpacr (Z.shiftl 1 CPACR_EL1_FPEN) in
  set_cpacr_el1 cpacr s.                                       (* MSR *)

End Cpacr.

(** A state with distinct contents in every register, for running the
    helpers. *)
Definition sample : state :=
  {| q := fun i => 1000 + i; fpsr := 7; fpcr := 9; cpacr_el1 := 5;
     temp := 0; mem := fun _ => 0 |}.

(** The same memory with every register cleared. *)
Definition clobber (s : state) : state :=
  {| q := fun _ => 0; fpsr := 0; fpcr := 0; cpacr_el1 := cpacr_el1 s;
     temp := 0; mem := mem s |}.

End Fpu.

(** The layout of [user_fpu_state_t] that the save sequence writes: register
    q[i] in the sixteen bytes at offset 16 * i, FPSR in the four bytes at
    offset 512 and FPCR in the four bytes at offset 516, all little-endian. *)
Module FpuImage.

Definition byte_of (v k : Z) : Z := Z.land (Z.shiftr v (8 * k)) 255.

Definition image (dest : Z) (s : Fpu.state) (a : Z) : Z :=
  if (dest <=? a) && (a <? dest + 512)
  then byte_of (Fpu.q s ((a - dest) / 16)) ((a - dest) mod 16)
  else if (dest + 512 <=? a) && (a <? dest + 516)
  then byte_of (Fpu.fpsr s) (a - (dest + 512))
  else if (dest + 516 <=? a) && (a <? dest + 520)
  then byte_of (Fpu.fpcr s) (a - (dest + 516))
  else Fpu.mem s a.

(** The first registers of the sixteen stp and ldp instructions. *)
Definition pairs : list Z := [0; 2; 4; 6; 8; 10; 12; 14; 16; 18; 20; 22; 24; 26; 28; 30].

End FpuImage.

(** * Properties *)

(** Unfolding of the monad and of the calls, for symbolic runs. *)
Ltac unfold_calls :=
  unfold getActiveIRQ, handleInterrupt, handleSpuriousIRQ, updateTimestamp,
    checkBudget, handleFault, setThreadState, schedule, activateThread,
    handleVMFault, lookupCapAndSlot, lookupCap, lookupIPCBuffer,
    lookupExtraCaps, decodeInvocation, replyFromKernel_error,
    replyFromKernel_success_empty, doReplyTransfer, deleteCallerCap,
    receiveIPC, receiveSignal, ready, recharge, tcbSchedAppend, postpone,
    rescheduleRequired, kernel_putchar, capDL, setThreadName, injected_code,
    printf, userError, getRegister, setRegister, try_again_when_budget.

Ltac unfold_monad :=
  unfold bind, ret, gets, modify, call, call_, when, fail, halt, assert.

Ltac run := unfold_calls; unfold_monad; cbn.

Ltac tidy_log := repeat rewrite <- app_assoc; cbn [app].

(** ** Running the building blocks *)

Section Runs.

Context {E : Type} (cfg : build_config) (K : kernel_constants)
        (X : @collaborators E).

Lemma run_debug_entry (f : kernel_entry_t -> kernel_entry_t)
  (s : @kernel_state E) t :
  debug_entry cfg f (s, t) = Done tt (debug_entry_state cfg f s, t).
Proof.
  unfold debug_entry, debug_entry_state, when.
  destruct (DEBUG cfg); reflexivity.
Qed.

Lemma run_bind {A B} (c : kernel A) (k : A -> kernel B) (m : @machine E) :
  bind c k m = match c m with
               | Done a m' => k a m'
               | Halted why m' => Halted why m'
               end.
Proof. reflexivity. Qed.

Lemma exception_eqb_refl e : exception_eqb e e = true.
Proof. destruct e; cbn; auto using Z.eqb_refl. Qed.

Lemma exception_eqb_eq a b : exception_eqb a b = true <-> a = b.
Proof.
  split.
  - destruct a, b; cbn; intros H; try discriminate; try reflexivity.
    apply Z.eqb_eq in H. now subst.
  - intros ->. apply exception_eqb_refl.
Qed.

Lemma exception_eqb_neq a b : a <> b -> exception_eqb a b = false.
Proof.
  intros H. destruct (exception_eqb a b) eqn:Heq; [|reflexivity].
  apply exception_eqb_eq in Heq. contradiction.
Qed.

End Runs.

Section BudgetGate.

Context {E : Type} (cfg : build_config) (K : kernel_constants)
        (X : @collaborators E).

(** When the budget gate fails, [handleSyscall] does not look at its
    argument. *)
Lemma handleSyscall_deferred syscall (s : @kernel_state E) t s2 :
  ext_checkBudget X
    (ext_updateTimestamp X
       (debug_entry_state cfg
          (fun e => with_syscall_no syscall (with_path Debug_Syscall e)) s))
  = (false, s2) ->
  handleSyscall cfg K X syscall (s, t) = Done EXCEPTION_NONE (deferred X s2 t).
Proof.
  intros Hb.
  unfold handleSyscall. rewrite run_bind, run_debug_entry.
  run. rewrite Hb; cbn.
  unfold deferred. tidy_log. reflexivity.
Qed.

Lemma deferred_calls (s2 : @kernel_state E) t :
  exists new, snd (deferred X s2 t) = t ++ new /\
              forallb (fun c => negb (is_privileged_work c)) new = true.
Proof. unfold deferred; cbn. eexists; split; reflexivity. Qed.

(** A system-call number that no kept diagnostic block serves falls through
    all three blocks; only the debug record of the entry changes. *)
Lemma debug_block_falls_through w (s : @kernel_state E) t :
  is_diagnostic_syscall cfg K w = false ->
  ifdef (DEBUG cfg)
    (bind (debug_entry cfg
             (fun e => with_word w (with_path Debug_UnknownSyscall e)))
          (fun _ => debug_syscalls K X w)) (s, t)
  = Done None
      (debug_entry_state cfg
         (fun e => with_word w (with_path Debug_UnknownSyscall e)) s, t).
Proof.
  unfold is_diagnostic_syscall, ifdef, debug_entry_state, debug_entry, when.
  intros H. destruct (DEBUG cfg); [|reflexivity].
  cbn in H. unfold debug_syscalls. run.
  destruct (w =? SysDebugPutChar K); [discriminate|].
  destruct (w =? SysDebugHalt K); [discriminate|].
  destruct (w =? SysDebugSnapshot K); [discriminate|].
  destruct (w =? SysDebugCapIdentify K); [discriminate|].
  destruct (w =? SysDebugNameThread K); [discriminate|].
  reflexivity.
Qed.

Lemma dangerous_block_falls_through w (m : @machine E) :
  is_diagnostic_syscall cfg K w = false ->
  ifdef (DANGEROUS_CODE_INJECTION cfg) (dangerous_syscalls K X w) m = Done None m.
Proof.
  unfold is_diagnostic_syscall, ifdef. intros H.
  apply orb_false_iff in H. destruct H as [H _].
  apply orb_false_iff in H. destruct H as [_ H].
  destruct (DANGEROUS_CODE_INJECTION cfg); [|reflexivity].
  cbn in H. unfold dangerous_syscalls. rewrite H. reflexivity.
Qed.

Lemma benchmark_block_falls_through w (m : @machine E) :
  is_diagnostic_syscall cfg K w = false ->
  ifdef (0 <? CONFIG_MAX_NUM_TRACE_POINTS cfg) (benchmark_syscalls K X w) m
  = Done None m.
Proof.
  unfold is_diagnostic_syscall, ifdef. intros H.
  apply orb_false_iff in H. destruct H as [_ H].
  destruct (0 <? CONFIG_MAX_NUM_TRACE_POINTS cfg); [|reflexivity].
  cbn in H. unfold benchmark_syscalls.
  destruct (w =? SysBenchmarkResetLog K); [discriminate|].
  destruct (w =? SysBenchmarkDumpLog K); [discriminate|].
  destruct (w =? SysBenchmarkLogSize K); [discriminate|].
  destruct (w =? SysBenchmarkFinalizeLog K); [discriminate|].
  reflexivity.
Qed.

Lemma handleUnknownSyscall_deferred w (s : @kernel_state E) t s2 :
  is_diagnostic_syscall cfg K w = false ->
  ext_checkBudget X
    (ext_updateTimestamp X
       (debug_entry_state cfg
          (fun e => with_word w (with_path Debug_UnknownSyscall e)) s))
  = (false, s2) ->
  handleUnknownSyscall cfg K X w (s, t) = Done EXCEPTION_NONE (deferred X s2 t).
Proof.
  intros Hd Hb.
  unfold handleUnknownSyscall, or_else.
  rewrite run_bind, (debug_block_falls_through _ _ _ Hd).
  rewrite run_bind, (dangerous_block_falls_through _ _ Hd).
  rewrite run_bind, (benchmark_block_falls_through _ _ Hd).
  run. rewrite Hb; cbn.
  unfold deferred. tidy_log. reflexivity.
Qed.

Lemma handleUserLevelFault_deferred w_a w_b (s : @kernel_state E) t s2 :
  ext_checkBudget X
    (ext_updateTimestamp X
       (debug_entry_state cfg
          (fun e => with_number_code w_a w_b (with_path Debug_UserLevelFault e)) s))
  = (false, s2) ->
  handleUserLevelFault cfg X w_a w_b (s, t) = Done EXCEPTION_NONE (deferred X s2 t).
Proof.
  intros Hb.
  unfold handleUserLevelFault. rewrite run_bind, run_debug_entry.
  run. rewrite Hb; cbn.
  unfold deferred. tidy_log. reflexivity.
Qed.

Lemma handleVMFaultEvent_deferred ty (s : @kernel_state E) t s2 :
  ext_checkBudget X
    (ext_updateTimestamp X
       (debug_entry_state cfg
          (fun e => with_fault_type ty (with_path Debug_VMFault e)) s))
  = (false, s2) ->
  handleVMFaultEvent cfg X ty (s, t) = Done EXCEPTION_NONE (deferred X s2 t).
Proof.
  intros Hb.
  unfold handleVMFaultEvent. rewrite run_bind, run_debug_entry.
  run. rewrite Hb; cbn.
  unfold deferred. tidy_log. reflexivity.
Qed.

End BudgetGate.

(** ** After the decoder *)

Section Invocation.

Context {E : Type} (cfg : build_config) (K : kernel_constants)
        (X : @collaborators E).

(** What [handleInvocation] does once the decoder has returned. *)
Lemma handleInvocation_decoded isCall isBlocking (s : @kernel_state E) t
      status s4 log :
  decoder_returns cfg K X isCall isBlocking s status s4 log ->
  let thread := ksCurThread s in
  handleInvocation cfg K X isCall isBlocking (s, t) =
    if exception_eqb status EXCEPTION_PREEMPTED then
      Done status (s4, t ++ log)
    else if exception_eqb status EXCEPTION_SYSCALL_ERROR then
      if isCall then
        Done EXCEPTION_NONE (ext_replyFromKernel_error X thread s4,
                             t ++ log ++ [Call_replyFromKernel_error thread])
      else Done EXCEPTION_NONE (s4, t ++ log)
    else if is_ThreadState_Restart (tsType (tcbState (tcb_heap s4 thread))) then
      if isCall then
        Done EXCEPTION_NONE
          (ext_setThreadState X thread ThreadState_Running
             (ext_replyFromKernel_success_empty X thread s4),
           t ++ log ++ [Call_replyFromKernel_success_empty thread;
                        Call_setThreadState thread ThreadState_Running])
      else
        Done EXCEPTION_NONE
          (ext_setThreadState X thread ThreadState_Running s4,
           t ++ log ++ [Call_setThreadState thread ThreadState_Running])
    else Done EXCEPTION_NONE (s4, t ++ log).
Proof.
  unfold decoder_returns.
  intros (lu_ret & s1 & buffer & s2 & s3 & Hlu & Hok & Hbuf & Hex & Hdec & Hlog).
  cbv zeta in *. subst log.
  unfold handleInvocation. run. rewrite Hlu; cbn.
  rewrite run_debug_entry. rewrite Hok; cbn.
  rewrite Hbuf; cbn. rewrite Hex; cbn. rewrite Hdec; cbn.
  unfold thread_state_get_tsType.
  destruct (exception_eqb status EXCEPTION_PREEMPTED);
    [tidy_log; reflexivity|].
  destruct (exception_eqb status EXCEPTION_SYSCALL_ERROR); cbn.
  - destruct isCall; cbn; tidy_log; reflexivity.
  - destruct (is_ThreadState_Restart
                (tsType (tcbState (tcb_heap s4 (ksCurThread s))))); cbn.
    + destruct isCall; cbn; tidy_log; reflexivity.
    + tidy_log; reflexivity.
Qed.

End Invocation.

(** ** Past the budget gate of [handleSyscall] *)

Section Dispatch.

Context {E : Type} (cfg : build_config) (K : kernel_constants)
        (X : @collaborators E).

(** With budget, [handleSyscall] is its switch, then the draining of one
    interrupt if the switch reported preemption, then the scheduler and the
    activation. *)
Lemma handleSyscall_with_budget syscall (s : @kernel_state E) t s2 :
  ext_checkBudget X
    (ext_updateTimestamp X
       (debug_entry_state cfg
          (fun e => with_syscall_no syscall (with_path Debug_Syscall e)) s))
  = (true, s2) ->
  handleSyscall cfg K X syscall (s, t) =
    match handleSyscall_switch cfg K X syscall
            (s2, t ++ [Call_updateTimestamp; Call_checkBudget]) with
    | Halted why m => Halted why m
    | Done status (s3, t3) =>
        if exception_eqb status EXCEPTION_PREEMPTED then
          let (irq, s4) := ext_getActiveIRQ X s3 in
          if irq =? irqInvalid K then
            Done EXCEPTION_NONE
              (ext_activateThread X (ext_schedule X s4),
               t3 ++ [Call_getActiveIRQ; Call_schedule; Call_activateThread])
          else
            Done EXCEPTION_NONE
              (ext_activateThread X
                 (ext_schedule X (ext_handleInterrupt X irq s4)),
               t3 ++ [Call_getActiveIRQ; Call_handleInterrupt irq;
                      Call_schedule; Call_activateThread])
        else
          Done EXCEPTION_NONE
            (ext_activateThread X (ext_schedule X s3),
             t3 ++ [Call_schedule; Call_activateThread])
    end.
Proof.
  intros Hb.
  unfold handleSyscall. rewrite run_bind, run_debug_entry.
  run. rewrite Hb; cbn. tidy_log.
  destruct (handleSyscall_switch cfg K X syscall
              (s2, t ++ [Call_updateTimestamp; Call_checkBudget]))
    as [status [s3 t3] | why m]; cbn; [|reflexivity].
  destruct (exception_eqb status EXCEPTION_PREEMPTED); cbn.
  - destruct (ext_getActiveIRQ X s3) as [irq s4]; cbn.
    destruct (irq =? irqInvalid K); cbn; tidy_log; reflexivity.
  - tidy_log; reflexivity.
Qed.

End Dispatch.

(** ** Reply and receive, step by step *)

Section ReplyRecv.

Context {E : Type} (K : kernel_constants) (X : @collaborators E).

(** The reply step when the caller slot holds an ordinary reply capability
    of another thread. *)
Lemma handleReply_transfers (s : @kernel_state E) t caller :
  caller_cap K s = cap_reply_cap false caller ->
  caller <> ksCurThread s ->
  handleReply K X (s, t)
  = Done tt
      (ext_doReplyTransfer X (ksCurThread s) caller
         (TCB_PTR_CTE_PTR K (ksCurThread s) (tcbCaller K)) s,
       t ++ [Call_doReplyTransfer (ksCurThread s) caller
               (TCB_PTR_CTE_PTR K (ksCurThread s) (tcbCaller K))]).
Proof.
  intros Hcap Hne. unfold handleReply, caller_cap in *. run.
  rewrite Hcap; cbn.
  apply Z.eqb_neq in Hne. rewrite Hne; cbn. reflexivity.
Qed.

(** The receive step on an endpoint capability with the receive right. *)
Lemma handleRecv_endpoint isBlocking (s : @kernel_state E) t lu_ret s1
      epPtr canSend badge :
  ext_lookupCap X (ksCurThread s)
    (tcbRegisters (tcb_heap s (ksCurThread s)) capRegister) s = (lu_ret, s1) ->
  lc_status lu_ret = EXCEPTION_NONE ->
  lc_cap lu_ret = cap_endpoint_cap epPtr canSend true badge ->
  let s2 := ext_deleteCallerCap X (ksCurThread s1) s1 in
  handleRecv X isBlocking (s, t)
  = Done tt
      (ext_receiveIPC X (ksCurThread s2) (lc_cap lu_ret) isBlocking s2,
       t ++ [Call_lookupCap (ksCurThread s)
               (tcbRegisters (tcb_heap s (ksCurThread s)) capRegister);
             Call_deleteCallerCap (ksCurThread s1);
             Call_receiveIPC (ksCurThread s2) (lc_cap lu_ret) isBlocking]).
Proof.
  intros Hlu Hok Hcap s2. subst s2.
  unfold handleRecv. run. rewrite Hlu; cbn. rewrite Hok; cbn.
  rewrite Hcap; cbn. tidy_log. reflexivity.
Qed.

End ReplyRecv.

(** ** Which calls a handler can make *)

Section CallLogic.

Context {E : Type} (P : call_t -> bool).

Lemma only_calls_ret {A} (a : A) : only_calls P (@ret E A a).
Proof. intros m. exists []. cbn. now rewrite app_nil_r. Qed.

Lemma only_calls_gets {A} (f : @kernel_state E -> A) : only_calls P (gets f).
Proof. intros m. exists []. cbn. now rewrite app_nil_r. Qed.

Lemma only_calls_modify (f : @kernel_state E -> kernel_state) :
  only_calls P (modify f).
Proof. intros m. exists []. cbn. now rewrite app_nil_r. Qed.

Lemma only_calls_fail {A} why : only_calls P (@fail E A why).
Proof. intros m. exists []. cbn. now rewrite app_nil_r. Qed.

Lemma only_calls_halt {A} : only_calls P (@halt E A).
Proof. intros m. exists []. cbn. now rewrite app_nil_r. Qed.

Lemma only_calls_assert b expr : only_calls P (@assert E b expr).
Proof.
  intros m. exists []. unfold assert. destruct b; cbn; now rewrite app_nil_r.
Qed.

Lemma only_calls_call {A} c (f : @kernel_state E -> A * kernel_state) :
  P c = true -> only_calls P (call c f).
Proof.
  intros Hc m. exists [c]. unfold call.
  destruct (f (fst m)) as [a s']; cbn. now rewrite Hc.
Qed.

Lemma only_calls_call_ c (f : @kernel_state E -> kernel_state) :
  P c = true -> only_calls P (call_ c f).
Proof. intros Hc m. exists [c]. cbn. now rewrite Hc. Qed.

Lemma only_calls_bind {A B} (c : @kernel E A) (k : A -> kernel B) :
  only_calls P c -> (forall a, only_calls P (k a)) -> only_calls P (bind c k).
Proof.
  intros Hc Hk m. unfold bind.
  destruct (Hc m) as (new1 & Hlog1 & Hall1).
  destruct (c m) as [a m' | why m']; cbn in *.
  - destruct (Hk a m') as (new2 & Hlog2 & Hall2).
    exists (new1 ++ new2). split.
    + rewrite Hlog2, Hlog1. now rewrite app_assoc.
    + rewrite forallb_app, Hall1, Hall2. reflexivity.
  - exists new1. now split.
Qed.

Lemma only_calls_when b (c : @kernel E unit) :
  only_calls P c -> only_calls P (when b c).
Proof. intros Hc. destruct b; cbn; [exact Hc | apply only_calls_ret]. Qed.

End CallLogic.

(** Decomposition of a handler into its calls. *)
Ltac only_calls_step :=
  first
    [ apply only_calls_bind; [|intros ?]
    | apply only_calls_ret
    | apply only_calls_gets
    | apply only_calls_modify
    | apply only_calls_fail
    | apply only_calls_halt
    | apply only_calls_assert
    | apply only_calls_when
    | apply only_calls_call; reflexivity
    | apply only_calls_call_; reflexivity
    | match goal with
      | |- only_calls _ (if ?b then _ else _) => destruct b
      | |- only_calls _ (match ?x with _ => _ end) => destruct x
      | |- only_calls _ (let _ := _ in _) => cbv zeta
      end ].

Ltac only_calls_auto := unfold_calls; repeat only_calls_step.

Section SyscallPath.

Context {E : Type} (cfg : build_config) (K : kernel_constants)
        (X : @collaborators E).

Lemma handleInvocation_stays_on_path isCall isBlocking :
  only_calls is_syscall_path (handleInvocation cfg K X isCall isBlocking).
Proof. unfold handleInvocation, debug_entry. only_calls_auto. Qed.

Lemma handleReply_stays_on_path : only_calls is_syscall_path (handleReply K X).
Proof. unfold handleReply. only_calls_auto. Qed.

Lemma handleRecv_stays_on_path isBlocking :
  only_calls is_syscall_path (handleRecv X isBlocking).
Proof. unfold handleRecv. only_calls_auto. Qed.

Lemma handleYield_stays_on_path : only_calls is_syscall_path (handleYield X).
Proof. unfold handleYield. only_calls_auto. Qed.

Lemma handleSyscall_switch_stays_on_path syscall :
  only_calls is_syscall_path (handleSyscall_switch cfg K X syscall).
Proof.
  unfold handleSyscall_switch.
  destruct syscall;
    repeat first
      [ apply handleInvocation_stays_on_path
      | apply handleReply_stays_on_path
      | apply handleRecv_stays_on_path
      | apply handleYield_stays_on_path
      | only_calls_step ].
Qed.

End SyscallPath.

(** No handling path contains a call of the scheduler or of the activation. *)
Lemma paths_exclude_scheduling c :
  is_schedule_or_activate c = true ->
  is_interrupt_path c = false /\ is_fault_path c = false
  /\ is_syscall_path c = false.
Proof. destruct c; cbn; intros H; try discriminate; auto. Qed.

(** ** Every entry point ends in the scheduler *)

Section Endings.

Context {E : Type} (cfg : build_config) (K : kernel_constants)
        (X : @collaborators E).

Lemma ends_intro P t (m : @machine E) path :
  snd m = t ++ path ++ [Call_schedule; Call_activateThread] ->
  forallb P path = true ->
  ends_with_schedule_activate P t (Done EXCEPTION_NONE m).
Proof.
  destruct m as [s' t']. unfold ends_with_schedule_activate. cbn. intros -> H.
  split; [reflexivity|]. exists path. now split.
Qed.

Lemma deferred_ends P t (s2 : @kernel_state E) :
  P Call_updateTimestamp = true -> P Call_checkBudget = true ->
  (forall thread, P (Call_setThreadState thread ThreadState_Restart) = true) ->
  ends_with_schedule_activate P t (Done EXCEPTION_NONE (deferred X s2 t)).
Proof.
  intros H1 H2 H3. unfold deferred.
  apply (ends_intro P t _
           [Call_updateTimestamp; Call_checkBudget;
            Call_setThreadState (ksCurThread s2) ThreadState_Restart]);
    [reflexivity|].
  cbn. now rewrite H1, H2, H3.
Qed.

Lemma handleInterruptEntry_ends (s : @kernel_state E) t :
  ends_with_schedule_activate is_interrupt_path t
    (handleInterruptEntry cfg K X (s, t))
  /\ is_done (handleInterruptEntry cfg K X (s, t)) = true.
Proof.
  unfold handleInterruptEntry. run.
  destruct (ext_getActiveIRQ X s) as [irq s1]; cbn.
  rewrite run_debug_entry.
  destruct (irq =? irqInvalid K); cbn; tidy_log; (split; [|reflexivity]).
  - apply (ends_intro _ t _
             [Call_getActiveIRQ; Call_printf "Spurious interrupt\n" [];
              Call_handleSpuriousIRQ]); reflexivity.
  - apply (ends_intro _ t _ [Call_getActiveIRQ; Call_handleInterrupt irq]);
      reflexivity.
Qed.

Lemma handleUserLevelFault_ends w_a w_b (s : @kernel_state E) t :
  ends_with_schedule_activate is_fault_path t
    (handleUserLevelFault cfg X w_a w_b (s, t))
  /\ is_done (handleUserLevelFault cfg X w_a w_b (s, t)) = true.
Proof.
  destruct (ext_checkBudget X
              (ext_updateTimestamp X
                 (debug_entry_state cfg
                    (fun e => with_number_code w_a w_b
                                (with_path Debug_UserLevelFault e)) s)))
    as [[|] s2] eqn:Hb.
  - unfold handleUserLevelFault. rewrite run_bind, run_debug_entry.
    run. rewrite Hb; cbn. tidy_log. split; [|reflexivity].
    apply (ends_intro _ t _
             [Call_updateTimestamp; Call_checkBudget;
              Call_handleFault (ksCurThread s2)]); reflexivity.
  - rewrite (handleUserLevelFault_deferred cfg X w_a w_b s t s2 Hb).
    split; [apply deferred_ends; reflexivity | reflexivity].
Qed.

Lemma handleVMFaultEvent_ends ty (s : @kernel_state E) t :
  ends_with_schedule_activate is_fault_path t
    (handleVMFaultEvent cfg X ty (s, t))
  /\ is_done (handleVMFaultEvent cfg X ty (s, t)) = true.
Proof.
  destruct (ext_checkBudget X
              (ext_updateTimestamp X
                 (debug_entry_state cfg
                    (fun e => with_fault_type ty (with_path Debug_VMFault e)) s)))
    as [[|] s2] eqn:Hb.
  - unfold handleVMFaultEvent. rewrite run_bind, run_debug_entry.
    run. rewrite Hb; cbn.
    destruct (ext_handleVMFault X (ksCurThread s2) ty s2) as [status s3]; cbn.
    destruct (exception_eqb status EXCEPTION_NONE); cbn; tidy_log;
      (split; [|reflexivity]).
    + apply (ends_intro _ t _
               [Call_updateTimestamp; Call_checkBudget;
                Call_handleVMFault (ksCurThread s2) ty]); reflexivity.
    + apply (ends_intro _ t _
               [Call_updateTimestamp; Call_checkBudget;
                Call_handleVMFault (ksCurThread s2) ty;
                Call_handleFault (ksCurThread s3)]); reflexivity.
  - rewrite (handleVMFaultEvent_deferred cfg X ty s t s2 Hb).
    split; [apply deferred_ends; reflexivity | reflexivity].
Qed.

Lemma handleUnknownSyscall_ends w (s : @kernel_state E) t :
  is_diagnostic_syscall cfg K w = false ->
  ends_with_schedule_activate is_fault_path t
    (handleUnknownSyscall cfg K X w (s, t))
  /\ is_done (handleUnknownSyscall cfg K X w (s, t)) = true.
Proof.
  intros Hd.
  destruct (ext_checkBudget X
              (ext_updateTimestamp X
                 (debug_entry_state cfg
                    (fun e => with_word w (with_path Debug_UnknownSyscall e)) s)))
    as [[|] s2] eqn:Hb.
  - unfold handleUnknownSyscall, or_else.
    rewrite run_bind, (debug_block_falls_through cfg K X _ _ _ Hd).
    rewrite run_bind, (dangerous_block_falls_through cfg K X _ _ Hd).
    rewrite run_bind, (benchmark_block_falls_through cfg K X _ _ Hd).
    run. rewrite Hb; cbn. tidy_log. split; [|reflexivity].
    apply (ends_intro _ t _
             [Call_updateTimestamp; Call_checkBudget;
              Call_handleFault (ksCurThread s2)]); reflexivity.
  - rewrite (handleUnknownSyscall_deferred cfg K X w s t s2 Hd Hb).
    split; [apply deferred_ends; reflexivity | reflexivity].
Qed.

Lemma handleSyscall_ends syscall (s : @kernel_state E) t :
  ends_with_schedule_activate is_syscall_path t
    (handleSyscall cfg K X syscall (s, t)).
Proof.
  destruct (ext_checkBudget X
              (ext_updateTimestamp X
                 (debug_entry_state cfg
                    (fun e => with_syscall_no syscall
                                (with_path Debug_Syscall e)) s)))
    as [[|] s2] eqn:Hb.
  - rewrite (handleSyscall_with_budget cfg K X syscall s t s2 Hb).
    destruct (handleSyscall_switch_stays_on_path cfg K X syscall
                (s2, t ++ [Call_updateTimestamp; Call_checkBudget]))
      as (new & Hlog & Hpath).
    destruct (handleSyscall_switch cfg K X syscall
                (s2, t ++ [Call_updateTimestamp; Call_checkBudget]))
      as [status [s3 t3] | why [s3 t3]]; cbn in Hlog; subst t3.
    + destruct (exception_eqb status EXCEPTION_PREEMPTED).
      * destruct (ext_getActiveIRQ X s3) as [irq s4].
        destruct (irq =? irqInvalid K).
        -- apply (ends_intro _ t _
                    ([Call_updateTimestamp; Call_checkBudget] ++ new
                       ++ [Call_getActiveIRQ])).
           ++ cbn. tidy_log. reflexivity.
           ++ cbn. rewrite forallb_app, Hpath. reflexivity.
        -- apply (ends_intro _ t _
                    ([Call_updateTimestamp; Call_checkBudget] ++ new
                       ++ [Call_getActiveIRQ; Call_handleInterrupt irq])).
           ++ cbn. tidy_log. reflexivity.
           ++ cbn. rewrite forallb_app, Hpath. reflexivity.
      * apply (ends_intro _ t _
                 ([Call_updateTimestamp; Call_checkBudget] ++ new)).
        -- cbn. tidy_log. reflexivity.
        -- cbn. exact Hpath.
    + unfold ends_with_schedule_activate.
      exists ([Call_updateTimestamp; Call_checkBudget] ++ new). split.
      * tidy_log. reflexivity.
      * cbn. exact Hpath.
  - rewrite (handleSyscall_deferred cfg K X syscall s t s2 Hb).
    apply deferred_ends; reflexivity.
Qed.

(** [handleSyscall] is stopped exactly when it has budget and its switch is
    stopped. *)
Lemma handleSyscall_is_done syscall (s : @kernel_state E) t :
  is_done (handleSyscall cfg K X syscall (s, t)) =
    let (budget, s2) :=
      ext_checkBudget X
        (ext_updateTimestamp X
           (debug_entry_state cfg
              (fun e => with_syscall_no syscall (with_path Debug_Syscall e)) s)) in
    if budget then
      is_done (handleSyscall_switch cfg K X syscall
                 (s2, t ++ [Call_updateTimestamp; Call_checkBudget]))
    else true.
Proof.
  destruct (ext_checkBudget X _) as [[|] s2] eqn:Hb.
  - rewrite (handleSyscall_with_budget cfg K X syscall s t s2 Hb).
    destruct (handleSyscall_switch cfg K X syscall _)
      as [status [s3 t3] | why m]; [|reflexivity].
    destruct (exception_eqb status EXCEPTION_PREEMPTED); [|reflexivity].
    destruct (ext_getActiveIRQ X s3) as [irq s4].
    destruct (irq =? irqInvalid K); reflexivity.
  - now rewrite (handleSyscall_deferred cfg K X syscall s t s2 Hb).
Qed.

End Endings.

(** ** The budget gate *)

(** C10. For every system-call opcode, the eight of the switch and every
    value outside them, when [checkBudget] returns false [handleSyscall]
    never enters the switch: the run is not stopped (in particular not by
    fail("Invalid syscall")), its calls are exactly updateTimestamp,
    checkBudget, setThreadState(ksCurThread, ThreadState_Restart), schedule
    and activateThread, and it returns EXCEPTION_NONE. *)
Theorem handleSyscall_without_budget_skips_switch :
  forall {E} cfg K (X : @collaborators E) (syscall : syscall_t)
         (s : kernel_state) (t : list call_t) (s2 : kernel_state),
    ext_checkBudget X
      (ext_updateTimestamp X
         (debug_entry_state cfg
            (fun e => with_syscall_no syscall (with_path Debug_Syscall e)) s))
    = (false, s2) ->
    handleSyscall cfg K X syscall (s, t)
    = Done EXCEPTION_NONE
        (ext_activateThread X
           (ext_schedule X
              (ext_setThreadState X (ksCurThread s2) ThreadState_Restart s2)),
         t ++ [Call_updateTimestamp; Call_checkBudget;
               Call_setThreadState (ksCurThread s2) ThreadState_Restart;
               Call_schedule; Call_activateThread])
    /\ (forall m, handleSyscall cfg K X syscall (s, t)
                  <> Halted "Invalid syscall" m)
    /\ is_done (handleSyscall cfg K X syscall (s, t)) = true.
Proof.
  intros E cfg K X syscall s t s2 Hb.
  pose proof (handleSyscall_deferred cfg K X syscall s t s2 Hb) as Hrun.
  unfold deferred in Hrun. rewrite Hrun.
  split; [reflexivity|]. split; [intros m; discriminate|reflexivity].
Qed.

Lemma handleSyscall_without_budget_skips_switch_witness :
  handleSyscall Concrete.cfg Concrete.K
    (Concrete.X (Concrete.with_budget false Concrete.default_answers))
    (SysOther 99) (Concrete.idle_state, [])
  = Done EXCEPTION_NONE
      (Concrete.write_tsType 4096 ThreadState_Restart Concrete.idle_state,
       [Call_updateTimestamp; Call_checkBudget;
        Call_setThreadState 4096 ThreadState_Restart;
        Call_schedule; Call_activateThread]).
Proof.
  apply (handleSyscall_without_budget_skips_switch Concrete.cfg Concrete.K
           (Concrete.X (Concrete.with_budget false Concrete.default_answers))
           (SysOther 99) Concrete.idle_state [] Concrete.idle_state).
  reflexivity.
Defined.

(** C2. On each budget-gated entry ([handleSyscall] with any opcode,
    [handleUnknownSyscall] once past the diagnostic calls of the build,
    [handleUserLevelFault], [handleVMFaultEvent]), when [checkBudget]
    returns false the handler does none of the gated work (no lookup,
    invocation, receive, reply, yield, fault construction or delivery; the
    current fault is whatever [checkBudget] left), calls
    setThreadState(ksCurThread, ThreadState_Restart), then schedule and
    activateThread, and returns EXCEPTION_NONE. *)
Theorem budget_gate_defers_the_request :
  forall {E} cfg K (X : @collaborators E) (s : kernel_state)
         (t : list call_t) (s2 : kernel_state),
    let gate_fails (f : kernel_entry_t -> kernel_entry_t) :=
      ext_checkBudget X (ext_updateTimestamp X (debug_entry_state cfg f s))
      = (false, s2) in
    let restarted :=
      (ext_activateThread X
         (ext_schedule X
            (ext_setThreadState X (ksCurThread s2) ThreadState_Restart s2)),
       t ++ [Call_updateTimestamp; Call_checkBudget;
             Call_setThreadState (ksCurThread s2) ThreadState_Restart;
             Call_schedule; Call_activateThread]) in
    (forall syscall,
        gate_fails (fun e => with_syscall_no syscall (with_path Debug_Syscall e)) ->
        handleSyscall cfg K X syscall (s, t) = Done EXCEPTION_NONE restarted)
    /\ (forall w,
        is_diagnostic_syscall cfg K w = false ->
        gate_fails (fun e => with_word w (with_path Debug_UnknownSyscall e)) ->
        handleUnknownSyscall cfg K X w (s, t) = Done EXCEPTION_NONE restarted)
    /\ (forall w_a w_b,
        gate_fails (fun e => with_number_code w_a w_b
                               (with_path Debug_UserLevelFault e)) ->
        handleUserLevelFault cfg X w_a w_b (s, t) = Done EXCEPTION_NONE restarted)
    /\ (forall ty,
        gate_fails (fun e => with_fault_type ty (with_path Debug_VMFault e)) ->
        handleVMFaultEvent cfg X ty (s, t) = Done EXCEPTION_NONE restarted)
    /\ (exists new,
        snd restarted = t ++ new /\
        forallb (fun c => negb (is_privileged_work c)) new = true).
Proof.
  intros E cfg K X s t s2 gate_fails restarted.
  subst gate_fails restarted. cbv beta.
  repeat split.
  - intros syscall Hb. now apply handleSyscall_deferred.
  - intros w Hd Hb. now apply handleUnknownSyscall_deferred.
  - intros w_a w_b Hb. now apply handleUserLevelFault_deferred.
  - intros ty Hb. now apply handleVMFaultEvent_deferred.
  - apply (deferred_calls X s2 t).
Qed.

Lemma budget_gate_defers_the_request_witness :
  let X0 := Concrete.X (Concrete.with_budget false Concrete.default_answers) in
  let restarted : @machine unit :=
    (Concrete.write_tsType 4096 ThreadState_Restart Concrete.idle_state,
     [Call_updateTimestamp; Call_checkBudget;
      Call_setThreadState 4096 ThreadState_Restart;
      Call_schedule; Call_activateThread]) in
  handleSyscall Concrete.cfg Concrete.K X0 SysCall (Concrete.idle_state, [])
  = Done EXCEPTION_NONE restarted
  /\ handleUnknownSyscall Concrete.cfg Concrete.K X0 1234 (Concrete.idle_state, [])
     = Done EXCEPTION_NONE restarted
  /\ handleUserLevelFault Concrete.cfg X0 1 2 (Concrete.idle_state, [])
     = Done EXCEPTION_NONE restarted
  /\ handleVMFaultEvent Concrete.cfg X0 1 (Concrete.idle_state, [])
     = Done EXCEPTION_NONE restarted.
Proof.
  intros X0 restarted.
  destruct (budget_gate_defers_the_request Concrete.cfg Concrete.K X0
              Concrete.idle_state [] Concrete.idle_state)
    as (Hsys & Hunknown & Huser & Hvm & _).
  split; [apply (Hsys SysCall); reflexivity|].
  split; [apply (Hunknown 1234); reflexivity|].
  split; [apply (Huser 1 2); reflexivity|].
  apply (Hvm 1); reflexivity.
Defined.

(** ** The reply protocol *)

(** C1, as stated, fails: with a master reply capability in the caller slot
    [handleReply] is not a no-op that returns; the [break] of that case
    leaves the switch and reaches fail("handleReply: invalid caller cap"). *)
Lemma handleReply_master_is_not_a_noop :
  let s := Concrete.st (cap_reply_cap true 8192) ThreadState_Running false 0 in
  caller_cap Concrete.K s = cap_reply_cap true 8192
  /\ handleReply Concrete.K (Concrete.X Concrete.default_answers) (s, [])
     <> Done tt (s, [])
  /\ is_done (handleReply Concrete.K (Concrete.X Concrete.default_answers) (s, []))
     = false.
Proof.
  cbv zeta. split; [reflexivity|]. split; [|reflexivity].
  vm_compute. discriminate.
Qed.

(** C1, amended. With a master reply capability in the caller slot,
    [handleReply] performs no reply transfer and no other call and changes
    no kernel state, and it stops the kernel through
    fail("handleReply: invalid caller cap"). *)
Theorem handleReply_master_reaches_fail :
  forall {E} K (X : @collaborators E) (s : kernel_state) (t : list call_t)
         (caller : tcb_ptr),
    caller_cap K s = cap_reply_cap true caller ->
    handleReply K X (s, t) = Halted "handleReply: invalid caller cap" (s, t).
Proof.
  intros E K X s t caller Hcap.
  unfold handleReply, caller_cap in *. run.
  rewrite Hcap. reflexivity.
Qed.

Lemma handleReply_master_reaches_fail_witness :
  let s := Concrete.st (cap_reply_cap true 8192) ThreadState_Running false 0 in
  handleReply Concrete.K (Concrete.X Concrete.default_answers) (s, [])
  = Halted "handleReply: invalid caller cap" (s, []).
Proof.
  cbv zeta.
  apply (handleReply_master_reaches_fail Concrete.K
           (Concrete.X Concrete.default_answers) _ [] 8192).
  reflexivity.
Defined.

(** ** The invocation pipeline *)

(** C3. When [lookupCapAndSlot] fails, [handleInvocation] records a
    capability fault for the pointer; if [isBlocking] it delivers the fault
    with handleFault(thread), otherwise it delivers nothing; in both cases
    it sends no reply, never calls the decoder, and returns
    EXCEPTION_NONE. *)
Theorem handleInvocation_lookup_failure :
  forall {E} cfg K (X : @collaborators E) (isCall isBlocking : bool)
         (s : kernel_state) (t : list call_t)
         (lu_ret : lookupCapAndSlot_ret_t) (s1 : kernel_state),
    let thread := ksCurThread s in
    let info := messageInfoFromWord K (tcbRegisters (tcb_heap s thread) msgInfoRegister) in
    let cptr := tcbRegisters (tcb_heap s thread) capRegister in
    ext_lookupCapAndSlot X thread cptr s = (lu_ret, s1) ->
    lcs_status lu_ret <> EXCEPTION_NONE ->
    let faulted :=
      set_current_fault (fault_cap_fault cptr false)
        (debug_entry_state cfg
           (with_cap_type_tag (cap_get_capType (lcs_cap lu_ret))
                              (message_info_get_msgLabel K info)) s1) in
    let new :=
      [Call_lookupCapAndSlot thread cptr;
       Call_userError "Invocation of invalid cap #%lu." [cptr]]
      ++ (if isBlocking then [Call_handleFault thread] else []) in
    handleInvocation cfg K X isCall isBlocking (s, t)
    = Done EXCEPTION_NONE
        (if isBlocking then ext_handleFault X thread faulted else faulted,
         t ++ new)
    /\ existsb is_fault_delivery new = isBlocking
    /\ existsb is_reply_call new = false
    /\ existsb is_decode_call new = false.
Proof.
  intros E cfg K X isCall isBlocking s t lu_ret s1 thread info cptr Hlu Hst
         faulted new.
  subst thread info cptr faulted new.
  split.
  - unfold handleInvocation. run. rewrite Hlu; cbn.
    rewrite run_debug_entry.
    rewrite (exception_eqb_neq _ _ Hst); cbn.
    destruct isBlocking; cbn; tidy_log; reflexivity.
  - destruct isBlocking; cbn; auto.
Qed.

Lemma handleInvocation_lookup_failure_witness :
  let bad := {| lcs_status := EXCEPTION_other 2; lcs_cap := cap_null_cap;
                lcs_slot := 0 |} in
  let X0 := Concrete.X (Concrete.with_cap_and_slot bad Concrete.default_answers) in
  handleInvocation Concrete.cfg Concrete.K X0 true true (Concrete.idle_state, [])
  = Done EXCEPTION_NONE
      (set_current_fault (fault_cap_fault 17 false) Concrete.idle_state,
       [Call_lookupCapAndSlot 4096 17;
        Call_userError "Invocation of invalid cap #%lu." [17];
        Call_handleFault 4096])
  /\ handleInvocation Concrete.cfg Concrete.K X0 true false (Concrete.idle_state, [])
     = Done EXCEPTION_NONE
         (set_current_fault (fault_cap_fault 17 false) Concrete.idle_state,
          [Call_lookupCapAndSlot 4096 17;
           Call_userError "Invocation of invalid cap #%lu." [17]]).
Proof.
  intros bad X0. split.
  - apply (handleInvocation_lookup_failure Concrete.cfg Concrete.K X0 true true
             Concrete.idle_state [] bad Concrete.idle_state);
      [reflexivity | discriminate].
  - apply (handleInvocation_lookup_failure Concrete.cfg Concrete.K X0 true false
             Concrete.idle_state [] bad Concrete.idle_state);
      [reflexivity | discriminate].
Defined.

(** C9. When the decoder returns a status that is neither preempted nor a
    syscall error: if the thread's state is Restart afterwards,
    [handleInvocation] sends the empty success reply exactly when [isCall],
    then calls setThreadState(thread, ThreadState_Running); if the state is
    not Restart it makes no further call and leaves the state as the decoder
    left it.  It returns EXCEPTION_NONE in both cases. *)
Theorem handleInvocation_success_restart_to_running :
  forall {E} cfg K (X : @collaborators E) (isCall isBlocking : bool)
         (s : kernel_state) (t : list call_t)
         (status : exception_t) (s4 : kernel_state) (log : list call_t),
    decoder_returns cfg K X isCall isBlocking s status s4 log ->
    status <> EXCEPTION_PREEMPTED ->
    status <> EXCEPTION_SYSCALL_ERROR ->
    let thread := ksCurThread s in
    (tsType (tcbState (tcb_heap s4 thread)) = ThreadState_Restart ->
     handleInvocation cfg K X isCall isBlocking (s, t)
     = Done EXCEPTION_NONE
         (ext_setThreadState X thread ThreadState_Running
            (if isCall then ext_replyFromKernel_success_empty X thread s4
             else s4),
          t ++ log
            ++ (if isCall then [Call_replyFromKernel_success_empty thread]
                else [])
            ++ [Call_setThreadState thread ThreadState_Running]))
    /\ (tsType (tcbState (tcb_heap s4 thread)) <> ThreadState_Restart ->
        handleInvocation cfg K X isCall isBlocking (s, t)
        = Done EXCEPTION_NONE (s4, t ++ log)).
Proof.
  intros E cfg K X isCall isBlocking s t status s4 log Hdec Hp He thread.
  pose proof (handleInvocation_decoded cfg K X isCall isBlocking s t
                status s4 log Hdec) as Hrun.
  cbv zeta in Hrun. fold thread in Hrun.
  rewrite (exception_eqb_neq _ _ Hp), (exception_eqb_neq _ _ He) in Hrun.
  split; intros Hts.
  - rewrite Hrun, Hts; cbn. destruct isCall; reflexivity.
  - rewrite Hrun.
    destruct (tsType (tcbState (tcb_heap s4 thread))); cbn;
      try reflexivity; contradiction.
Qed.

Lemma handleInvocation_success_restart_to_running_witness :
  let X0 := Concrete.X Concrete.default_answers in
  let restarted := Concrete.st cap_null_cap ThreadState_Restart false 0 in
  let log := [Call_lookupCapAndSlot 4096 17;
              Call_lookupIPCBuffer false 4096;
              Call_lookupExtraCaps 4096 24576 2;
              Call_decodeInvocation 0 2 17 20480 Concrete.endpoint_ok []
                true true 24576] in
  handleInvocation Concrete.cfg Concrete.K X0 true true (restarted, [])
  = Done EXCEPTION_NONE
      (Concrete.write_tsType 4096 ThreadState_Running restarted,
       log ++ [Call_replyFromKernel_success_empty 4096;
               Call_setThreadState 4096 ThreadState_Running])
  /\ handleInvocation Concrete.cfg Concrete.K X0 true true (Concrete.idle_state, [])
     = Done EXCEPTION_NONE (Concrete.idle_state, log).
Proof.
  intros X0 restarted log.
  assert (Hdec : forall ts,
             let s := Concrete.st cap_null_cap ts false 0 in
             decoder_returns Concrete.cfg Concrete.K X0 true true s
               EXCEPTION_NONE s log).
  { intros ts s. unfold decoder_returns.
    exists (Concrete.cap_and_slot Concrete.default_answers), s, 24576, s, s.
    repeat split; reflexivity. }
  split.
  - refine (proj1 (handleInvocation_success_restart_to_running
                     Concrete.cfg Concrete.K X0 true true restarted []
                     EXCEPTION_NONE restarted log
                     (Hdec ThreadState_Restart) _ _) _);
      [discriminate | discriminate | reflexivity].
  - refine (proj2 (handleInvocation_success_restart_to_running
                     Concrete.cfg Concrete.K X0 true true Concrete.idle_state []
                     EXCEPTION_NONE Concrete.idle_state log
                     (Hdec ThreadState_Running) _ _) _);
      discriminate.
Defined.

(** C8. When the invocation path of [handleSyscall] returns the preempted
    status, [handleSyscall] calls getActiveIRQ once, calls handleInterrupt
    on the result only if it is not irqInvalid, and then calls schedule and
    activateThread; only the three invocation opcodes can report
    preemption.  [handleInvocation] itself, when the decoder returns the
    preempted status, returns it at once: no call follows the decoder's, and
    no reply is sent. *)
Theorem preemption_drains_one_interrupt :
  forall {E} cfg K (X : @collaborators E),
    (forall syscall (s : kernel_state) t s2 s3 t3 irq s4,
        ext_checkBudget X
          (ext_updateTimestamp X
             (debug_entry_state cfg
                (fun e => with_syscall_no syscall (with_path Debug_Syscall e)) s))
        = (true, s2) ->
        handleSyscall_switch cfg K X syscall
          (s2, t ++ [Call_updateTimestamp; Call_checkBudget])
        = Done EXCEPTION_PREEMPTED (s3, t3) ->
        ext_getActiveIRQ X s3 = (irq, s4) ->
        handleSyscall cfg K X syscall (s, t)
        = Done EXCEPTION_NONE
            (ext_activateThread X
               (ext_schedule X
                  (if irq =? irqInvalid K then s4
                   else ext_handleInterrupt X irq s4)),
             t3 ++ [Call_getActiveIRQ]
                ++ (if irq =? irqInvalid K then []
                    else [Call_handleInterrupt irq])
                ++ [Call_schedule; Call_activateThread])
        /\ (syscall = SysSend \/ syscall = SysNBSend \/ syscall = SysCall))
    /\ (forall isCall isBlocking (s : kernel_state) t s4 log,
        decoder_returns cfg K X isCall isBlocking s EXCEPTION_PREEMPTED s4 log ->
        handleInvocation cfg K X isCall isBlocking (s, t)
        = Done EXCEPTION_PREEMPTED (s4, t ++ log)
        /\ existsb is_reply_call log = false).
Proof.
  intros E cfg K X. split.
  - intros syscall s t s2 s3 t3 irq s4 Hb Hsw Hirq. split.
    + rewrite (handleSyscall_with_budget cfg K X syscall s t s2 Hb).
      rewrite Hsw; cbn. rewrite Hirq.
      destruct (irq =? irqInvalid K); reflexivity.
    + destruct syscall; auto; exfalso; revert Hsw;
        unfold handleSyscall_switch; rewrite ?run_bind;
        try (unfold fail; discriminate).
      * destruct (handleRecv X true _); discriminate.
      * destruct (handleReply K X _); discriminate.
      * destruct (handleReply K X _); [|discriminate].
        rewrite run_bind. destruct (handleRecv X true _); discriminate.
      * destruct (handleRecv X false _); discriminate.
      * destruct (handleYield X _); discriminate.
  - intros isCall isBlocking s t s4 log Hdec. split.
    + rewrite (handleInvocation_decoded cfg K X isCall isBlocking s t
                 EXCEPTION_PREEMPTED s4 log Hdec).
      reflexivity.
    + unfold decoder_returns in Hdec.
      destruct Hdec as (lu_ret & s1 & buffer & s2 & s3 & _ & _ & _ & _ & _ & Hlog).
      subst log. reflexivity.
Qed.

Lemma preemption_drains_one_interrupt_witness :
  let X0 := Concrete.X (Concrete.with_decode_status EXCEPTION_PREEMPTED
                          (Concrete.with_active_irq 5 Concrete.default_answers)) in
  let log := [Call_lookupCapAndSlot 4096 17;
              Call_lookupIPCBuffer false 4096;
              Call_lookupExtraCaps 4096 24576 2;
              Call_decodeInvocation 0 2 17 20480 Concrete.endpoint_ok []
                true true 24576] in
  handleSyscall Concrete.cfg Concrete.K X0 SysCall (Concrete.idle_state, [])
  = Done EXCEPTION_NONE
      (Concrete.idle_state,
       ([Call_updateTimestamp; Call_checkBudget] ++ log)
         ++ [Call_getActiveIRQ; Call_handleInterrupt 5;
             Call_schedule; Call_activateThread])
  /\ handleInvocation Concrete.cfg Concrete.K X0 true true (Concrete.idle_state, [])
     = Done EXCEPTION_PREEMPTED (Concrete.idle_state, log).
Proof.
  intros X0 log.
  destruct (preemption_drains_one_interrupt Concrete.cfg Concrete.K X0)
    as [Hsyscall Hinvocation].
  split.
  - refine (proj1 (Hsyscall SysCall Concrete.idle_state [] Concrete.idle_state
                     Concrete.idle_state
                     ([Call_updateTimestamp; Call_checkBudget] ++ log)
                     5 Concrete.idle_state _ _ _));
      reflexivity.
  - refine (proj1 (Hinvocation true true Concrete.idle_state []
                     Concrete.idle_state log _)).
    unfold decoder_returns.
    exists (Concrete.cap_and_slot Concrete.default_answers),
           Concrete.idle_state, 24576, Concrete.idle_state, Concrete.idle_state.
    repeat split; reflexivity.
Defined.

(** ** The receive protocol *)

(** C5. When the looked-up capability is a notification capability that
    lacks the receive right or whose notification is bound to a thread other
    than the current one, and likewise when it is an endpoint capability
    without the receive right, [handleRecv] sets the missing-capability
    lookup fault, records a capability fault for the pointer (in the receive
    phase), delivers it with handleFault(ksCurThread) and calls neither
    receiveSignal nor receiveIPC. *)
Theorem handleRecv_refuses_without_right_or_binding :
  forall {E} (X : @collaborators E) (isBlocking : bool)
         (s : kernel_state) (t : list call_t)
         (lu_ret : lookupCap_ret_t) (s1 : kernel_state),
    let epCPtr := tcbRegisters (tcb_heap s (ksCurThread s)) capRegister in
    ext_lookupCap X (ksCurThread s) epCPtr s = (lu_ret, s1) ->
    lc_status lu_ret = EXCEPTION_NONE ->
    ((exists ntfnPtr canSend canReceive badge,
         lc_cap lu_ret = cap_notification_cap ntfnPtr canSend canReceive badge /\
         (canReceive = false \/
          (ntfnBoundTCB (ntfn_heap s1 ntfnPtr) <> 0 /\
           ntfnBoundTCB (ntfn_heap s1 ntfnPtr) <> ksCurThread s1)))
     \/ (exists epPtr canSend badge,
         lc_cap lu_ret = cap_endpoint_cap epPtr canSend false badge)) ->
    let faulted :=
      set_current_fault (fault_cap_fault epCPtr true)
        (set_current_lookup_fault (lookup_fault_missing_capability 0) s1) in
    let new := [Call_lookupCap (ksCurThread s) epCPtr;
                Call_handleFault (ksCurThread s1)] in
    handleRecv X isBlocking (s, t)
    = Done tt (ext_handleFault X (ksCurThread s1) faulted, t ++ new)
    /\ current_lookup_fault faulted = lookup_fault_missing_capability 0
    /\ current_fault faulted = fault_cap_fault epCPtr true
    /\ existsb is_receive_call new = false.
Proof.
  intros E X isBlocking s t lu_ret s1 epCPtr Hlu Hok Hcap faulted new.
  subst epCPtr faulted new.
  split; [|repeat split].
  unfold handleRecv. run. rewrite Hlu; cbn. rewrite Hok; cbn.
  destruct Hcap as [(p & cs & cr & b & Hc & Hwhy) | (p & cs & b & Hc)];
    rewrite Hc; cbn.
  - unfold notification_ptr_get_ntfnBoundTCB.
    destruct Hwhy as [-> | [Hbound Hother]]; cbn.
    + tidy_log; reflexivity.
    + apply Z.eqb_neq in Hbound, Hother. rewrite Hbound, Hother; cbn.
      rewrite orb_true_r; cbn. tidy_log; reflexivity.
  - tidy_log; reflexivity.
Qed.

Lemma handleRecv_refuses_without_right_or_binding_witness :
  let s := Concrete.st cap_null_cap ThreadState_Running false 12345 in
  let answer c :=
    Concrete.X (Concrete.with_looked_up
                  {| lc_status := EXCEPTION_NONE; lc_cap := c |}
                  Concrete.default_answers) in
  let faulted :=
    (set_current_fault (fault_cap_fault 17 true)
       (set_current_lookup_fault (lookup_fault_missing_capability 0) s),
     [Call_lookupCap 4096 17; Call_handleFault 4096]) in
  handleRecv (answer Concrete.notification_ok) true (s, []) = Done tt faulted
  /\ handleRecv (answer Concrete.notification_no_recv) true (s, [])
     = Done tt faulted
  /\ handleRecv (answer Concrete.endpoint_send_only) false (s, [])
     = Done tt faulted.
Proof.
  intros s answer faulted. split; [|split].
  - refine (proj1 (handleRecv_refuses_without_right_or_binding
                     (answer Concrete.notification_ok) true s []
                     {| lc_status := EXCEPTION_NONE;
                        lc_cap := Concrete.notification_ok |} s _ _ _));
      [reflexivity | reflexivity |].
    left. exists 16384, true, true, 0. split; [reflexivity|].
    right. split; discriminate.
  - refine (proj1 (handleRecv_refuses_without_right_or_binding
                     (answer Concrete.notification_no_recv) true s []
                     {| lc_status := EXCEPTION_NONE;
                        lc_cap := Concrete.notification_no_recv |} s _ _ _));
      [reflexivity | reflexivity |].
    left. exists 16384, true, false, 0. split; [reflexivity|]. now left.
  - refine (proj1 (handleRecv_refuses_without_right_or_binding
                     (answer Concrete.endpoint_send_only) false s []
                     {| lc_status := EXCEPTION_NONE;
                        lc_cap := Concrete.endpoint_send_only |} s _ _ _));
      [reflexivity | reflexivity |].
    right. exists 12288, true, 0. reflexivity.
Defined.

(** C6. When the looked-up capability is an endpoint capability with the
    receive right, [handleRecv] calls deleteCallerCap(ksCurThread) and only
    then receiveIPC.  In the SysReplyRecv path of [handleSyscall] the reply
    transfer comes first, then the lookup, then deleteCallerCap, then
    receiveIPC (blocking), and then the scheduler and the activation. *)
Theorem handleRecv_clears_caller_cap_before_receiving :
  forall {E} cfg K (X : @collaborators E),
    (forall isBlocking (s : kernel_state) t lu_ret s1 epPtr canSend badge,
        ext_lookupCap X (ksCurThread s)
          (tcbRegisters (tcb_heap s (ksCurThread s)) capRegister) s
        = (lu_ret, s1) ->
        lc_status lu_ret = EXCEPTION_NONE ->
        lc_cap lu_ret = cap_endpoint_cap epPtr canSend true badge ->
        let s2 := ext_deleteCallerCap X (ksCurThread s1) s1 in
        handleRecv X isBlocking (s, t)
        = Done tt
            (ext_receiveIPC X (ksCurThread s2) (lc_cap lu_ret) isBlocking s2,
             t ++ [Call_lookupCap (ksCurThread s)
                     (tcbRegisters (tcb_heap s (ksCurThread s)) capRegister);
                   Call_deleteCallerCap (ksCurThread s1);
                   Call_receiveIPC (ksCurThread s2) (lc_cap lu_ret) isBlocking]))
    /\ (forall (s : kernel_state) t s2 caller lu_ret s4 epPtr canSend badge,
        ext_checkBudget X
          (ext_updateTimestamp X
             (debug_entry_state cfg
                (fun e => with_syscall_no SysReplyRecv
                            (with_path Debug_Syscall e)) s))
        = (true, s2) ->
        caller_cap K s2 = cap_reply_cap false caller ->
        caller <> ksCurThread s2 ->
        let callerSlot := TCB_PTR_CTE_PTR K (ksCurThread s2) (tcbCaller K) in
        let s3 := ext_doReplyTransfer X (ksCurThread s2) caller callerSlot s2 in
        let epCPtr := tcbRegisters (tcb_heap s3 (ksCurThread s3)) capRegister in
        ext_lookupCap X (ksCurThread s3) epCPtr s3 = (lu_ret, s4) ->
        lc_status lu_ret = EXCEPTION_NONE ->
        lc_cap lu_ret = cap_endpoint_cap epPtr canSend true badge ->
        let s5 := ext_deleteCallerCap X (ksCurThread s4) s4 in
        handleSyscall cfg K X SysReplyRecv (s, t)
        = Done EXCEPTION_NONE
            (ext_activateThread X
               (ext_schedule X
                  (ext_receiveIPC X (ksCurThread s5) (lc_cap lu_ret) true s5)),
             t ++ [Call_updateTimestamp; Call_checkBudget;
                   Call_doReplyTransfer (ksCurThread s2) caller callerSlot;
                   Call_lookupCap (ksCurThread s3) epCPtr;
                   Call_deleteCallerCap (ksCurThread s4);
                   Call_receiveIPC (ksCurThread s5) (lc_cap lu_ret) true;
                   Call_schedule; Call_activateThread])).
Proof.
  intros E cfg K X. split.
  - intros isBlocking s t lu_ret s1 epPtr canSend badge Hlu Hok Hcap.
    exact (handleRecv_endpoint X isBlocking s t lu_ret s1 epPtr canSend badge
             Hlu Hok Hcap).
  - intros s t s2 caller lu_ret s4 epPtr canSend badge Hb Hcaller Hne
           callerSlot s3 epCPtr Hlu Hok Hcap s5.
    rewrite (handleSyscall_with_budget cfg K X SysReplyRecv s t s2 Hb).
    unfold handleSyscall_switch. rewrite run_bind.
    rewrite (handleReply_transfers K X s2 _ caller Hcaller Hne).
    fold callerSlot. fold s3. rewrite run_bind.
    rewrite (handleRecv_endpoint X true s3 _ lu_ret s4 epPtr canSend badge
               Hlu Hok Hcap).
    cbn. fold s5. tidy_log. reflexivity.
Qed.

Lemma handleRecv_clears_caller_cap_before_receiving_witness :
  let s := Concrete.st (cap_reply_cap false 8192) ThreadState_Running false 0 in
  let X0 := Concrete.X Concrete.default_answers in
  handleRecv X0 false (s, [])
  = Done tt (s, [Call_lookupCap 4096 17;
                 Call_deleteCallerCap 4096;
                 Call_receiveIPC 4096 Concrete.endpoint_ok false])
  /\ handleSyscall Concrete.cfg Concrete.K X0 SysReplyRecv (s, [])
     = Done EXCEPTION_NONE
         (s, [Call_updateTimestamp; Call_checkBudget;
              Call_doReplyTransfer 4096 8192 4192;
              Call_lookupCap 4096 17;
              Call_deleteCallerCap 4096;
              Call_receiveIPC 4096 Concrete.endpoint_ok true;
              Call_schedule; Call_activateThread]).
Proof.
  intros s X0.
  destruct (handleRecv_clears_caller_cap_before_receiving
              Concrete.cfg Concrete.K X0) as [Hrecv Hreplyrecv].
  split.
  - apply (Hrecv false s [] (Concrete.looked_up Concrete.default_answers) s
                 12288 true 0); reflexivity.
  - apply (Hreplyrecv s [] s 8192 (Concrete.looked_up Concrete.default_answers)
                      s 12288 true 0);
      try reflexivity.
    discriminate.
Defined.

(** ** Yield *)

(** C7. Provided the asserted precondition holds (the current thread is not
    in a scheduler queue), [handleYield] asks ready(ksCurThread); if the
    thread is ready it recharges the thread's scheduling context and appends
    the thread to its run queue with tcbSchedAppend, otherwise it postpones
    the scheduling context; in both cases it then sets ksConsumed to zero
    and calls rescheduleRequired. *)
Theorem handleYield_recharges_or_postpones :
  forall {E} (X : @collaborators E) (s : kernel_state) (t : list call_t)
         (r : bool) (s1 : kernel_state),
    tcbQueued (tcbState (tcb_heap s (ksCurThread s))) = false ->
    ext_ready X (ksCurThread s) s = (r, s1) ->
    let sc := tcbSchedContext (tcb_heap s1 (ksCurThread s1)) in
    let recharged := ext_recharge X sc s1 in
    let s2 := if r then ext_tcbSchedAppend X (ksCurThread recharged) recharged
              else ext_postpone X sc s1 in
    let budget_calls :=
      if r then [Call_recharge sc; Call_tcbSchedAppend (ksCurThread recharged)]
      else [Call_postpone sc] in
    handleYield X (s, t)
    = Done tt
        (ext_rescheduleRequired X (set_ksConsumed 0 s2),
         t ++ [Call_ready (ksCurThread s)] ++ budget_calls
           ++ [Call_rescheduleRequired])
    /\ ksConsumed (set_ksConsumed 0 s2) = 0.
Proof.
  intros E X s t r s1 Hq Hready sc recharged s2 budget_calls.
  subst sc recharged s2 budget_calls.
  split; [|reflexivity].
  unfold handleYield. run.
  unfold thread_state_get_tcbQueued. rewrite Hq; cbn.
  rewrite Hready; cbn.
  destruct r; cbn; tidy_log; reflexivity.
Qed.

Lemma handleYield_recharges_or_postpones_witness :
  handleYield (Concrete.X Concrete.default_answers) (Concrete.idle_state, [])
  = Done tt
      (set_ksConsumed 0 Concrete.idle_state,
       [Call_ready 4096; Call_recharge 8192; Call_tcbSchedAppend 4096;
        Call_rescheduleRequired])
  /\ handleYield (Concrete.X (Concrete.with_is_ready false Concrete.default_answers))
       (Concrete.idle_state, [])
     = Done tt
         (set_ksConsumed 0 Concrete.idle_state,
          [Call_ready 4096; Call_postpone 8192; Call_rescheduleRequired]).
Proof.
  split.
  - apply (handleYield_recharges_or_postpones
             (Concrete.X Concrete.default_answers) Concrete.idle_state []
             true Concrete.idle_state); reflexivity.
  - apply (handleYield_recharges_or_postpones
             (Concrete.X (Concrete.with_is_ready false Concrete.default_answers))
             Concrete.idle_state [] false Concrete.idle_state); reflexivity.
Defined.

(** ** The dispatcher *)

(** C4, as stated, fails: with budget and an opcode outside the switch,
    [handleSyscall] stops at fail("Invalid syscall") and calls neither
    schedule nor activateThread. *)
Lemma handleSyscall_invalid_opcode_never_schedules :
  let o := handleSyscall Concrete.cfg Concrete.K
             (Concrete.X Concrete.default_answers) (SysOther 77)
             (Concrete.idle_state, []) in
  o = Halted "Invalid syscall"
        (Concrete.idle_state, [Call_updateTimestamp; Call_checkBudget])
  /\ ~ In Call_schedule (snd (final_machine o))
  /\ ~ In Call_activateThread (snd (final_machine o)).
Proof.
  cbv zeta. split; [reflexivity|].
  split; cbn; intros [H | [H | []]]; discriminate.
Qed.

(** The same happens on a diagnostic call of a debug build:
    [handleUnknownSyscall] returns right after kernel_putchar. *)
Example handleUnknownSyscall_putchar_returns_early :
  handleUnknownSyscall Concrete.debug_cfg Concrete.K
    (Concrete.X Concrete.default_answers) (SysDebugPutChar Concrete.K)
    (Concrete.idle_state, [])
  = Done EXCEPTION_NONE
      (set_ksKernelEntry
         (with_word (SysDebugPutChar Concrete.K)
            (with_path Debug_UnknownSyscall (ksKernelEntry Concrete.idle_state)))
         Concrete.idle_state,
       [Call_kernel_putchar 17]).
Proof. reflexivity. Qed.

(** C4, amended. Every run of an entry point that is not stopped by fail,
    halt or a violated assert, and is not a diagnostic call that
    [handleUnknownSyscall] serves before its budget gate, executes the one
    handling path of that entry point (interrupt path for
    [handleInterruptEntry], fault path for [handleUnknownSyscall],
    [handleUserLevelFault] and [handleVMFaultEvent], syscall path for
    [handleSyscall]), then calls schedule and activateThread as its last two
    calls, and returns EXCEPTION_NONE; a stopped run has called neither.
    [handleInterruptEntry], [handleUserLevelFault], [handleVMFaultEvent] and
    [handleUnknownSyscall] past the diagnostic calls are never stopped;
    [handleSyscall] is stopped exactly when it has budget and its switch is
    stopped. *)
Theorem entry_points_end_with_schedule_then_activate :
  forall {E} cfg K (X : @collaborators E) (s : kernel_state) (t : list call_t),
    (ends_with_schedule_activate is_interrupt_path t
       (handleInterruptEntry cfg K X (s, t))
     /\ is_done (handleInterruptEntry cfg K X (s, t)) = true)
    /\ (forall w,
        is_diagnostic_syscall cfg K w = false ->
        ends_with_schedule_activate is_fault_path t
          (handleUnknownSyscall cfg K X w (s, t))
        /\ is_done (handleUnknownSyscall cfg K X w (s, t)) = true)
    /\ (forall w_a w_b,
        ends_with_schedule_activate is_fault_path t
          (handleUserLevelFault cfg X w_a w_b (s, t))
        /\ is_done (handleUserLevelFault cfg X w_a w_b (s, t)) = true)
    /\ (forall ty,
        ends_with_schedule_activate is_fault_path t
          (handleVMFaultEvent cfg X ty (s, t))
        /\ is_done (handleVMFaultEvent cfg X ty (s, t)) = true)
    /\ (forall syscall,
        ends_with_schedule_activate is_syscall_path t
          (handleSyscall cfg K X syscall (s, t))
        /\ is_done (handleSyscall cfg K X syscall (s, t)) =
             let (budget, s2) :=
               ext_checkBudget X
                 (ext_updateTimestamp X
                    (debug_entry_state cfg
                       (fun e => with_syscall_no syscall
                                   (with_path Debug_Syscall e)) s)) in
             if budget then
               is_done (handleSyscall_switch cfg K X syscall
                          (s2, t ++ [Call_updateTimestamp; Call_checkBudget]))
             else true).
Proof.
  intros E cfg K X s t.
  split; [apply handleInterruptEntry_ends|].
  split; [intros w Hd; now apply handleUnknownSyscall_ends|].
  split; [intros w_a w_b; apply handleUserLevelFault_ends|].
  split; [intros ty; apply handleVMFaultEvent_ends|].
  intros syscall. split.
  - apply handleSyscall_ends.
  - apply handleSyscall_is_done.
Qed.

Lemma entry_points_end_with_schedule_then_activate_witness :
  ends_with_schedule_activate is_fault_path []
    (handleUnknownSyscall Concrete.cfg Concrete.K
       (Concrete.X Concrete.default_answers) 1234 (Concrete.idle_state, []))
  /\ is_done
       (handleUnknownSyscall Concrete.cfg Concrete.K
          (Concrete.X Concrete.default_answers) 1234 (Concrete.idle_state, []))
     = true.
Proof.
  destruct (entry_points_end_with_schedule_then_activate Concrete.cfg Concrete.K
              (Concrete.X Concrete.default_answers) Concrete.idle_state [])
    as (_ & Hunknown & _).
  apply (Hunknown 1234). reflexivity.
Defined.

(** * Further properties of the handlers *)

(** ** Logs *)

Lemma new_calls_app {E A} (m : @machine E) (o : @outcome E A) new :
  snd (final_machine o) = snd m ++ new -> new_calls m o = new.
Proof.
  intros H. unfold new_calls. rewrite H.
  rewrite skipn_app, skipn_all, Nat.sub_diag. reflexivity.
Qed.

Lemma only_calls_weaken {E A} (P Q : call_t -> bool) (c : @kernel E A) :
  (forall x, P x = true -> Q x = true) -> only_calls P c -> only_calls Q c.
Proof.
  intros HPQ Hc m. destruct (Hc m) as (new & Hlog & Hall).
  exists new. split; [exact Hlog|].
  rewrite forallb_forall in *. auto.
Qed.

Lemma only_calls_new_calls {E A} (P : call_t -> bool) (c : @kernel E A) m :
  only_calls P c -> forallb P (new_calls m (c m)) = true.
Proof.
  intros Hc. destruct (Hc m) as (new & Hlog & Hall).
  now rewrite (new_calls_app m (c m) new Hlog).
Qed.

(** ** More on the reply protocol *)

Section ReplyCases.

Context {E : Type} (K : kernel_constants) (X : @collaborators E).

(** [handleReply], case by case on the capability in the caller slot. *)
Lemma handleReply_cases (s : @kernel_state E) t :
  handleReply K X (s, t) =
    match caller_cap K s with
    | cap_null_cap =>
        Done tt (s, t ++ [Call_userError
                            "Attempted reply operation when no reply cap present."
                            []])
    | cap_reply_cap false caller =>
        if caller =? ksCurThread s then
          Halted "assertion failed: caller != ksCurThread" (s, t)
        else
          Done tt
            (ext_doReplyTransfer X (ksCurThread s) caller
               (TCB_PTR_CTE_PTR K (ksCurThread s) (tcbCaller K)) s,
             t ++ [Call_doReplyTransfer (ksCurThread s) caller
                     (TCB_PTR_CTE_PTR K (ksCurThread s) (tcbCaller K))])
    | _ => Halted "handleReply: invalid caller cap" (s, t)
    end.
Proof.
  unfold handleReply, caller_cap. run.
  destruct (cap (cte_heap s (TCB_PTR_CTE_PTR K (ksCurThread s) (tcbCaller K))))
    as [| | |[|] caller| |]; cbn; try reflexivity.
  destruct (caller =? ksCurThread s); reflexivity.
Qed.

End ReplyCases.

(** X1. [handleReply] returns exactly when the caller slot is empty or holds
    an ordinary (non-master) reply capability of a thread other than the
    current one; in every other case (master reply capability, any other
    kind of capability, reply to the current thread itself) the kernel is
    stopped, and then nothing has been called and no state has changed. *)
Theorem handleReply_returns_iff_reply_permitted :
  forall {E} K (X : @collaborators E) (s : kernel_state) (t : list call_t),
    is_done (handleReply K X (s, t)) = reply_permitted K s
    /\ (reply_permitted K s = false ->
        final_machine (handleReply K X (s, t)) = (s, t)).
Proof.
  intros E K X s t. rewrite handleReply_cases. unfold reply_permitted.
  destruct (caller_cap K s) as [| | |[|] caller| |]; cbn; auto;
    try (split; [reflexivity | discriminate]).
  destruct (caller =? ksCurThread s); cbn; auto.
  split; [reflexivity | discriminate].
Qed.

Lemma handleReply_returns_iff_reply_permitted_witness :
  final_machine
    (handleReply Concrete.K (Concrete.X Concrete.default_answers)
       (Concrete.st (cap_thread_cap 8192) ThreadState_Running false 0, []))
  = (Concrete.st (cap_thread_cap 8192) ThreadState_Running false 0, []).
Proof.
  apply (handleReply_returns_iff_reply_permitted Concrete.K
           (Concrete.X Concrete.default_answers)
           (Concrete.st (cap_thread_cap 8192) ThreadState_Running false 0) []).
  reflexivity.
Defined.

(** X2. Whatever the caller slot holds, [handleReply] calls doReplyTransfer
    at most once and makes no other reply; when it does, the sender is the
    current thread, the receiver is the thread named by the (non-master)
    reply capability of the caller slot and differs from the sender, and the
    slot passed is the caller slot. *)
Theorem handleReply_transfers_only_to_another_thread :
  forall {E} K (X : @collaborators E) (s : kernel_state) (t : list call_t),
    let new := new_calls (s, t) (handleReply K X (s, t)) in
    (count_calls is_reply_call new <= 1)%nat
    /\ (forall c, In c new -> is_reply_call c = true ->
        exists receiver,
          c = Call_doReplyTransfer (ksCurThread s) receiver
                (TCB_PTR_CTE_PTR K (ksCurThread s) (tcbCaller K))
          /\ receiver <> ksCurThread s
          /\ caller_cap K s = cap_reply_cap false receiver).
Proof.
  intros E K X s t new. subst new. rewrite handleReply_cases.
  destruct (caller_cap K s) as [| | |[|] caller| |] eqn:Hcap;
    try (rewrite (new_calls_app (s, t) _ []) by (cbn; now rewrite app_nil_r);
         split; [cbn; lia | intros c []]).
  - erewrite new_calls_app by (cbn; reflexivity).
    split; [cbn; lia|].
    intros c [<- | []]. discriminate.
  - destruct (caller =? ksCurThread s) eqn:Hself.
    + rewrite (new_calls_app (s, t) _ []) by (cbn; now rewrite app_nil_r).
      split; [cbn; lia | intros c []].
    + erewrite new_calls_app by (cbn; reflexivity).
      split; [cbn; lia|].
      intros c [<- | []] _. exists caller.
      apply Z.eqb_neq in Hself. auto.
Qed.

(** X3. With an empty caller slot [handleReply] only reports the user error:
    it transfers nothing, changes no state and returns. *)
Theorem handleReply_empty_slot_reports_only :
  forall {E} K (X : @collaborators E) (s : kernel_state) (t : list call_t),
    caller_cap K s = cap_null_cap ->
    handleReply K X (s, t)
    = Done tt (s, t ++ [Call_userError
                          "Attempted reply operation when no reply cap present."
                          []]).
Proof.
  intros E K X s t Hcap. rewrite handleReply_cases, Hcap. reflexivity.
Qed.

Lemma handleReply_empty_slot_reports_only_witness :
  handleReply Concrete.K (Concrete.X Concrete.default_answers)
    (Concrete.idle_state, [])
  = Done tt (Concrete.idle_state,
             [Call_userError
                "Attempted reply operation when no reply cap present." []]).
Proof.
  apply (handleReply_empty_slot_reports_only Concrete.K
           (Concrete.X Concrete.default_answers) Concrete.idle_state []).
  reflexivity.
Defined.

(** ** More on the receive protocol *)

Section RecvCases.

Context {E : Type} (X : @collaborators E).

(** [handleRecv], case by case on the result of the lookup. *)
Lemma handleRecv_cases isBlocking (s : @kernel_state E) t :
  let epCPtr := tcbRegisters (tcb_heap s (ksCurThread s)) capRegister in
  let lu_ret := fst (ext_lookupCap X (ksCurThread s) epCPtr s) in
  let s1 := snd (ext_lookupCap X (ksCurThread s) epCPtr s) in
  let looked := t ++ [Call_lookupCap (ksCurThread s) epCPtr] in
  let deliver s' :=
    Done tt (ext_handleFault X (ksCurThread s1) s',
             looked ++ [Call_handleFault (ksCurThread s1)]) in
  let refuse :=
    deliver (set_current_fault (fault_cap_fault epCPtr true)
               (set_current_lookup_fault (lookup_fault_missing_capability 0) s1)) in
  handleRecv X isBlocking (s, t) =
    if negb (exception_eqb (lc_status lu_ret) EXCEPTION_NONE) then
      deliver (set_current_fault (fault_cap_fault epCPtr true) s1)
    else
      match lc_cap lu_ret with
      | cap_endpoint_cap _ _ true _ =>
          let s2 := ext_deleteCallerCap X (ksCurThread s1) s1 in
          Done tt
            (ext_receiveIPC X (ksCurThread s2) (lc_cap lu_ret) isBlocking s2,
             looked ++ [Call_deleteCallerCap (ksCurThread s1);
                        Call_receiveIPC (ksCurThread s2) (lc_cap lu_ret)
                          isBlocking])
      | cap_notification_cap ntfnPtr _ true _ =>
          let boundTCB := ntfnBoundTCB (ntfn_heap s1 ntfnPtr) in
          if (boundTCB =? 0) || (boundTCB =? ksCurThread s1) then
            Done tt
              (ext_receiveSignal X (ksCurThread s1) (lc_cap lu_ret) isBlocking s1,
               looked ++ [Call_receiveSignal (ksCurThread s1) (lc_cap lu_ret)
                            isBlocking])
          else refuse
      | _ => refuse
      end.
Proof.
  cbv zeta. unfold handleRecv. run.
  destruct (ext_lookupCap X (ksCurThread s)
              (tcbRegisters (tcb_heap s (ksCurThread s)) capRegister) s)
    as [lu_ret s1]; cbn.
  destruct (exception_eqb (lc_status lu_ret) EXCEPTION_NONE); cbn;
    [|tidy_log; reflexivity].
  destruct (lc_cap lu_ret) as [|p cs [|] b|p cs [|] b| | |]; cbn;
    try (tidy_log; reflexivity).
  unfold notification_ptr_get_ntfnBoundTCB.
  destruct (ntfnBoundTCB (ntfn_heap s1 p) =? 0); cbn;
    [tidy_log; reflexivity|].
  destruct (ntfnBoundTCB (ntfn_heap s1 p) =? ksCurThread s1); cbn;
    tidy_log; reflexivity.
Qed.

End RecvCases.

(** Case analysis of a run of [handleRecv], for properties of its log. *)
Ltac handleRecv_all_cases X isBlocking s t :=
  rewrite (handleRecv_cases X isBlocking s t); cbv zeta;
  destruct (ext_lookupCap X (ksCurThread s)
              (tcbRegisters (tcb_heap s (ksCurThread s)) capRegister) s)
    as [lu_ret s1]; cbn [fst snd];
  destruct (negb (exception_eqb (lc_status lu_ret) EXCEPTION_NONE));
    [| destruct (lc_cap lu_ret) as [|p cs [|] b|p cs [|] b| | |];
       try (destruct ((ntfnBoundTCB (ntfn_heap s1 p) =? 0)
                      || (ntfnBoundTCB (ntfn_heap s1 p) =? ksCurThread s1))) ];
  (erewrite new_calls_app by (cbn; tidy_log; reflexivity)).

(** X4. [handleRecv] never stops the kernel and, whatever the lookup
    returns, ends in exactly one of three ways: it calls exactly one of
    handleFault, receiveIPC and receiveSignal, exactly once. *)
Theorem handleRecv_takes_exactly_one_outcome :
  forall {E} (X : @collaborators E) (isBlocking : bool)
         (s : kernel_state) (t : list call_t),
    is_done (handleRecv X isBlocking (s, t)) = true
    /\ count_calls is_recv_outcome
         (new_calls (s, t) (handleRecv X isBlocking (s, t))) = 1%nat.
Proof.
  intros E X isBlocking s t.
  handleRecv_all_cases X isBlocking s t; split; reflexivity.
Qed.

(** X5. In every run of [handleRecv], deleteCallerCap is called exactly when
    receiveIPC is (once each, deleteCallerCap first); a run that delivers a
    fault or receives on a notification never touches the caller slot. *)
Theorem handleRecv_clears_caller_cap_only_for_endpoints :
  forall {E} (X : @collaborators E) (isBlocking : bool)
         (s : kernel_state) (t : list call_t),
    let new := new_calls (s, t) (handleRecv X isBlocking (s, t)) in
    count_calls is_deleteCallerCap new = count_calls is_receiveIPC new
    /\ (count_calls is_receiveIPC new <= 1)%nat
    /\ (existsb is_receiveIPC new = true ->
        exists cur1 cur2 c lookup,
          new = [lookup; Call_deleteCallerCap cur1;
                 Call_receiveIPC cur2 c isBlocking])
    /\ (existsb is_receiveIPC new = false ->
        existsb is_deleteCallerCap new = false).
Proof.
  intros E X isBlocking s t new. subst new.
  handleRecv_all_cases X isBlocking s t; cbn;
    (split; [reflexivity|]); (split; [lia|]);
    (split; [first [discriminate | intros _; repeat eexists]
            | first [discriminate | reflexivity]]).
Qed.

(** X6. When lookupCap fails, [handleRecv] records a capability fault for
    the pointer in the receive phase, leaves current_lookup_fault as
    lookupCap set it, delivers the fault to the current thread and starts no
    receive. *)
Theorem handleRecv_lookup_failure :
  forall {E} (X : @collaborators E) (isBlocking : bool)
         (s : kernel_state) (t : list call_t)
         (lu_ret : lookupCap_ret_t) (s1 : kernel_state),
    let epCPtr := tcbRegisters (tcb_heap s (ksCurThread s)) capRegister in
    ext_lookupCap X (ksCurThread s) epCPtr s = (lu_ret, s1) ->
    lc_status lu_ret <> EXCEPTION_NONE ->
    let faulted := set_current_fault (fault_cap_fault epCPtr true) s1 in
    handleRecv X isBlocking (s, t)
    = Done tt (ext_handleFault X (ksCurThread s1) faulted,
               t ++ [Call_lookupCap (ksCurThread s) epCPtr;
                     Call_handleFault (ksCurThread s1)])
    /\ current_lookup_fault faulted = current_lookup_fault s1.
Proof.
  intros E X isBlocking s t lu_ret s1 epCPtr Hlu Hst faulted.
  subst epCPtr faulted. split; [|reflexivity].
  rewrite handleRecv_cases; cbv zeta. rewrite Hlu; cbn [fst snd].
  rewrite (exception_eqb_neq _ _ Hst); cbn. tidy_log. reflexivity.
Qed.

Lemma handleRecv_lookup_failure_witness :
  let X0 := Concrete.X (Concrete.with_looked_up
                          {| lc_status := EXCEPTION_other 2;
                             lc_cap := cap_null_cap |}
                          Concrete.default_answers) in
  handleRecv X0 true (Concrete.idle_state, [])
  = Done tt (set_current_fault (fault_cap_fault 17 true) Concrete.idle_state,
             [Call_lookupCap 4096 17; Call_handleFault 4096]).
Proof.
  intros X0.
  refine (proj1 (handleRecv_lookup_failure X0 true Concrete.idle_state []
                   {| lc_status := EXCEPTION_other 2; lc_cap := cap_null_cap |}
                   Concrete.idle_state _ _));
    [reflexivity | discriminate].
Defined.

(** X7. On a notification capability with the receive right whose
    notification is unbound or bound to the current thread, [handleRecv]
    begins the signal receive with receiveSignal(ksCurThread, cap,
    isBlocking) and does nothing else: no fault is recorded or delivered and
    the caller slot is not cleared. *)
Theorem handleRecv_notification_receives_signal :
  forall {E} (X : @collaborators E) (isBlocking : bool)
         (s : kernel_state) (t : list call_t)
         (lu_ret : lookupCap_ret_t) (s1 : kernel_state)
         ntfnPtr canSend badge,
    let epCPtr := tcbRegisters (tcb_heap s (ksCurThread s)) capRegister in
    ext_lookupCap X (ksCurThread s) epCPtr s = (lu_ret, s1) ->
    lc_status lu_ret = EXCEPTION_NONE ->
    lc_cap lu_ret = cap_notification_cap ntfnPtr canSend true badge ->
    ntfnBoundTCB (ntfn_heap s1 ntfnPtr) = 0
    \/ ntfnBoundTCB (ntfn_heap s1 ntfnPtr) = ksCurThread s1 ->
    handleRecv X isBlocking (s, t)
    = Done tt
        (ext_receiveSignal X (ksCurThread s1) (lc_cap lu_ret) isBlocking s1,
         t ++ [Call_lookupCap (ksCurThread s) epCPtr;
               Call_receiveSignal (ksCurThread s1) (lc_cap lu_ret) isBlocking]).
Proof.
  intros E X isBlocking s t lu_ret s1 ntfnPtr canSend badge epCPtr
         Hlu Hok Hcap Hbound.
  subst epCPtr. rewrite handleRecv_cases; cbv zeta.
  rewrite Hlu; cbn [fst snd]. rewrite Hok; cbn. rewrite Hcap.
  assert (Hb : (ntfnBoundTCB (ntfn_heap s1 ntfnPtr) =? 0)
               || (ntfnBoundTCB (ntfn_heap s1 ntfnPtr) =? ksCurThread s1) = true).
  { destruct Hbound as [-> | ->].
    - reflexivity.
    - rewrite Z.eqb_refl. apply orb_true_r. }
  rewrite Hb. tidy_log. reflexivity.
Qed.

Lemma handleRecv_notification_receives_signal_witness :
  let X0 := Concrete.X (Concrete.with_looked_up
                          {| lc_status := EXCEPTION_NONE;
                             lc_cap := Concrete.notification_ok |}
                          Concrete.default_answers) in
  let bound_here := Concrete.st cap_null_cap ThreadState_Running false 4096 in
  handleRecv X0 false (Concrete.idle_state, [])
  = Done tt (Concrete.idle_state,
             [Call_lookupCap 4096 17;
              Call_receiveSignal 4096 Concrete.notification_ok false])
  /\ handleRecv X0 true (bound_here, [])
     = Done tt (bound_here,
                [Call_lookupCap 4096 17;
                 Call_receiveSignal 4096 Concrete.notification_ok true]).
Proof.
  intros X0 bound_here. split.
  - apply (handleRecv_notification_receives_signal X0 false
             Concrete.idle_state []
             {| lc_status := EXCEPTION_NONE; lc_cap := Concrete.notification_ok |}
             Concrete.idle_state 16384 true 0);
      try reflexivity.
    left. reflexivity.
  - apply (handleRecv_notification_receives_signal X0 true bound_here []
             {| lc_status := EXCEPTION_NONE; lc_cap := Concrete.notification_ok |}
             bound_here 16384 true 0);
      try reflexivity.
    right. reflexivity.
Defined.

(** X8. A successfully looked-up capability that is neither an endpoint nor
    a notification capability (null, reply, thread, or any other kind) makes
    [handleRecv] raise the missing-capability fault: lookup fault
    missing_capability(0), capability fault for the pointer in the receive
    phase, delivered to the current thread; no receive begins. *)
Theorem handleRecv_other_capability_faults :
  forall {E} (X : @collaborators E) (isBlocking : bool)
         (s : kernel_state) (t : list call_t)
         (lu_ret : lookupCap_ret_t) (s1 : kernel_state),
    let epCPtr := tcbRegisters (tcb_heap s (ksCurThread s)) capRegister in
    ext_lookupCap X (ksCurThread s) epCPtr s = (lu_ret, s1) ->
    lc_status lu_ret = EXCEPTION_NONE ->
    cap_get_capType (lc_cap lu_ret) <> tag_endpoint_cap ->
    cap_get_capType (lc_cap lu_ret) <> tag_notification_cap ->
    handleRecv X isBlocking (s, t)
    = Done tt
        (ext_handleFault X (ksCurThread s1)
           (set_current_fault (fault_cap_fault epCPtr true)
              (set_current_lookup_fault (lookup_fault_missing_capability 0) s1)),
         t ++ [Call_lookupCap (ksCurThread s) epCPtr;
               Call_handleFault (ksCurThread s1)]).
Proof.
  intros E X isBlocking s t lu_ret s1 epCPtr Hlu Hok Hep Hntfn.
  subst epCPtr. rewrite handleRecv_cases; cbv zeta.
  rewrite Hlu; cbn [fst snd]. rewrite Hok; cbn.
  destruct (lc_cap lu_ret); cbn in *;
    try (tidy_log; reflexivity); congruence.
Qed.

Lemma handleRecv_other_capability_faults_witness :
  let X0 := Concrete.X (Concrete.with_looked_up
                          {| lc_status := EXCEPTION_NONE;
                             lc_cap := cap_thread_cap 8192 |}
                          Concrete.default_answers) in
  handleRecv X0 true (Concrete.idle_state, [])
  = Done tt
      (set_current_fault (fault_cap_fault 17 true)
         (set_current_lookup_fault (lookup_fault_missing_capability 0)
            Concrete.idle_state),
       [Call_lookupCap 4096 17; Call_handleFault 4096]).
Proof.
  intros X0.
  apply (handleRecv_other_capability_faults X0 true Concrete.idle_state []
           {| lc_status := EXCEPTION_NONE; lc_cap := cap_thread_cap 8192 |}
           Concrete.idle_state);
    [reflexivity | reflexivity | discriminate | discriminate].
Defined.

(** ** More on the invocation pipeline *)

Section InvocationCases.

Context {E : Type} (cfg : build_config) (K : kernel_constants)
        (X : @collaborators E).

(** [handleInvocation], case by case on what the collaborators return. *)
Lemma handleInvocation_cases isCall isBlocking (s : @kernel_state E) t :
  let thread := ksCurThread s in
  let info := messageInfoFromWord K (tcbRegisters (tcb_heap s thread) msgInfoRegister) in
  let cptr := tcbRegisters (tcb_heap s thread) capRegister in
  let label := message_info_get_msgLabel K info in
  let '(lu_ret, s1) := ext_lookupCapAndSlot X thread cptr s in
  let s1' := debug_entry_state cfg
               (with_cap_type_tag (cap_get_capType (lcs_cap lu_ret)) label) s1 in
  let t1 := t ++ [Call_lookupCapAndSlot thread cptr] in
  handleInvocation cfg K X isCall isBlocking (s, t) =
    if negb (exception_eqb (lcs_status lu_ret) EXCEPTION_NONE) then
      let faulted := set_current_fault (fault_cap_fault cptr false) s1' in
      let t2 := t1 ++ [Call_userError "Invocation of invalid cap #%lu." [cptr]] in
      if isBlocking then
        Done EXCEPTION_NONE (ext_handleFault X thread faulted,
                             t2 ++ [Call_handleFault thread])
      else Done EXCEPTION_NONE (faulted, t2)
    else
      let '(buffer, s2) := ext_lookupIPCBuffer X false thread s1' in
      let '(status, s3) := ext_lookupExtraCaps X thread buffer info s2 in
      let t3 := t1 ++ [Call_lookupIPCBuffer false thread;
                       Call_lookupExtraCaps thread buffer info] in
      if negb (exception_eqb status EXCEPTION_NONE) then
        let t4 := t3 ++ [Call_userError "Lookup of extra caps failed." []] in
        if isBlocking then
          Done EXCEPTION_NONE (ext_handleFault X thread s3,
                               t4 ++ [Call_handleFault thread])
        else Done EXCEPTION_NONE (s3, t4)
      else
        let length :=
          if (n_msgRegisters K <? message_info_get_msgLength K info)
             && (buffer =? 0)
          then n_msgRegisters K else message_info_get_msgLength K info in
        let '(status, s4) :=
          ext_decodeInvocation X label length cptr (lcs_slot lu_ret)
            (lcs_cap lu_ret) (current_extra_caps s3) isBlocking isCall buffer s3 in
        let t5 := t3 ++ [Call_decodeInvocation label length cptr
                           (lcs_slot lu_ret) (lcs_cap lu_ret)
                           (current_extra_caps s3) isBlocking isCall buffer] in
        if exception_eqb status EXCEPTION_PREEMPTED then
          Done status (s4, t5)
        else if exception_eqb status EXCEPTION_SYSCALL_ERROR then
          if isCall then
            Done EXCEPTION_NONE (ext_replyFromKernel_error X thread s4,
                                 t5 ++ [Call_replyFromKernel_error thread])
          else Done EXCEPTION_NONE (s4, t5)
        else if is_ThreadState_Restart (tsType (tcbState (tcb_heap s4 thread))) then
          if isCall then
            Done EXCEPTION_NONE
              (ext_setThreadState X thread ThreadState_Running
                 (ext_replyFromKernel_success_empty X thread s4),
               t5 ++ [Call_replyFromKernel_success_empty thread;
                      Call_setThreadState thread ThreadState_Running])
          else
            Done EXCEPTION_NONE
              (ext_setThreadState X thread ThreadState_Running s4,
               t5 ++ [Call_setThreadState thread ThreadState_Running])
        else Done EXCEPTION_NONE (s4, t5).
Proof.
  cbv zeta. unfold handleInvocation. run.
  destruct (ext_lookupCapAndSlot X _ _ s) as [lu_ret s1]; cbn.
  rewrite run_debug_entry.
  destruct (exception_eqb (lcs_status lu_ret) EXCEPTION_NONE); cbn.
  - destruct (ext_lookupIPCBuffer X false _ _) as [buffer s2]; cbn.
    destruct (ext_lookupExtraCaps X _ buffer _ s2) as [status s3]; cbn.
    destruct (exception_eqb status EXCEPTION_NONE); cbn.
    + destruct (ext_decodeInvocation X _ _ _ _ _ _ _ _ _ s3) as [st s4]; cbn.
      unfold thread_state_get_tsType.
      destruct (exception_eqb st EXCEPTION_PREEMPTED); cbn;
        [tidy_log; reflexivity|].
      destruct (exception_eqb st EXCEPTION_SYSCALL_ERROR); cbn.
      * destruct isCall; cbn; tidy_log; reflexivity.
      * destruct (is_ThreadState_Restart _); cbn;
          [destruct isCall; cbn|]; tidy_log; reflexivity.
    + destruct isBlocking; cbn; tidy_log; reflexivity.
  - destruct isBlocking; cbn; tidy_log; reflexivity.
Qed.

End InvocationCases.

(** Case analysis of a run of [handleInvocation], for properties of its
    outcome and log. *)
Ltac handleInvocation_all_cases cfg K X isCall isBlocking s t :=
  pose proof (handleInvocation_cases cfg K X isCall isBlocking s t) as Hrun;
  cbv zeta in Hrun;
  destruct (ext_lookupCapAndSlot X _ _ s) as [lu_ret s1];
  destruct (negb (exception_eqb (lcs_status lu_ret) EXCEPTION_NONE));
    [| destruct (ext_lookupIPCBuffer X false _ _) as [buffer s2];
       destruct (ext_lookupExtraCaps X _ buffer _ s2) as [status s3];
       destruct (negb (exception_eqb status EXCEPTION_NONE));
         [| destruct (ext_decodeInvocation X _ _ _ _ _ _ _ _ _ s3) as [st s4];
            destruct (exception_eqb st EXCEPTION_PREEMPTED) eqn:Hpre;
              [| destruct (exception_eqb st EXCEPTION_SYSCALL_ERROR);
                 [| destruct (is_ThreadState_Restart _) ] ] ] ];
  try destruct isBlocking; try destruct isCall;
  rewrite Hrun; clear Hrun.

(** X9. [handleInvocation] never stops the kernel, and the only statuses it
    returns are EXCEPTION_NONE and EXCEPTION_PREEMPTED: lookup failures and
    syscall errors of the decoder are absorbed (turned into a fault or an
    error reply), and any other status of the decoder counts as success. *)
Theorem handleInvocation_returns_none_or_preempted :
  forall {E} cfg K (X : @collaborators E) (isCall isBlocking : bool)
         (s : kernel_state) (t : list call_t),
    exists status m,
      handleInvocation cfg K X isCall isBlocking (s, t) = Done status m
      /\ (status = EXCEPTION_NONE \/ status = EXCEPTION_PREEMPTED).
Proof.
  intros E cfg K X isCall isBlocking s t.
  handleInvocation_all_cases cfg K X isCall isBlocking s t;
    try (do 2 eexists; split; [reflexivity | left; reflexivity]);
    apply exception_eqb_eq in Hpre; subst st;
    do 2 eexists; (split; [reflexivity | right; reflexivity]).
Qed.

(** Closing a leaf of a case analysis: the log of the run is explicit. *)
Ltac explicit_log := erewrite new_calls_app by (cbn; tidy_log; reflexivity); cbn.

(** X10. In every run of [handleInvocation] at most one reply is sent
    (replyFromKernel_error or replyFromKernel_success_empty), none when
    [isCall] is false, and a reply is sent only after the decoder has been
    called. *)
Theorem handleInvocation_replies_only_to_calls :
  forall {E} cfg K (X : @collaborators E) (isCall isBlocking : bool)
         (s : kernel_state) (t : list call_t),
    let new := new_calls (s, t) (handleInvocation cfg K X isCall isBlocking (s, t)) in
    (count_calls is_reply_call new <= 1)%nat
    /\ (isCall = false -> existsb is_reply_call new = false)
    /\ (existsb is_reply_call new = true -> existsb is_decode_call new = true).
Proof.
  intros E cfg K X isCall isBlocking s t new. subst new.
  handleInvocation_all_cases cfg K X isCall isBlocking s t; explicit_log;
    (split; [lia|]); (split; [first [discriminate | reflexivity]|]);
    first [discriminate | reflexivity].
Qed.

(** X11. In every run of [handleInvocation] handleFault is called at most
    once, never when [isBlocking] is false, and never once the decoder has
    been called: the pipeline delivers faults for its two lookups only. *)
Theorem handleInvocation_faults_only_when_blocking :
  forall {E} cfg K (X : @collaborators E) (isCall isBlocking : bool)
         (s : kernel_state) (t : list call_t),
    let new := new_calls (s, t) (handleInvocation cfg K X isCall isBlocking (s, t)) in
    (count_calls is_fault_delivery new <= 1)%nat
    /\ (isBlocking = false -> existsb is_fault_delivery new = false)
    /\ (existsb is_decode_call new = true ->
        existsb is_fault_delivery new = false).
Proof.
  intros E cfg K X isCall isBlocking s t new. subst new.
  handleInvocation_all_cases cfg K X isCall isBlocking s t; explicit_log;
    (split; [lia|]); (split; [first [discriminate | reflexivity]|]);
    first [discriminate | reflexivity].
Qed.

(** X12. Every call of the decoder that [handleInvocation] makes passes a
    length that is at most the message length of the header; when there is
    no IPC buffer (NULL) the length is at most n_msgRegisters, and when there
    is one it is the message length itself.  The decoder is called at most
    once. *)
Theorem handleInvocation_clamps_length_without_buffer :
  forall {E} cfg K (X : @collaborators E) (isCall isBlocking : bool)
         (s : kernel_state) (t : list call_t),
    let new := new_calls (s, t) (handleInvocation cfg K X isCall isBlocking (s, t)) in
    let msgLength :=
      message_info_get_msgLength K
        (messageInfoFromWord K
           (tcbRegisters (tcb_heap s (ksCurThread s)) msgInfoRegister)) in
    forallb (decoder_length_ok K msgLength) new = true
    /\ (count_calls is_decode_call new <= 1)%nat.
Proof.
  intros E cfg K X isCall isBlocking s t new msgLength. subst new msgLength.
  assert (Hclamp : forall n L buffer,
             (((if (n <? L) && (buffer =? 0) then n else L) <=? L)
              && (if buffer =? 0
                  then (if (n <? L) && (buffer =? 0) then n else L) <=? n
                  else (if (n <? L) && (buffer =? 0) then n else L) =? L)) = true).
  { intros n L buffer.
    destruct (n <? L) eqn:Hn; destruct (buffer =? 0); cbn;
      rewrite ?Z.eqb_refl, ?Z.leb_refl; cbn; try reflexivity.
    - apply Z.ltb_lt in Hn. rewrite andb_true_r. apply Z.leb_le. lia.
    - apply Z.ltb_ge in Hn. apply Z.leb_le. exact Hn. }
  handleInvocation_all_cases cfg K X isCall isBlocking s t; explicit_log;
    rewrite ?Hclamp; (split; [reflexivity | lia]).
Qed.

(** X13. The only thread-state change that [handleInvocation] itself makes is
    setThreadState(thread, ThreadState_Running) for the thread that was
    current at entry, at most once, and only after the decoder has been
    called; it never marks a thread Restart or blocked. *)
Theorem handleInvocation_only_sets_running :
  forall {E} cfg K (X : @collaborators E) (isCall isBlocking : bool)
         (s : kernel_state) (t : list call_t),
    let new := new_calls (s, t) (handleInvocation cfg K X isCall isBlocking (s, t)) in
    forallb (sets_running (ksCurThread s)) new = true
    /\ (count_calls is_setThreadState new <= 1)%nat
    /\ (existsb is_setThreadState new = true -> existsb is_decode_call new = true).
Proof.
  intros E cfg K X isCall isBlocking s t new. subst new.
  handleInvocation_all_cases cfg K X isCall isBlocking s t; explicit_log;
    rewrite ?Z.eqb_refl;
    (split; [reflexivity|]); (split; [lia|]);
    first [discriminate | reflexivity].
Qed.

(** X14. When the capability lookup succeeds but lookupExtraCaps fails,
    [handleInvocation] reports the user error, delivers the fault that the
    lookup left in current_fault (it writes none itself) with
    handleFault(thread) exactly when [isBlocking], never calls the decoder,
    sends no reply and returns EXCEPTION_NONE. *)
Theorem handleInvocation_extra_caps_failure :
  forall {E} cfg K (X : @collaborators E) (isCall isBlocking : bool)
         (s : kernel_state) (t : list call_t)
         lu_ret s1 buffer s2 status s3,
    let thread := ksCurThread s in
    let info := messageInfoFromWord K (tcbRegisters (tcb_heap s thread) msgInfoRegister) in
    let cptr := tcbRegisters (tcb_heap s thread) capRegister in
    ext_lookupCapAndSlot X thread cptr s = (lu_ret, s1) ->
    lcs_status lu_ret = EXCEPTION_NONE ->
    ext_lookupIPCBuffer X false thread
      (debug_entry_state cfg
         (with_cap_type_tag (cap_get_capType (lcs_cap lu_ret))
                            (message_info_get_msgLabel K info)) s1)
    = (buffer, s2) ->
    ext_lookupExtraCaps X thread buffer info s2 = (status, s3) ->
    status <> EXCEPTION_NONE ->
    let new :=
      [Call_lookupCapAndSlot thread cptr;
       Call_lookupIPCBuffer false thread;
       Call_lookupExtraCaps thread buffer info;
       Call_userError "Lookup of extra caps failed." []]
      ++ (if isBlocking then [Call_handleFault thread] else []) in
    handleInvocation cfg K X isCall isBlocking (s, t)
    = Done EXCEPTION_NONE
        (if isBlocking then ext_handleFault X thread s3 else s3, t ++ new)
    /\ existsb is_decode_call new = false
    /\ existsb is_reply_call new = false.
Proof.
  intros E cfg K X isCall isBlocking s t lu_ret s1 buffer s2 status s3
         thread info cptr Hlu Hok Hbuf Hex Hst new.
  subst thread info cptr new.
  pose proof (handleInvocation_cases cfg K X isCall isBlocking s t) as Hrun.
  cbv zeta in Hrun. rewrite Hlu, Hok in Hrun. cbv beta iota in Hrun.
  rewrite Hbuf, Hex, (exception_eqb_neq _ _ Hst) in Hrun.
  cbv beta iota in Hrun. rewrite Hrun.
  destruct isBlocking; cbn; tidy_log; auto.
Qed.

Lemma handleInvocation_extra_caps_failure_witness :
  let X0 := Concrete.X
              {| Concrete.budget := true; Concrete.active_irq := 255;
                 Concrete.cap_and_slot :=
                   Concrete.cap_and_slot Concrete.default_answers;
                 Concrete.looked_up := Concrete.looked_up Concrete.default_answers;
                 Concrete.ipc_buffer := 24576;
                 Concrete.extra_caps_status := EXCEPTION_other 2;
                 Concrete.decode_status := EXCEPTION_NONE;
                 Concrete.vm_fault_status := EXCEPTION_NONE;
                 Concrete.is_ready := true |} in
  handleInvocation Concrete.cfg Concrete.K X0 true true (Concrete.idle_state, [])
  = Done EXCEPTION_NONE
      (Concrete.idle_state,
       [Call_lookupCapAndSlot 4096 17;
        Call_lookupIPCBuffer false 4096;
        Call_lookupExtraCaps 4096 24576 2;
        Call_userError "Lookup of extra caps failed." [];
        Call_handleFault 4096]).
Proof.
  intros X0.
  refine (proj1 (handleInvocation_extra_caps_failure Concrete.cfg Concrete.K X0
                   true true Concrete.idle_state []
                   (Concrete.cap_and_slot Concrete.default_answers)
                   Concrete.idle_state 24576 Concrete.idle_state
                   (EXCEPTION_other 2) Concrete.idle_state _ _ _ _ _));
    try reflexivity.
  discriminate.
Defined.

(** X15. When the decoder returns EXCEPTION_SYSCALL_ERROR, [handleInvocation]
    sends the error reply with replyFromKernel_error(thread) exactly when
    [isCall] and otherwise drops the error; it does not look at the
    thread's state, calls no setThreadState, and returns EXCEPTION_NONE. *)
Theorem handleInvocation_syscall_error :
  forall {E} cfg K (X : @collaborators E) (isCall isBlocking : bool)
         (s : kernel_state) (t : list call_t) (s4 : kernel_state)
         (log : list call_t),
    decoder_returns cfg K X isCall isBlocking s EXCEPTION_SYSCALL_ERROR s4 log ->
    let thread := ksCurThread s in
    handleInvocation cfg K X isCall isBlocking (s, t)
    = Done EXCEPTION_NONE
        (if isCall then ext_replyFromKernel_error X thread s4 else s4,
         t ++ log ++ (if isCall then [Call_replyFromKernel_error thread]
                      else [])).
Proof.
  intros E cfg K X isCall isBlocking s t s4 log Hdec thread.
  rewrite (handleInvocation_decoded cfg K X isCall isBlocking s t
             EXCEPTION_SYSCALL_ERROR s4 log Hdec).
  cbn. fold thread. destruct isCall; [reflexivity|].
  now rewrite app_nil_r.
Qed.

Lemma handleInvocation_syscall_error_witness :
  let X0 := Concrete.X (Concrete.with_decode_status EXCEPTION_SYSCALL_ERROR
                          Concrete.default_answers) in
  let log := [Call_lookupCapAndSlot 4096 17;
              Call_lookupIPCBuffer false 4096;
              Call_lookupExtraCaps 4096 24576 2;
              Call_decodeInvocation 0 2 17 20480 Concrete.endpoint_ok []
                true true 24576] in
  handleInvocation Concrete.cfg Concrete.K X0 true true (Concrete.idle_state, [])
  = Done EXCEPTION_NONE
      (Concrete.idle_state, log ++ [Call_replyFromKernel_error 4096]).
Proof.
  intros X0 log.
  apply (handleInvocation_syscall_error Concrete.cfg Concrete.K X0 true true
           Concrete.idle_state [] Concrete.idle_state log).
  unfold decoder_returns.
  exists (Concrete.cap_and_slot Concrete.default_answers),
         Concrete.idle_state, 24576, Concrete.idle_state, Concrete.idle_state.
  repeat split; reflexivity.
Defined.

(** ** More on yield and on the dispatcher *)

Section SwitchFacts.

Context {E : Type} (cfg : build_config) (K : kernel_constants)
        (X : @collaborators E).








Lemma handleSyscall_switch_calls syscall :
  only_calls is_switch_call (handleSyscall_switch cfg K X syscall).
Proof.
  unfold handleSyscall_switch.
  destruct syscall;
    unfold handleInvocation, handleReply, handleRecv, handleYield, debug_entry;
    only_calls_auto.
Qed.

(** Only an invocation can report preemption. *)
Lemma handleSyscall_switch_preempted syscall (m m' : @machine E) :
  handleSyscall_switch cfg K X syscall m = Done EXCEPTION_PREEMPTED m' ->
  is_invocation_syscall syscall = true.
Proof.
  destruct syscall; try reflexivity; intros Hsw; exfalso; revert Hsw;
    unfold handleSyscall_switch; rewrite ?run_bind;
    try (unfold fail; discriminate).
  - destruct (handleRecv X true _); discriminate.
  - destruct (handleReply K X _); discriminate.
  - destruct (handleReply K X _); [|discriminate].
    rewrite run_bind. destruct (handleRecv X true _); discriminate.
  - destruct (handleRecv X false _); discriminate.
  - destruct (handleYield X _); discriminate.
Qed.

End SwitchFacts.




Lemma count_calls_app P (a b : list call_t) :
  count_calls P (a ++ b) = (count_calls P a + count_calls P b)%nat.
Proof. unfold count_calls. now rewrite filter_app, length_app. Qed.

Lemma forallb_excludes (Q P : call_t -> bool) (l : list call_t) :
  (forall c, Q c = true -> P c = false) ->
  forallb Q l = true ->
  count_calls P l = 0%nat /\ existsb P l = false.
Proof.
  intros HQP. unfold count_calls.
  induction l as [|c l IH]; cbn; [auto|].
  intros H. apply andb_true_iff in H. destruct H as [Hc Hl].
  rewrite (HQP c Hc). cbn. auto.
Qed.

Section DispatchLog.

Context {E : Type} (cfg : build_config) (K : kernel_constants)
        (X : @collaborators E).

(** The shape of the log of any run of [handleSyscall]: the budget gate, the
    calls of the switch, and an ending. *)
Lemma handleSyscall_log syscall (s : @kernel_state E) t :
  exists body ending,
    new_calls (s, t) (handleSyscall cfg K X syscall (s, t))
    = [Call_updateTimestamp; Call_checkBudget] ++ body ++ ending
    /\ forallb is_switch_call body = true
    /\ count_calls is_budget_gate ending = 0%nat
    /\ (count_calls is_getActiveIRQ ending <= 1)%nat
    /\ (existsb is_interrupt_drain ending = true ->
        is_invocation_syscall syscall = true).
Proof.
  destruct (ext_checkBudget X
              (ext_updateTimestamp X
                 (debug_entry_state cfg
                    (fun e => with_syscall_no syscall
                                (with_path Debug_Syscall e)) s)))
    as [[|] s2] eqn:Hb.
  - rewrite (handleSyscall_with_budget cfg K X syscall s t s2 Hb).
    destruct (handleSyscall_switch_calls cfg K X syscall
                (s2, t ++ [Call_updateTimestamp; Call_checkBudget]))
      as (body & Hlog & Hbody).
    destruct (handleSyscall_switch cfg K X syscall
                (s2, t ++ [Call_updateTimestamp; Call_checkBudget]))
      as [status [s3 t3] | why [s3 t3]] eqn:Hsw; cbn in Hlog; subst t3.
    + destruct (exception_eqb status EXCEPTION_PREEMPTED) eqn:Hpre.
      * apply exception_eqb_eq in Hpre. subst status.
        apply handleSyscall_switch_preempted in Hsw.
        destruct (ext_getActiveIRQ X s3) as [irq s4].
        destruct (irq =? irqInvalid K).
        -- exists body, [Call_getActiveIRQ; Call_schedule; Call_activateThread].
           split; [apply new_calls_app; cbn; tidy_log; reflexivity|].
           cbn. repeat split; auto.
        -- exists body, [Call_getActiveIRQ; Call_handleInterrupt irq;
                         Call_schedule; Call_activateThread].
           split; [apply new_calls_app; cbn; tidy_log; reflexivity|].
           cbn. repeat split; auto.
      * exists body, [Call_schedule; Call_activateThread].
        split; [apply new_calls_app; cbn; tidy_log; reflexivity|].
        cbn. repeat split; auto. discriminate.
    + exists body, [].
      split; [apply new_calls_app; cbn; tidy_log; now rewrite app_nil_r|].
      cbn. repeat split; auto. discriminate.
  - rewrite (handleSyscall_deferred cfg K X syscall s t s2 Hb).
    exists [], [Call_setThreadState (ksCurThread s2) ThreadState_Restart;
                Call_schedule; Call_activateThread].
    split; [apply new_calls_app; reflexivity|].
    cbn. repeat split; auto. discriminate.
Qed.

End DispatchLog.

(** X18. Every run of [handleSyscall], whatever the opcode and whether or
    not it is stopped later, begins with updateTimestamp and then
    checkBudget, and calls neither of them again: time is accounted and the
    budget consulted exactly once per system call, before anything else. *)
Theorem handleSyscall_gate_comes_first_and_once :
  forall {E} cfg K (X : @collaborators E) (syscall : syscall_t)
         (s : kernel_state) (t : list call_t),
    let new := new_calls (s, t) (handleSyscall cfg K X syscall (s, t)) in
    firstn 2 new = [Call_updateTimestamp; Call_checkBudget]
    /\ count_calls is_budget_gate new = 2%nat.
Proof.
  intros E cfg K X syscall s t new. subst new.
  destruct (handleSyscall_log cfg K X syscall s t)
    as (body & ending & -> & Hbody & Hgate & _).
  split; [reflexivity|].
  rewrite !count_calls_app, Hgate.
  destruct (forallb_excludes is_switch_call is_budget_gate body) as [-> _];
    [|exact Hbody|reflexivity].
  intros c Hc. destruct c; try reflexivity; discriminate.
Qed.

(** X19. [handleSyscall] polls the interrupt controller (getActiveIRQ,
    handleInterrupt) only for the three invocation opcodes SysSend,
    SysNBSend and SysCall, and then getActiveIRQ is called at most once;
    receives, replies, yields, invalid opcodes and deferred requests never
    touch a pending interrupt. *)
Theorem handleSyscall_drains_interrupts_only_for_invocations :
  forall {E} cfg K (X : @collaborators E) (syscall : syscall_t)
         (s : kernel_state) (t : list call_t),
    let new := new_calls (s, t) (handleSyscall cfg K X syscall (s, t)) in
    (count_calls is_getActiveIRQ new <= 1)%nat
    /\ (is_invocation_syscall syscall = false ->
        existsb is_interrupt_drain new = false).
Proof.
  intros E cfg K X syscall s t new. subst new.
  destruct (handleSyscall_log cfg K X syscall s t)
    as (body & ending & -> & Hbody & _ & Honce & Hinv).
  assert (Hnone : forall P, (forall c, is_switch_call c = true -> P c = false) ->
                            count_calls P body = 0%nat /\ existsb P body = false).
  { intros P HP. now apply (forallb_excludes is_switch_call P body). }
  split.
  - rewrite !count_calls_app.
    destruct (Hnone is_getActiveIRQ) as [-> _];
      [intros c Hc; destruct c; try reflexivity; discriminate|].
    cbn. exact Honce.
  - intros Hsys. rewrite !existsb_app.
    destruct (Hnone is_interrupt_drain) as [_ ->];
      [intros c Hc; destruct c; try reflexivity; discriminate|].
    cbn. destruct (existsb is_interrupt_drain ending); [|reflexivity].
    rewrite Hinv in Hsys by reflexivity. discriminate.
Qed.

(** X20. Of the three invocation opcodes only SysNBSend drops an invalid
    capability silently.  With budget and a failing lookupCapAndSlot,
    [handleSyscall] delivers the capability fault with handleFault for
    SysSend and SysCall and delivers nothing for SysNBSend; in all three
    cases no reply is sent (not even for SysCall), the decoder is not
    called, and the run ends with schedule and activateThread. *)
Theorem handleSyscall_invalid_cap_is_silent_only_for_NBSend :
  forall {E} cfg K (X : @collaborators E) (syscall : syscall_t)
         (s : kernel_state) (t : list call_t) s2 lu_ret s3,
    is_invocation_syscall syscall = true ->
    ext_checkBudget X
      (ext_updateTimestamp X
         (debug_entry_state cfg
            (fun e => with_syscall_no syscall (with_path Debug_Syscall e)) s))
    = (true, s2) ->
    let thread := ksCurThread s2 in
    let info := messageInfoFromWord K (tcbRegisters (tcb_heap s2 thread) msgInfoRegister) in
    let cptr := tcbRegisters (tcb_heap s2 thread) capRegister in
    ext_lookupCapAndSlot X thread cptr s2 = (lu_ret, s3) ->
    lcs_status lu_ret <> EXCEPTION_NONE ->
    let blocking := match syscall with SysNBSend => false | _ => true end in
    let faulted :=
      set_current_fault (fault_cap_fault cptr false)
        (debug_entry_state cfg
           (with_cap_type_tag (cap_get_capType (lcs_cap lu_ret))
                              (message_info_get_msgLabel K info)) s3) in
    handleSyscall cfg K X syscall (s, t)
    = Done EXCEPTION_NONE
        (ext_activateThread X
           (ext_schedule X
              (if blocking then ext_handleFault X thread faulted else faulted)),
         t ++ [Call_updateTimestamp; Call_checkBudget;
               Call_lookupCapAndSlot thread cptr;
               Call_userError "Invocation of invalid cap #%lu." [cptr]]
           ++ (if blocking then [Call_handleFault thread] else [])
           ++ [Call_schedule; Call_activateThread]).
Proof.
  intros E cfg K X syscall s t s2 lu_ret s3 Hinv Hb thread info cptr Hlu Hst
         blocking faulted.
  subst thread info cptr blocking faulted.
  rewrite (handleSyscall_with_budget cfg K X syscall s t s2 Hb).
  destruct syscall; try discriminate; cbn [handleSyscall_switch];
    match goal with
    | |- context [handleInvocation cfg K X ?c ?b (s2, ?t2)] =>
        pose proof (handleInvocation_cases cfg K X c b s2 t2) as Hrun
    end;
    cbv zeta in Hrun; rewrite Hlu in Hrun;
    rewrite (exception_eqb_neq _ _ Hst) in Hrun; cbn [negb] in Hrun;
    cbv beta iota in Hrun; rewrite Hrun; cbn; tidy_log; reflexivity.
Qed.

Lemma handleSyscall_invalid_cap_is_silent_only_for_NBSend_witness :
  let bad := {| lcs_status := EXCEPTION_other 2; lcs_cap := cap_null_cap;
                lcs_slot := 0 |} in
  let X0 := Concrete.X (Concrete.with_cap_and_slot bad Concrete.default_answers) in
  let faulted := set_current_fault (fault_cap_fault 17 false) Concrete.idle_state in
  handleSyscall Concrete.cfg Concrete.K X0 SysNBSend (Concrete.idle_state, [])
  = Done EXCEPTION_NONE
      (faulted,
       [Call_updateTimestamp; Call_checkBudget;
        Call_lookupCapAndSlot 4096 17;
        Call_userError "Invocation of invalid cap #%lu." [17];
        Call_schedule; Call_activateThread])
  /\ handleSyscall Concrete.cfg Concrete.K X0 SysCall (Concrete.idle_state, [])
     = Done EXCEPTION_NONE
         (faulted,
          [Call_updateTimestamp; Call_checkBudget;
           Call_lookupCapAndSlot 4096 17;
           Call_userError "Invocation of invalid cap #%lu." [17];
           Call_handleFault 4096;
           Call_schedule; Call_activateThread]).
Proof.
  intros bad X0 faulted. split.
  - apply (handleSyscall_invalid_cap_is_silent_only_for_NBSend
             Concrete.cfg Concrete.K X0 SysNBSend Concrete.idle_state []
             Concrete.idle_state bad Concrete.idle_state);
      [reflexivity | reflexivity | reflexivity | discriminate].
  - apply (handleSyscall_invalid_cap_is_silent_only_for_NBSend
             Concrete.cfg Concrete.K X0 SysCall Concrete.idle_state []
             Concrete.idle_state bad Concrete.idle_state);
      [reflexivity | reflexivity | reflexivity | discriminate].
Defined.

(** ** The fault and interrupt entries with budget *)

(** X21. With budget, and for a number that no diagnostic block serves,
    [handleUnknownSyscall] overwrites current_fault with the unknown-syscall
    fault carrying the number [w] (whatever updateTimestamp and checkBudget
    left there), delivers it to the current thread and then calls schedule
    and activateThread; the thread is not marked Restart. *)
Theorem handleUnknownSyscall_with_budget_raises_fault :
  forall {E} cfg K (X : @collaborators E) (w : word_t)
         (s : kernel_state) (t : list call_t) (s2 : kernel_state),
    is_diagnostic_syscall cfg K w = false ->
    ext_checkBudget X
      (ext_updateTimestamp X
         (debug_entry_state cfg
            (fun e => with_word w (with_path Debug_UnknownSyscall e)) s))
    = (true, s2) ->
    let faulted := set_current_fault (fault_unknown_syscall w) s2 in
    handleUnknownSyscall cfg K X w (s, t)
    = Done EXCEPTION_NONE
        (ext_activateThread X
           (ext_schedule X (ext_handleFault X (ksCurThread s2) faulted)),
         t ++ [Call_updateTimestamp; Call_checkBudget;
               Call_handleFault (ksCurThread s2);
               Call_schedule; Call_activateThread])
    /\ current_fault faulted = fault_unknown_syscall w.
Proof.
  intros E cfg K X w s t s2 Hd Hb faulted. subst faulted.
  split; [|reflexivity].
  unfold handleUnknownSyscall, or_else.
  rewrite run_bind, (debug_block_falls_through cfg K X _ _ _ Hd).
  rewrite run_bind, (dangerous_block_falls_through cfg K X _ _ Hd).
  rewrite run_bind, (benchmark_block_falls_through cfg K X _ _ Hd).
  run. rewrite Hb; cbn. tidy_log. reflexivity.
Qed.

Lemma handleUnknownSyscall_with_budget_raises_fault_witness :
  handleUnknownSyscall Concrete.cfg Concrete.K
    (Concrete.X Concrete.default_answers) 1234 (Concrete.idle_state, [])
  = Done EXCEPTION_NONE
      (set_current_fault (fault_unknown_syscall 1234) Concrete.idle_state,
       [Call_updateTimestamp; Call_checkBudget; Call_handleFault 4096;
        Call_schedule; Call_activateThread]).
Proof.
  apply (handleUnknownSyscall_with_budget_raises_fault Concrete.cfg Concrete.K
           (Concrete.X Concrete.default_answers) 1234 Concrete.idle_state []
           Concrete.idle_state); reflexivity.
Defined.

(** X22. With budget, [handleUserLevelFault] overwrites current_fault with
    the user-exception fault built from its two words, delivers it to the
    current thread and then calls schedule and activateThread. *)
Theorem handleUserLevelFault_with_budget_raises_fault :
  forall {E} cfg (X : @collaborators E) (w_a w_b : word_t)
         (s : kernel_state) (t : list call_t) (s2 : kernel_state),
    ext_checkBudget X
      (ext_updateTimestamp X
         (debug_entry_state cfg
            (fun e => with_number_code w_a w_b
                        (with_path Debug_UserLevelFault e)) s))
    = (true, s2) ->
    let faulted := set_current_fault (fault_user_exception w_a w_b) s2 in
    handleUserLevelFault cfg X w_a w_b (s, t)
    = Done EXCEPTION_NONE
        (ext_activateThread X
           (ext_schedule X (ext_handleFault X (ksCurThread s2) faulted)),
         t ++ [Call_updateTimestamp; Call_checkBudget;
               Call_handleFault (ksCurThread s2);
               Call_schedule; Call_activateThread])
    /\ current_fault faulted = fault_user_exception w_a w_b.
Proof.
  intros E cfg X w_a w_b s t s2 Hb faulted. subst faulted.
  split; [|reflexivity].
  unfold handleUserLevelFault. rewrite run_bind, run_debug_entry.
  run. rewrite Hb; cbn. tidy_log. reflexivity.
Qed.

Lemma handleUserLevelFault_with_budget_raises_fault_witness :
  handleUserLevelFault Concrete.cfg (Concrete.X Concrete.default_answers) 3 9
    (Concrete.idle_state, [])
  = Done EXCEPTION_NONE
      (set_current_fault (fault_user_exception 3 9) Concrete.idle_state,
       [Call_updateTimestamp; Call_checkBudget; Call_handleFault 4096;
        Call_schedule; Call_activateThread]).
Proof.
  apply (handleUserLevelFault_with_budget_raises_fault Concrete.cfg
           (Concrete.X Concrete.default_answers) 3 9 Concrete.idle_state []
           Concrete.idle_state); reflexivity.
Defined.

(** X23. With budget, [handleVMFaultEvent] calls handleVMFault for the
    current thread and delivers a fault with handleFault exactly when
    handleVMFault returns a status other than EXCEPTION_NONE; it writes no
    fault itself (the fault delivered is the one handleVMFault left), and it
    then calls schedule and activateThread and returns EXCEPTION_NONE
    whatever the status was. *)
Theorem handleVMFaultEvent_with_budget :
  forall {E} cfg (X : @collaborators E) (ty : vm_fault_type_t)
         (s : kernel_state) (t : list call_t) s2 status s3,
    ext_checkBudget X
      (ext_updateTimestamp X
         (debug_entry_state cfg
            (fun e => with_fault_type ty (with_path Debug_VMFault e)) s))
    = (true, s2) ->
    ext_handleVMFault X (ksCurThread s2) ty s2 = (status, s3) ->
    let failed := negb (exception_eqb status EXCEPTION_NONE) in
    handleVMFaultEvent cfg X ty (s, t)
    = Done EXCEPTION_NONE
        (ext_activateThread X
           (ext_schedule X
              (if failed then ext_handleFault X (ksCurThread s3) s3 else s3)),
         t ++ [Call_updateTimestamp; Call_checkBudget;
               Call_handleVMFault (ksCurThread s2) ty]
           ++ (if failed then [Call_handleFault (ksCurThread s3)] else [])
           ++ [Call_schedule; Call_activateThread]).
Proof.
  intros E cfg X ty s t s2 status s3 Hb Hvm failed. subst failed.
  unfold handleVMFaultEvent. rewrite run_bind, run_debug_entry.
  run. rewrite Hb; cbn. rewrite Hvm; cbn.
  destruct (exception_eqb status EXCEPTION_NONE); cbn; tidy_log; reflexivity.
Qed.

Lemma handleVMFaultEvent_with_budget_witness :
  let X0 := Concrete.X
              {| Concrete.budget := true; Concrete.active_irq := 255;
                 Concrete.cap_and_slot :=
                   Concrete.cap_and_slot Concrete.default_answers;
                 Concrete.looked_up := Concrete.looked_up Concrete.default_answers;
                 Concrete.ipc_buffer := 24576;
                 Concrete.extra_caps_status := EXCEPTION_NONE;
                 Concrete.decode_status := EXCEPTION_NONE;
                 Concrete.vm_fault_status := EXCEPTION_other 1;
                 Concrete.is_ready := true |} in
  handleVMFaultEvent Concrete.cfg X0 1 (Concrete.idle_state, [])
  = Done EXCEPTION_NONE
      (Concrete.idle_state,
       [Call_updateTimestamp; Call_checkBudget; Call_handleVMFault 4096 1;
        Call_handleFault 4096; Call_schedule; Call_activateThread])
  /\ handleVMFaultEvent Concrete.cfg (Concrete.X Concrete.default_answers) 1
       (Concrete.idle_state, [])
     = Done EXCEPTION_NONE
         (Concrete.idle_state,
          [Call_updateTimestamp; Call_checkBudget; Call_handleVMFault 4096 1;
           Call_schedule; Call_activateThread]).
Proof.
  intros X0. split.
  - apply (handleVMFaultEvent_with_budget Concrete.cfg X0 1 Concrete.idle_state []
             Concrete.idle_state (EXCEPTION_other 1) Concrete.idle_state);
      reflexivity.
  - apply (handleVMFaultEvent_with_budget Concrete.cfg
             (Concrete.X Concrete.default_answers) 1 Concrete.idle_state []
             Concrete.idle_state EXCEPTION_NONE Concrete.idle_state);
      reflexivity.
Defined.



(** ** The diagnostic system calls *)

Section Diagnostics.

Context {E : Type} (cfg : build_config) (K : kernel_constants)
        (X : @collaborators E).

Lemma only_calls_or_else P (c : @kernel E (option exception_t)) k :
  only_calls P c -> only_calls P k -> only_calls P (or_else c k).
Proof.
  intros Hc Hk. unfold or_else. apply only_calls_bind; [exact Hc|].
  intros [status|]; [apply only_calls_ret | exact Hk].
Qed.

Lemma only_calls_or_else_stop P (c : @kernel E (option exception_t)) k :
  only_calls P c -> never_falls_through c -> only_calls P (or_else c k).
Proof.
  intros Hc Hnever m. unfold or_else, bind.
  destruct (Hc m) as (new & Hlog & Hall).
  destruct (c m) as [[status|] m' | why m'] eqn:Hrun; cbn in *.
  - exists new. now split.
  - exfalso. exact (Hnever m m' Hrun).
  - exists new. now split.
Qed.

Lemma only_calls_ifdef P b (c : @kernel E (option exception_t)) :
  only_calls P c -> only_calls P (ifdef b c).
Proof. intros Hc. destruct b; cbn; [exact Hc | apply only_calls_ret]. Qed.

Lemma debug_syscalls_calls w :
  only_calls is_diagnostic_call (debug_syscalls K X w).
Proof. unfold debug_syscalls. only_calls_auto. Qed.

Lemma dangerous_syscalls_calls w :
  only_calls is_diagnostic_call (dangerous_syscalls K X w).
Proof. unfold dangerous_syscalls. only_calls_auto. Qed.

Lemma benchmark_syscalls_calls w :
  only_calls is_diagnostic_call (benchmark_syscalls K X w).
Proof. unfold benchmark_syscalls. only_calls_auto. Qed.

Lemma debug_block_calls w :
  only_calls is_diagnostic_call
    (ifdef (DEBUG cfg)
       (bind (debug_entry cfg
                (fun e => with_word w (with_path Debug_UnknownSyscall e)))
             (fun _ => debug_syscalls K X w))).
Proof.
  apply only_calls_ifdef. apply only_calls_bind.
  - unfold debug_entry. only_calls_auto.
  - intros _. apply debug_syscalls_calls.
Qed.

(** Case analysis on every branch and every answer of a collaborator in the
    goal. *)
Ltac split_branches :=
  repeat (cbn;
          match goal with
          | |- context [let (_, _) := ?e in _] => destruct e
          | |- context [if ?b then _ else _] => destruct b
          | |- context [match ?c with _ => _ end] => destruct c
          end).

Lemma debug_block_never_falls w :
  DEBUG cfg = true ->
  (w =? SysDebugPutChar K) || (w =? SysDebugHalt K) ||
  (w =? SysDebugSnapshot K) || (w =? SysDebugCapIdentify K) ||
  (w =? SysDebugNameThread K) = true ->
  never_falls_through
    (ifdef (DEBUG cfg)
       (bind (debug_entry cfg
                (fun e => with_word w (with_path Debug_UnknownSyscall e)))
             (fun _ => debug_syscalls K X w))).
Proof.
  intros Hd Hw [s t] m'. unfold debug_entry. rewrite Hd. cbn [ifdef when].
  unfold debug_syscalls. run.
  destruct (w =? SysDebugPutChar K); [discriminate|].
  destruct (w =? SysDebugHalt K); [discriminate|].
  destruct (w =? SysDebugSnapshot K); [discriminate|].
  destruct (w =? SysDebugCapIdentify K);
    [destruct (ext_lookupCapAndSlot X _ _ _); discriminate|].
  destruct (w =? SysDebugNameThread K); [|discriminate Hw].
  destruct (ext_lookupCapAndSlot X _ _ _) as [lu_ret s1]; cbn.
  destruct (cap_get_capType (lcs_cap lu_ret)); cbn; try discriminate.
  destruct (ext_lookupIPCBuffer X true _ _) as [buffer s2]; cbn.
  destruct (wrap (buffer + sizeof_word_t) =? 0); cbn; [discriminate|].
  destruct (negb _); cbn; discriminate.
Qed.

Lemma dangerous_block_never_falls w :
  DANGEROUS_CODE_INJECTION cfg = true ->
  (w =? SysDebugRun K) = true ->
  never_falls_through
    (ifdef (DANGEROUS_CODE_INJECTION cfg) (dangerous_syscalls K X w)).
Proof.
  intros Hd Hw [s t] m'. rewrite Hd. cbn [ifdef].
  unfold dangerous_syscalls. rewrite Hw. run. discriminate.
Qed.

Lemma benchmark_block_never_falls w :
  (0 <? CONFIG_MAX_NUM_TRACE_POINTS cfg) = true ->
  (w =? SysBenchmarkResetLog K) || (w =? SysBenchmarkDumpLog K) ||
  (w =? SysBenchmarkLogSize K) || (w =? SysBenchmarkFinalizeLog K) = true ->
  never_falls_through
    (ifdef (0 <? CONFIG_MAX_NUM_TRACE_POINTS cfg) (benchmark_syscalls K X w)).
Proof.
  intros Hd Hw [s t] m'. rewrite Hd. cbn [ifdef].
  unfold benchmark_syscalls. run.
  destruct (w =? SysBenchmarkResetLog K); [discriminate|].
  destruct (w =? SysBenchmarkDumpLog K).
  - destruct (ext_lookupIPCBuffer X true _ _) as [buffer s1]; cbn.
    destruct (buffer =? 0); cbn; [discriminate|].
    split_branches; discriminate.
  - destruct (w =? SysBenchmarkLogSize K); [discriminate|].
    destruct (w =? SysBenchmarkFinalizeLog K); [discriminate|].
    discriminate Hw.
Qed.

(** A diagnostic call never reaches the budget gate. *)
Lemma handleUnknownSyscall_diagnostic_calls w :
  is_diagnostic_syscall cfg K w = true ->
  only_calls is_diagnostic_call (handleUnknownSyscall cfg K X w).
Proof.
  unfold is_diagnostic_syscall, handleUnknownSyscall. intros Hdiag.
  destruct (DEBUG cfg && _) eqn:H1.
  { apply andb_true_iff in H1. destruct H1 as [Hd Hw].
    apply only_calls_or_else_stop;
      [apply debug_block_calls | now apply debug_block_never_falls]. }
  apply only_calls_or_else; [apply debug_block_calls|].
  destruct (DANGEROUS_CODE_INJECTION cfg && _) eqn:H2.
  { apply andb_true_iff in H2. destruct H2 as [Hd Hw].
    apply only_calls_or_else_stop;
      [apply only_calls_ifdef, dangerous_syscalls_calls
      | now apply dangerous_block_never_falls]. }
  apply only_calls_or_else;
    [apply only_calls_ifdef, dangerous_syscalls_calls|].
  cbn in Hdiag. apply andb_true_iff in Hdiag. destruct Hdiag as [Hd Hw].
  apply only_calls_or_else_stop;
    [apply only_calls_ifdef, benchmark_syscalls_calls
    | now apply benchmark_block_never_falls].
Qed.

End Diagnostics.

(** X25. A system call that one of the diagnostic blocks kept by the build
    serves (debug, code injection, benchmark) is handled entirely inside
    that block: whatever the collaborators answer, the run makes only
    diagnostic calls (putchar, printf, capDL, the two lookups, userError,
    setThreadName, the injected code) and so never accounts time, never
    consults the budget, never delivers a fault, never changes a thread
    state and never calls schedule or activateThread. *)
Theorem handleUnknownSyscall_diagnostic_bypasses_gate_and_scheduler :
  forall {E} cfg K (X : @collaborators E) (w : word_t)
         (s : kernel_state) (t : list call_t),
    is_diagnostic_syscall cfg K w = true ->
    let new := new_calls (s, t) (handleUnknownSyscall cfg K X w (s, t)) in
    forallb is_diagnostic_call new = true
    /\ existsb is_budget_gate new = false
    /\ existsb is_schedule_or_activate new = false
    /\ existsb is_fault_delivery new = false
    /\ existsb is_setThreadState new = false.
Proof.
  intros E cfg K X w s t Hdiag new. subst new.
  pose proof (only_calls_new_calls is_diagnostic_call
                (handleUnknownSyscall cfg K X w) (s, t)
                (handleUnknownSyscall_diagnostic_calls cfg K X w Hdiag)) as Hall.
  split; [exact Hall|].
  repeat split;
    (eapply (forallb_excludes is_diagnostic_call); [|exact Hall]);
    intros c Hc; destruct c; try reflexivity; discriminate.
Qed.

Lemma handleUnknownSyscall_diagnostic_bypasses_gate_and_scheduler_witness :
  new_calls (Concrete.idle_state, [])
    (handleUnknownSyscall Concrete.debug_cfg Concrete.K
       (Concrete.X Concrete.default_answers) (SysDebugSnapshot Concrete.K)
       (Concrete.idle_state, []))
  = [Call_printf "Debug snapshot syscall from user thread %p\n" [4096];
     Call_capDL]
  /\ forallb is_diagnostic_call
       (new_calls (Concrete.idle_state, [])
          (handleUnknownSyscall Concrete.debug_cfg Concrete.K
             (Concrete.X Concrete.default_answers) (SysDebugSnapshot Concrete.K)
             (Concrete.idle_state, []))) = true.
Proof.
  split; [reflexivity|].
  apply (handleUnknownSyscall_diagnostic_bypasses_gate_and_scheduler
           Concrete.debug_cfg Concrete.K (Concrete.X Concrete.default_answers)
           (SysDebugSnapshot Concrete.K) Concrete.idle_state []).
  reflexivity.
Defined.

(** *** SysDebugNameThread *)





(** *** SysBenchmarkDumpLog *)

Section DumpLog.

Context {E : Type} (cfg : build_config) (K : kernel_constants)
        (X : @collaborators E).




End DumpLog.





(** * Properties of the FPU helpers *)

Module FpuFacts.

Import Fpu.

Lemma wrap_small x : 0 <= x < 2 ^ 64 -> wrap x = x.
Proof. intros H. unfold wrap, wordBits. now apply Z.mod_small. Qed.

Lemma store_le_other n addr v m a :
  a < addr \/ addr + n <= a -> store_le n addr v m a = m a.
Proof.
  intros H. unfold store_le.
  destruct (Z.leb_spec addr a); destruct (Z.ltb_spec a (addr + n));
    cbn; try reflexivity; lia.
Qed.

Lemma store_le_same n addr v m a :
  addr <= a < addr + n ->
  store_le n addr v m a = Z.land (Z.shiftr v (8 * (a - addr))) 255.
Proof.
  intros H. unfold store_le.
  destruct (Z.leb_spec addr a); destruct (Z.ltb_spec a (addr + n));
    cbn; try reflexivity; lia.
Qed.

(** A load reads back the bytes of a value. *)
Lemma load_le_bytes v n : forall addr k0 m,
  0 <= k0 ->
  (forall k, 0 <= k < Z.of_nat n ->
             m (addr + k) = Z.land (Z.shiftr v (8 * (k0 + k))) 255) ->
  load_le n addr m = Z.shiftr v (8 * k0) mod 2 ^ (8 * Z.of_nat n).
Proof.
  induction n as [|n IH]; intros addr k0 m Hk0 Hbytes.
  - cbn. now rewrite Z.mod_1_r.
  - cbn [load_le].
    rewrite (IH (addr + 1) (k0 + 1) m) by
      (try lia; intros k Hk;
       replace (addr + 1 + k) with (addr + (1 + k)) by lia;
       rewrite Hbytes by lia; do 2 f_equal; lia).
    replace (m addr) with (m (addr + 0)) by (f_equal; lia).
    rewrite Hbytes by lia. rewrite Z.add_0_r.
    change 255 with (Z.ones 8). rewrite Z.land_ones by lia.
    replace (8 * (k0 + 1)) with (8 * k0 + 8) by lia.
    rewrite <- Z.shiftr_shiftr by lia.
    set (x := Z.shiftr v (8 * k0)).
    rewrite Z.shiftr_div_pow2 by lia.
    replace (8 * Z.of_nat (S n)) with (8 + 8 * Z.of_nat n) by lia.
    rewrite Z.pow_add_r by lia.
    rewrite Z.rem_mul_r by lia.
    change (2 ^ 8) with 256. reflexivity.
Qed.

Lemma load_le_stored v n addr m :
  (forall k, 0 <= k < Z.of_nat n ->
             m (addr + k) = Z.land (Z.shiftr v (8 * k)) 255) ->
  0 <= v < 2 ^ (8 * Z.of_nat n) ->
  load_le n addr m = v.
Proof.
  intros Hbytes Hv.
  rewrite (load_le_bytes v n addr 0 m) by
    (try lia; intros k Hk; rewrite Hbytes by lia; do 2 f_equal; lia).
  rewrite Z.shiftr_0_r. now apply Z.mod_small.
Qed.

(** One [stp], read byte by byte. *)
Lemma stp_byte dest s i m a :
  0 <= dest -> 0 <= i -> dest + 16 * i + 32 <= 2 ^ 64 ->
  store_le 16 (wrap (dest + 16 * i + 16)) (q s (i + 1))
    (store_le 16 (wrap (dest + 16 * i)) (q s i) m) a
  = if (dest + 16 * i <=? a) && (a <? dest + 16 * i + 32)
    then FpuImage.byte_of (q s ((a - dest) / 16)) ((a - dest) mod 16)
    else m a.
Proof.
  intros Hdest Hi Htop.
  rewrite !wrap_small by lia.
  unfold store_le, FpuImage.byte_of.
  destruct (Z.leb_spec (dest + 16 * i + 16) a);
    destruct (Z.ltb_spec a (dest + 16 * i + 16 + 16));
    destruct (Z.leb_spec (dest + 16 * i) a);
    destruct (Z.ltb_spec a (dest + 16 * i + 16));
    destruct (Z.ltb_spec a (dest + 16 * i + 32));
    cbn [andb]; try reflexivity; try lia.
  - replace ((a - dest) / 16) with (i + 1)
      by (apply (Z.div_unique _ 16 _ (a - dest - 16 * (i + 1))); lia).
    replace ((a - dest) mod 16) with (a - (dest + 16 * i + 16))
      by (apply (Z.mod_unique _ 16 (i + 1)); lia).
    reflexivity.
  - replace ((a - dest) / 16) with i
      by (apply (Z.div_unique _ 16 _ (a - dest - 16 * i)); lia).
    replace ((a - dest) mod 16) with (a - (dest + 16 * i))
      by (apply (Z.mod_unique _ 16 i); lia).
    reflexivity.
Qed.

(** A run of [stp] instructions, read byte by byte. *)
Lemma stps_byte dest s (l : list Z) : forall m a,
  0 <= dest ->
  (forall i, In i l -> 0 <= i /\ dest + 16 * i + 32 <= 2 ^ 64) ->
  fold_left (fun m i =>
               store_le 16 (wrap (dest + 16 * i + 16)) (q s (i + 1))
                 (store_le 16 (wrap (dest + 16 * i)) (q s i) m)) l m a
  = if existsb (fun i => (dest + 16 * i <=? a) && (a <? dest + 16 * i + 32)) l
    then FpuImage.byte_of (q s ((a - dest) / 16)) ((a - dest) mod 16)
    else m a.
Proof.
  induction l as [|i l IH]; intros m a Hdest Hl; [reflexivity|].
  cbn [fold_left existsb].
  rewrite IH by (try assumption; intros j Hj; apply Hl; now right).
  destruct (Hl i (or_introl eq_refl)) as [Hi Htop].
  rewrite stp_byte by assumption.
  destruct ((dest + 16 * i <=? a) && (a <? dest + 16 * i + 32));
    destruct (existsb _ l); reflexivity.
Qed.

Ltac pick_pair a dest k :=
  destruct (Z.lt_ge_cases a (dest + 16 * k + 32));
  [exists k; split;
   [cbn; repeat ((left; reflexivity) || right)
   | apply andb_true_iff; split; [apply Z.leb_le | apply Z.ltb_lt]; lia]
  |].

(** The sixteen pairs cover exactly the 512 bytes of the vector registers. *)
Lemma pairs_cover dest a :
  existsb (fun i => (dest + 16 * i <=? a) && (a <? dest + 16 * i + 32))
    FpuImage.pairs
  = (dest <=? a) && (a <? dest + 512).
Proof.
  apply eq_true_iff_eq.
  rewrite existsb_exists, andb_true_iff, Z.leb_le, Z.ltb_lt.
  split.
  - intros (i & Hin & Hrange).
    apply andb_true_iff in Hrange. destruct Hrange as [Hlo Hhi].
    apply Z.leb_le in Hlo. apply Z.ltb_lt in Hhi.
    cbn in Hin.
    repeat (destruct Hin as [<- | Hin]; [lia|]). contradiction.
  - intros [Hlo Hhi].
    pick_pair a dest 0. pick_pair a dest 2. pick_pair a dest 4.
    pick_pair a dest 6. pick_pair a dest 8. pick_pair a dest 10.
    pick_pair a dest 12. pick_pair a dest 14. pick_pair a dest 16.
    pick_pair a dest 18. pick_pair a dest 20. pick_pair a dest 22.
    pick_pair a dest 24. pick_pair a dest 26. pick_pair a dest 28.
    pick_pair a dest 30. lia.
Qed.

(** What [saveFpuState] leaves in memory. *)
Lemma saveFpuState_image dest s a :
  0 <= dest -> dest + 520 <= 2 ^ 64 ->
  mem (saveFpuState dest s) a = FpuImage.image dest s a.
Proof.
  intros Hdest Htop.
  change (mem (saveFpuState dest s)) with
    (store_le 4 (wrap (dest + (16 * 32 + 4))) (fpcr s)
       (store_le 4 (wrap (dest + 16 * 32)) (fpsr s)
          (fold_left (fun m i =>
                        store_le 16 (wrap (dest + 16 * i + 16)) (q s (i + 1))
                          (store_le 16 (wrap (dest + 16 * i)) (q s i) m))
             FpuImage.pairs (mem s)))).
  rewrite !wrap_small by lia.
  unfold store_le at 1 2.
  rewrite stps_byte by
    (try assumption; intros i Hin; cbn in Hin;
     repeat (destruct Hin as [<- | Hin]; [lia|]); contradiction).
  rewrite pairs_cover.
  unfold FpuImage.image, FpuImage.byte_of.
  destruct (Z.leb_spec dest a); destruct (Z.ltb_spec a (dest + 512));
    destruct (Z.leb_spec (dest + 16 * 32) a);
    destruct (Z.ltb_spec a (dest + 16 * 32 + 4));
    destruct (Z.leb_spec (dest + (16 * 32 + 4)) a);
    destruct (Z.ltb_spec a (dest + (16 * 32 + 4) + 4));
    destruct (Z.leb_spec (dest + 512) a);
    destruct (Z.ltb_spec a (dest + 516));
    destruct (Z.leb_spec (dest + 516) a);
    destruct (Z.ltb_spec a (dest + 520));
    cbn [andb]; try reflexivity; try lia.
Qed.

(** A run of [ldp] instructions, read register by register. *)
Lemma ldps_register src (m : Z -> Z) (l : list Z) : forall (qf : Z -> Z) j,
  fold_left (fun (qf : Z -> Z) i =>
               fun j => if j =? i + 1 then load_le 16 (wrap (src + 16 * i + 16)) m
                        else if j =? i then load_le 16 (wrap (src + 16 * i)) m
                        else qf j) l qf j
  = if existsb (fun i => (j =? i) || (j =? i + 1)) l
    then load_le 16 (wrap (src + 16 * j)) m
    else qf j.
Proof.
  induction l as [|i l IH]; intros qf j; [reflexivity|].
  cbn [fold_left existsb]. rewrite IH.
  destruct (existsb _ l); [now rewrite orb_true_r|].
  rewrite orb_false_r.
  destruct (Z.eqb_spec j (i + 1)); destruct (Z.eqb_spec j i);
    cbn [orb]; try reflexivity; try lia;
    subst j; do 2 f_equal; lia.
Qed.

(** What [loadFpuState] leaves in the registers. *)
Lemma loadFpuState_registers src s :
  (forall j, 0 <= j < 32 ->
             q (loadFpuState src s) j = load_le 16 (wrap (src + 16 * j)) (mem s))
  /\ fpsr (loadFpuState src s) = load_le 4 (wrap (src + 16 * 32)) (mem s)
  /\ fpcr (loadFpuState src s) = load_le 4 (wrap (src + (16 * 32 + 4))) (mem s)
  /\ mem (loadFpuState src s) = mem s.
Proof.
  split; [|split; [|split]]; try reflexivity.
  intros j Hj.
  change (q (loadFpuState src s)) with
    (fold_left (fun (qf : Z -> Z) i =>
                  fun j => if j =? i + 1
                           then load_le 16 (wrap (src + 16 * i + 16)) (mem s)
                           else if j =? i
                           then load_le 16 (wrap (src + 16 * i)) (mem s)
                           else qf j) FpuImage.pairs (q s)).
  rewrite ldps_register.
  assert (Hcases : j = 0 \/ j = 1 \/ j = 2 \/ j = 3 \/ j = 4 \/ j = 5 \/ j = 6
                   \/ j = 7 \/ j = 8 \/ j = 9 \/ j = 10 \/ j = 11 \/ j = 12
                   \/ j = 13 \/ j = 14 \/ j = 15 \/ j = 16 \/ j = 17 \/ j = 18
                   \/ j = 19 \/ j = 20 \/ j = 21 \/ j = 22 \/ j = 23 \/ j = 24
                   \/ j = 25 \/ j = 26 \/ j = 27 \/ j = 28 \/ j = 29 \/ j = 30
                   \/ j = 31) by lia.
  repeat (destruct Hcases as [-> | Hcases]; [reflexivity|]).
  subst j. reflexivity.
Qed.

End FpuFacts.

(** X29. Restoring what was saved gives the registers back: after
    saveFpuState(dest), whatever happens to the registers as long as the 520
    bytes at [dest] are kept, loadFpuState(dest) puts back the thirty-two
    128-bit SIMD registers and the 32-bit FPSR and FPCR exactly as they were
    when saved.  Saving itself changes no FPU register and no memory outside
    those 520 bytes. *)
Theorem loadFpuState_restores_what_saveFpuState_saved :
  forall (s : Fpu.state) (dest : Z),
    0 <= dest -> dest + 520 <= 2 ^ 64 ->
    (forall i, 0 <= i < 32 -> 0 <= Fpu.q s i < 2 ^ 128) ->
    0 <= Fpu.fpsr s < 2 ^ 32 ->
    0 <= Fpu.fpcr s < 2 ^ 32 ->
    let saved := Fpu.saveFpuState dest s in
    (forall i, Fpu.q saved i = Fpu.q s i)
    /\ Fpu.fpsr saved = Fpu.fpsr s
    /\ Fpu.fpcr saved = Fpu.fpcr s
    /\ (forall a, a < dest \/ dest + 520 <= a -> Fpu.mem saved a = Fpu.mem s a)
    /\ forall later : Fpu.state,
        (forall a, dest <= a < dest + 520 -> Fpu.mem later a = Fpu.mem saved a) ->
        let restored := Fpu.loadFpuState dest later in
        (forall i, 0 <= i < 32 -> Fpu.q restored i = Fpu.q s i)
        /\ Fpu.fpsr restored = Fpu.fpsr s
        /\ Fpu.fpcr restored = Fpu.fpcr s
        /\ Fpu.mem restored = Fpu.mem later.
Proof.
  intros s dest Hdest Htop Hq Hfpsr Hfpcr saved.
  split; [reflexivity|]. split; [reflexivity|]. split; [reflexivity|].
  split.
  { intros a Ha. subst saved.
    rewrite FpuFacts.saveFpuState_image by assumption.
    unfold FpuImage.image.
    destruct (Z.leb_spec dest a); destruct (Z.ltb_spec a (dest + 512));
      destruct (Z.leb_spec (dest + 512) a); destruct (Z.ltb_spec a (dest + 516));
      destruct (Z.leb_spec (dest + 516) a); destruct (Z.ltb_spec a (dest + 520));
      cbn [andb]; try reflexivity; lia. }
  intros later Hkept restored.
  assert (Hload : forall n addr v,
             dest <= addr -> addr + Z.of_nat n <= dest + 520 ->
             Fpu.load_le n addr (Fpu.mem saved) = v ->
             Fpu.load_le n addr (Fpu.mem later) = v).
  { intros n addr v Hlo Hhi <-. clear - Hkept Hlo Hhi.
    revert addr Hlo Hhi. induction n as [|n IH]; intros addr Hlo Hhi; [reflexivity|].
    cbn [Fpu.load_le]. rewrite Hkept by lia. rewrite IH by lia. reflexivity. }
  assert (Hsaved : forall i, 0 <= i < 32 ->
             Fpu.load_le 16 (dest + 16 * i) (Fpu.mem saved) = Fpu.q s i).
  { intros i Hi. subst saved.
    apply FpuFacts.load_le_stored; [|apply Hq; exact Hi].
    intros k Hk.
    rewrite FpuFacts.saveFpuState_image by assumption.
    unfold FpuImage.image, FpuImage.byte_of.
    destruct (Z.leb_spec dest (dest + 16 * i + k)); [|lia].
    destruct (Z.ltb_spec (dest + 16 * i + k) (dest + 512)); [|lia].
    cbn [andb].
    replace ((dest + 16 * i + k - dest) / 16) with i
      by (apply (Z.div_unique _ 16 _ k); lia).
    replace ((dest + 16 * i + k - dest) mod 16) with k
      by (apply (Z.mod_unique _ 16 i); lia).
    reflexivity. }
  assert (Hsaved_fpsr : Fpu.load_le 4 (dest + 16 * 32) (Fpu.mem saved) = Fpu.fpsr s).
  { subst saved.
    apply FpuFacts.load_le_stored; [|exact Hfpsr].
    intros k Hk.
    rewrite FpuFacts.saveFpuState_image by assumption.
    unfold FpuImage.image, FpuImage.byte_of.
    destruct (Z.ltb_spec (dest + 16 * 32 + k) (dest + 512)); [lia|].
    rewrite andb_false_r.
    destruct (Z.leb_spec (dest + 512) (dest + 16 * 32 + k)); [|lia].
    destruct (Z.ltb_spec (dest + 16 * 32 + k) (dest + 516)); [|lia].
    cbn [andb]. do 3 f_equal. lia. }
  assert (Hsaved_fpcr : Fpu.load_le 4 (dest + (16 * 32 + 4)) (Fpu.mem saved)
                        = Fpu.fpcr s).
  { subst saved.
    apply FpuFacts.load_le_stored; [|exact Hfpcr].
    intros k Hk.
    rewrite FpuFacts.saveFpuState_image by assumption.
    unfold FpuImage.image, FpuImage.byte_of.
    destruct (Z.ltb_spec (dest + (16 * 32 + 4) + k) (dest + 512)); [lia|].
    rewrite andb_false_r.
    destruct (Z.ltb_spec (dest + (16 * 32 + 4) + k) (dest + 516)); [lia|].
    rewrite andb_false_r.
    destruct (Z.leb_spec (dest + 516) (dest + (16 * 32 + 4) + k)); [|lia].
    destruct (Z.ltb_spec (dest + (16 * 32 + 4) + k) (dest + 520)); [|lia].
    cbn [andb]. do 3 f_equal. lia. }
  subst restored.
  destruct (FpuFacts.loadFpuState_registers dest later)
    as (Hregs & Hrs & Hrc & Hmem).
  split; [|split; [|split]].
  - intros i Hi. rewrite Hregs by exact Hi.
    rewrite FpuFacts.wrap_small by lia.
    apply Hload; [lia | lia | apply Hsaved; exact Hi].
  - rewrite Hrs, FpuFacts.wrap_small by lia.
    apply Hload; [lia | lia | exact Hsaved_fpsr].
  - rewrite Hrc, FpuFacts.wrap_small by lia.
    apply Hload; [lia | lia | exact Hsaved_fpcr].
  - exact Hmem.
Qed.

Lemma clobber_keeps_memory (x : Fpu.state) (a : Z) :
  Fpu.mem (Fpu.clobber x) a = Fpu.mem x a.
Proof. reflexivity. Qed.

Lemma loadFpuState_restores_what_saveFpuState_saved_witness :
  let restored :=
    Fpu.loadFpuState 4096 (Fpu.clobber (Fpu.saveFpuState 4096 Fpu.sample)) in
  Fpu.q restored 31 = 1031 /\ Fpu.fpsr restored = 7 /\ Fpu.fpcr restored = 9.
Proof.
  assert (Hregs : forall i, 0 <= i < 32 -> 0 <= Fpu.q Fpu.sample i < 2 ^ 128).
  { intros i Hi. change (Fpu.q Fpu.sample i) with (1000 + i).
    split; [lia|]. apply Z.lt_trans with 2000; [lia | reflexivity]. }
  pose proof (loadFpuState_restores_what_saveFpuState_saved Fpu.sample 4096
              ltac:(lia) ltac:(cbn; lia) Hregs ltac:(cbn; lia) ltac:(cbn; lia))
    as H.
  apply proj2, proj2, proj2, proj2 in H.
  specialize (H (Fpu.clobber (Fpu.saveFpuState 4096 Fpu.sample))
                (fun a _ => clobber_keeps_memory _ a)).
  destruct H as (Hq & Hfpsr & Hfpcr & _).
  intros restored.
  split; [apply (Hq 31); lia|].
  split; [exact Hfpsr | exact Hfpcr].
Defined.

(** ** The FPEN field of CPACR_EL1 *)

Module CpacrFacts.

Lemma shiftl3_bit n i :
  0 <= n -> 0 <= i ->
  Z.testbit (Z.shiftl 3 n) i = (n <=? i) && (i <=? n + 1).
Proof.
  intros Hn Hi. rewrite Z.shiftl_spec by lia.
  destruct (Z.leb_spec n i); cbn.
  - destruct (Z.leb_spec i (n + 1)).
    + assert (Hc : i - n = 0 \/ i - n = 1) by lia.
      destruct Hc as [-> | ->]; reflexivity.
    + apply (Z.bits_above_log2 3 (i - n)); [lia|]. cbn. lia.
  - apply Z.testbit_neg_r. lia.
Qed.

Lemma shiftl1_bit n i :
  0 <= n -> 0 <= i -> Z.testbit (Z.shiftl 1 n) i = (i =? n).
Proof.
  intros Hn Hi. rewrite Z.shiftl_spec by lia.
  destruct (Z.eqb_spec i n) as [-> | Hne].
  - now rewrite Z.sub_diag.
  - destruct (Z.lt_ge_cases i n).
    + apply Z.testbit_neg_r. lia.
    + apply (Z.bits_above_log2 1 (i - n)); [lia|]. cbn. lia.
Qed.

Lemma mask_bit n i :
  0 <= n -> 0 <= i ->
  Z.testbit (wrap (Z.lnot (Z.shiftl 3 n))) i
  = (i <? 64) && negb ((n <=? i) && (i <=? n + 1)).
Proof.
  intros Hn Hi. unfold wrap, wordBits.
  destruct (Z.ltb_spec i 64); cbn [andb].
  - rewrite Z.mod_pow2_bits_low by lia.
    rewrite Z.lnot_spec by lia. now rewrite shiftl3_bit by lia.
  - apply Z.mod_pow2_bits_high. lia.
Qed.

Lemma word_high_bits c i : 0 <= c < 2 ^ 64 -> 64 <= i -> Z.testbit c i = false.
Proof.
  intros Hc Hi. rewrite <- (Z.mod_small c (2 ^ 64)) by lia.
  apply Z.mod_pow2_bits_high. lia.
Qed.

Lemma word_of_bits x :
  0 <= x -> (forall i, 64 <= i -> Z.testbit x i = false) -> 0 <= x < 2 ^ 64.
Proof.
  intros Hx Hhigh.
  assert (Heq : x = x mod 2 ^ 64).
  { apply Z.bits_inj'. intros i Hi.
    destruct (Z.lt_ge_cases i 64).
    - now rewrite Z.mod_pow2_bits_low by lia.
    - rewrite Z.mod_pow2_bits_high by lia. now apply Hhigh. }
  rewrite Heq. apply Z.mod_pos_bound. reflexivity.
Qed.

(** The bits of CPACR_EL1 after [enableFpu] and after [disableFpu]. *)
Lemma enable_bit n c i :
  0 <= n -> 0 <= i ->
  Z.testbit (Z.lor c (Z.shiftl 3 n)) i
  = Z.testbit c i || ((n <=? i) && (i <=? n + 1)).
Proof. intros. rewrite Z.lor_spec. now rewrite shiftl3_bit by lia. Qed.

Lemma disable_bit n c i :
  0 <= n -> 0 <= i ->
  Z.testbit (Z.lor (Z.land c (wrap (Z.lnot (Z.shiftl 3 n)))) (Z.shiftl 1 n)) i
  = (Z.testbit c i && ((i <? 64) && negb ((n <=? i) && (i <=? n + 1))))
    || (i =? n).
Proof.
  intros. rewrite Z.lor_spec, Z.land_spec.
  now rewrite mask_bit, shiftl1_bit by lia.
Qed.

End CpacrFacts.

(** Case analysis on the position of a bit relative to the FPEN field. *)
Ltac bit_cases :=
  repeat match goal with
         | |- context [?a <=? ?b] => destruct (Z.leb_spec a b)
         | |- context [?a <? ?b] => destruct (Z.ltb_spec a b)
         | |- context [?a =? ?b] => destruct (Z.eqb_spec a b)
         end;
  cbn; rewrite ?orb_true_r, ?orb_false_r, ?andb_true_r, ?andb_false_r;
  try reflexivity; try lia.

Lemma three_bit i : 0 <= i -> Z.testbit 3 i = (i <=? 1).
Proof.
  intros Hi. change 3 with (Z.shiftl 3 0) at 1.
  rewrite CpacrFacts.shiftl3_bit by lia.
  destruct (Z.leb_spec 0 i); [reflexivity | lia].
Qed.

Lemma one_bit i : 0 <= i -> Z.testbit 1 i = (i =? 0).
Proof.
  intros Hi. change 1 with (Z.shiftl 1 0) at 1.
  now rewrite CpacrFacts.shiftl1_bit by lia.
Qed.

(** X30. [enableFpu] sets the two-bit FPEN field of CPACR_EL1 to 3 and
    [disableFpu] sets it to 1; both leave every other bit of the register as
    it was and keep it a 64-bit word, so each overrides the other:
    disabling after enabling is disabling, and enabling after disabling is
    enabling.  (The field position is at most 29, so that 3 << FPEN is an
    int.) *)
Theorem enableFpu_and_disableFpu_rewrite_only_the_FPEN_field :
  forall (FPEN : Z) (s : Fpu.state),
    0 <= FPEN <= 29 ->
    0 <= Fpu.cpacr_el1 s < 2 ^ 64 ->
    let enabled := Fpu.enableFpu FPEN s in
    let disabled := Fpu.disableFpu FPEN s in
    Z.land (Z.shiftr (Fpu.cpacr_el1 enabled) FPEN) 3 = 3
    /\ Z.land (Z.shiftr (Fpu.cpacr_el1 disabled) FPEN) 3 = 1
    /\ (forall i, 0 <= i -> i <> FPEN -> i <> FPEN + 1 ->
        Z.testbit (Fpu.cpacr_el1 enabled) i = Z.testbit (Fpu.cpacr_el1 s) i
        /\ Z.testbit (Fpu.cpacr_el1 disabled) i = Z.testbit (Fpu.cpacr_el1 s) i)
    /\ 0 <= Fpu.cpacr_el1 enabled < 2 ^ 64
    /\ 0 <= Fpu.cpacr_el1 disabled < 2 ^ 64
    /\ Fpu.disableFpu FPEN enabled = disabled
    /\ Fpu.enableFpu FPEN disabled = enabled.
Proof.
  intros FPEN s Hn Hc enabled disabled. subst enabled disabled.
  unfold Fpu.enableFpu, Fpu.disableFpu, Fpu.set_cpacr_el1.
  cbn [Fpu.cpacr_el1 Fpu.q Fpu.fpsr Fpu.fpcr Fpu.temp Fpu.mem].
  set (c := Fpu.cpacr_el1 s) in *.
  assert (Hhigh : forall i, 64 <= i -> Z.testbit c i = false).
  { intros i Hi. now apply CpacrFacts.word_high_bits. }
  split; [|split; [|split; [|split; [|split; [|split]]]]].
  - apply Z.bits_inj'. intros i Hi.
    rewrite Z.land_spec, Z.shiftr_spec, three_bit by lia.
    rewrite CpacrFacts.enable_bit by lia.
    destruct (Z.testbit c (i + FPEN)); bit_cases.
  - apply Z.bits_inj'. intros i Hi.
    rewrite Z.land_spec, Z.shiftr_spec, three_bit, one_bit by lia.
    rewrite CpacrFacts.disable_bit by lia.
    destruct (Z.testbit c (i + FPEN)); bit_cases.
  - intros i Hi H1 H2.
    rewrite CpacrFacts.enable_bit, CpacrFacts.disable_bit by lia.
    destruct (Z.testbit c i) eqn:Hbit; split; bit_cases.
    rewrite Hhigh in Hbit by lia. discriminate.
  - apply CpacrFacts.word_of_bits.
    + apply Z.lor_nonneg. split; [lia|]. apply Z.shiftl_nonneg. lia.
    + intros i Hi. rewrite CpacrFacts.enable_bit by lia.
      rewrite Hhigh by lia. bit_cases.
  - apply CpacrFacts.word_of_bits.
    + apply Z.lor_nonneg. split.
      * apply Z.land_nonneg. left. lia.
      * apply Z.shiftl_nonneg. lia.
    + intros i Hi. rewrite CpacrFacts.disable_bit by lia.
      rewrite Hhigh by lia. bit_cases.
  - f_equal. apply Z.bits_inj'. intros i Hi.
    rewrite !CpacrFacts.disable_bit, CpacrFacts.enable_bit by lia.
    destruct (Z.testbit c i); bit_cases.
  - f_equal. apply Z.bits_inj'. intros i Hi.
    rewrite !CpacrFacts.enable_bit, CpacrFacts.disable_bit by lia.
    destruct (Z.testbit c i) eqn:Hbit; bit_cases.
    rewrite Hhigh in Hbit by lia. discriminate.
Qed.

Lemma enableFpu_and_disableFpu_rewrite_only_the_FPEN_field_witness :
  Fpu.cpacr_el1 (Fpu.enableFpu 20 Fpu.sample) = 5 + 3 * 2 ^ 20
  /\ Fpu.cpacr_el1 (Fpu.disableFpu 20 Fpu.sample) = 5 + 2 ^ 20
  /\ Fpu.disableFpu 20 (Fpu.enableFpu 20 Fpu.sample) = Fpu.disableFpu 20 Fpu.sample.
Proof.
  split; [reflexivity|]. split; [reflexivity|].
  apply (enableFpu_and_disableFpu_rewrite_only_the_FPEN_field 20 Fpu.sample);
    cbn; lia.
Defined.
